(** * The zoomable layer explorer of [src/App.js]

    A shallow embedding of the interaction engine of the application: the
    responsive scale calculation ([calculateResponsiveScale]), the zoom
    progress update ([handleZoomProgress]) and the layer transitions
    ([handleSilentLayerTransition], [handleReverseLayerTransition],
    [handleNodeClick], [handleHome], [handleNavigate]) together with the
    navigation history.

    Conventions of the embedding.
    - JavaScript numbers are read as real numbers: [Math.min], [Math.max] and
      [Math.sqrt] are [Rmin], [Rmax] and [sqrt]; rounding, [NaN] and the
      infinities of IEEE arithmetic are outside the model.
    - [null]/[undefined] is [None]; a string is truthy when it is present
      and not empty.  The handlers read [node.color], which no node of the
      configuration defines: it is an optional field.
    - A React state setter is an update of the corresponding field of the
      application state, applied in program order.  A handler runs against
      the state of the render that created it (its closure, [c] below) and
      posts its updates to the live state; an event reaches the handlers of
      the current render.
    - [requestAnimationFrame] and [setTimeout] do not run their callback:
      they record it.  Frame callbacks run at the end of the dispatch of the
      event that requested them; timers stay pending in the [World] until
      their delay has elapsed.
    - The [Node] component forwards its input to [onZoomProgress] or to the
      window event ['triggerReverseTransition']; the engine starts at those
      calls, and [NodeView] gives the call each input handler makes from
      the props of the node, together with the size and the opacities the
      node is drawn with.  The interval that simulates a zoom after a click
      is a sequence of such calls and is not scheduled by the model;
      [clickZoomIntervalRef] only records whether a handle is held. *)

From Stdlib Require Import Reals Lra Lia List String Bool Arith.
Import ListNotations.

Open Scope R_scope.

(** ** Numbers *)

Definition Rltb (a b : R) : bool := if Rlt_dec a b then true else false.
Definition Rleb (a b : R) : bool := if Rle_dec a b then true else false.
Definition Reqb (a b : R) : bool := if Req_dec_T a b then true else false.

(** ** Content model *)

(** JavaScript truthiness of an optional string ([!node.children],
    [node.color || ...]). *)
Definition truthy (o : option string) : bool :=
  match o with
  | Some s => negb (String.eqb s EmptyString)
  | None => false
  end.

Module Node.
Record t : Type := mk {
  id : string;
  x : R;
  y : R;
  label : string;
  children : option string;
  color : option string
}.
End Node.

Module Layer.
Record t : Type := mk {
  id : string;
  name : string;
  color : string;
  nodes : list Node.t
}.
End Layer.

Module Canvas.
Record t : Type := mk { backgroundColor : string }.
End Canvas.

Module Config.
Record t : Type := mk {
  canvas : Canvas.t;
  layers : list Layer.t
}.
End Config.

Module Viewport.
Record t : Type := mk { width : R; height : R }.
End Viewport.

Definition node_1 : Node.t :=
  Node.mk "node-1" 50 50 "water cycle" (Some "layer-2"%string) None.
Definition node_2_1 : Node.t :=
  Node.mk "node-2-1" 43 50 "what is it ?" (Some "layer-3"%string) None.
Definition node_2_2 : Node.t :=
  Node.mk "node-2-2" 57 50 "4 layers" (Some "layer-3"%string) None.
Definition node_3_1 : Node.t :=
  Node.mk "node-3-1" 60 50 "1. Evaporation" None None.
Definition node_3_2 : Node.t :=
  Node.mk "node-3-2" 50 65 "2. Condensation" None None.
Definition node_3_3 : Node.t :=
  Node.mk "node-3-3" 40 50 "3. Precipitation" None None.
Definition node_3_4 : Node.t :=
  Node.mk "node-3-4" 50 35 "4. Collection" None None.

Definition layer_1 : Layer.t :=
  Layer.mk "layer-1" "Root" "#2563eb" [node_1].
Definition layer_2 : Layer.t :=
  Layer.mk "layer-2" "Main Categories" "#7c3aed" [node_2_1; node_2_2].
Definition layer_3 : Layer.t :=
  Layer.mk "layer-3" "Details" "#34d399"
    [node_3_1; node_3_2; node_3_3; node_3_4].

Definition DEFAULT_CONFIG : Config.t :=
  Config.mk (Canvas.mk "#0a0e27") [layer_1; layer_2; layer_3].

(** ** Layout engine: [calculateResponsiveScale] *)

(** Pixel distance between the centres of two nodes. *)
Definition distance (width height : R) (node1 node2 : Node.t) : R :=
  let x1 := (Node.x node1 / 100) * width in
  let y1 := (Node.y node1 / 100) * height in
  let x2 := (Node.x node2 / 100) * width in
  let y2 := (Node.y node2 / 100) * height in
  let dx := x2 - x1 in
  let dy := y2 - y1 in
  sqrt (dx * dx + dy * dy).

(** Body of the inner loop of STEP 1 for the pair [(node1, node2)]. *)
Definition overlapStep (width height baseSize : R) (node1 : Node.t)
    (minScale : R) (node2 : Node.t) : R :=
  let d := distance width height node1 node2 in
  let minDistance := baseSize * 1.2 in
  if Rltb d minDistance && Rltb 0 d then
    let requiredScale := d / minDistance in
    Rmin minScale requiredScale
  else minScale.

(** STEP 1: [for i ... for j = i + 1 ...]. *)
Fixpoint overlapLoop (width height baseSize : R) (allNodes : list Node.t)
    (minScale : R) : R :=
  match allNodes with
  | [] => minScale
  | node1 :: rest =>
      overlapLoop width height baseSize rest
        (fold_left (overlapStep width height baseSize node1) rest minScale)
  end.

(** Body of the loop of STEP 2.  The radius and the four bounds are computed
    once, from the scale at the start of the iteration; each check then uses
    the scale as the previous checks left it. *)
Definition boundaryStep (width height baseSize : R) (minScale : R)
    (node : Node.t) : R :=
  let x := (Node.x node / 100) * width in
  let y := (Node.y node / 100) * height in
  let radius := (baseSize * minScale) / 2 in
  let leftBound := radius in
  let rightBound := width - radius in
  let topBound := radius in
  let bottomBound := height - radius in
  let m1 :=
    if Rltb x leftBound
    then Rmin minScale ((x / (baseSize / 2)) * minScale * 0.95)
    else minScale in
  let m2 :=
    if Rltb rightBound x
    then Rmin m1 (((width - x) / (baseSize / 2)) * m1 * 0.95)
    else m1 in
  let m3 :=
    if Rltb y topBound
    then Rmin m2 ((y / (baseSize / 2)) * m2 * 0.95)
    else m2 in
  if Rltb bottomBound y
  then Rmin m3 (((height - y) / (baseSize / 2)) * m3 * 0.95)
  else m3.

(** The scale before the final clamp (the value of [minScale] when STEP 3 is
    reached). *)
Definition unclampedScale (width height : R) (allNodes : list Node.t)
    (baseSize : R) : R :=
  fold_left (boundaryStep width height baseSize) allNodes
    (overlapLoop width height baseSize allNodes 1).

Definition calculateResponsiveScale (viewport : option Viewport.t)
    (allNodes : option (list Node.t)) (baseSize : R) : R :=
  match viewport, allNodes with
  | Some vp, Some ns =>
      if (List.length ns <=? 1)%nat then 1
      else
        Rmax 0.3
          (Rmin 1
             (unclampedScale (Viewport.width vp) (Viewport.height vp) ns
                baseSize))
  | _, _ => 1
  end.

(** The scale a pair asks for: [distance / minDistance] when the pair is
    too close (and not at distance 0), nothing otherwise. *)
Definition tooClose (width height baseSize : R) (node1 node2 : Node.t) : Prop :=
  0 < distance width height node1 node2 < baseSize * 1.2.

(** A node is clipped when one of the four checks of STEP 2 fires for it. *)
Definition clipped (width height baseSize minScale : R) (node : Node.t) : bool :=
  let x := (Node.x node / 100) * width in
  let y := (Node.y node / 100) * height in
  let radius := (baseSize * minScale) / 2 in
  Rltb x radius || Rltb (width - radius) x
  || Rltb y radius || Rltb (height - radius) y.

(** ** Navigation state *)

Module HistoryEntry.
Record t : Type := mk {
  layerIndex : nat;
  color : string;
  name : string;
  nodeColor : string;
  clickedNode : option Node.t
}.
End HistoryEntry.

(** The [useState] cells of [App] that the navigation engine reads or
    writes, and the one [useRef] cell ([clickZoomIntervalRef], [true] while
    it holds an interval handle). *)
Record AppState : Type := mkAppState {
  currentLayerIndex : nat;
  direction : Z;
  backgroundColor : string;
  history : list HistoryEntry.t;
  scale : R;
  panX : R;
  panY : R;
  isZooming : bool;
  zoomProgress : R;
  zoomingNode : option Node.t;
  silentTransition : bool;
  viewport : Viewport.t;
  clickZoomIntervalRef : bool
}.

(** Callbacks handed to [requestAnimationFrame].  Each one is a call of a
    handler of the render that scheduled it, so it carries that render's
    state [c]. *)
Inductive FrameCallback : Type :=
| SilentLayerTransition (c : AppState) (node : Node.t)
| ReverseLayerTransition (c : AppState).

(** Callbacks handed to [setTimeout], with the values they capture. *)
Inductive TimerCallback : Type :=
| ReverseSwap (prevHistory : HistoryEntry.t)
| ClickSwap (targetLayerIndex : nat) (nodeColor : string) (node : Node.t)
| HomeSwap (rootColor : string)
| NavigateSwap (target : HistoryEntry.t) (index : nat)
| SilentOff
| ZoomingOff.

Inductive Effect : Type :=
| RequestAnimationFrame (f : FrameCallback)
| SetTimeout (t : TimerCallback) (ms : nat).

(** A handler posts updates to the live state and records what it
    schedules. *)
Definition Handler : Type := AppState -> AppState * list Effect.

Definition skip : Handler := fun s => (s, []).

Definition andThen (h1 h2 : Handler) : Handler :=
  fun s =>
    let (s1, e1) := h1 s in
    let (s2, e2) := h2 s1 in
    (s2, e1 ++ e2).

Notation "h1 ;; h2" := (andThen h1 h2) (at level 61, right associativity).

Definition update (f : AppState -> AppState) : Handler := fun s => (f s, []).

Definition setTimeout (t : TimerCallback) (ms : nat) : Handler :=
  fun s => (s, [SetTimeout t ms]).

Definition requestAnimationFrame (f : FrameCallback) : Handler :=
  fun s => (s, [RequestAnimationFrame f]).

Definition setCurrentLayerIndex (v : nat) : Handler :=
  update (fun s =>
    mkAppState v (direction s) (backgroundColor s) (history s) (scale s)
      (panX s) (panY s) (isZooming s) (zoomProgress s) (zoomingNode s)
      (silentTransition s) (viewport s) (clickZoomIntervalRef s)).

Definition setDirection (v : Z) : Handler :=
  update (fun s =>
    mkAppState (currentLayerIndex s) v (backgroundColor s) (history s)
      (scale s) (panX s) (panY s) (isZooming s) (zoomProgress s)
      (zoomingNode s) (silentTransition s) (viewport s)
      (clickZoomIntervalRef s)).

Definition setBackgroundColor (v : string) : Handler :=
  update (fun s =>
    mkAppState (currentLayerIndex s) (direction s) v (history s) (scale s)
      (panX s) (panY s) (isZooming s) (zoomProgress s) (zoomingNode s)
      (silentTransition s) (viewport s) (clickZoomIntervalRef s)).

(** [setHistory] is always called with an updater function (or, in
    [handleHome], with a constant). *)
Definition setHistory (f : list HistoryEntry.t -> list HistoryEntry.t)
    : Handler :=
  update (fun s =>
    mkAppState (currentLayerIndex s) (direction s) (backgroundColor s)
      (f (history s)) (scale s) (panX s) (panY s) (isZooming s)
      (zoomProgress s) (zoomingNode s) (silentTransition s) (viewport s)
      (clickZoomIntervalRef s)).

Definition setScale (v : R) : Handler :=
  update (fun s =>
    mkAppState (currentLayerIndex s) (direction s) (backgroundColor s)
      (history s) v (panX s) (panY s) (isZooming s) (zoomProgress s)
      (zoomingNode s) (silentTransition s) (viewport s)
      (clickZoomIntervalRef s)).

Definition setPanX (v : R) : Handler :=
  update (fun s =>
    mkAppState (currentLayerIndex s) (direction s) (backgroundColor s)
      (history s) (scale s) v (panY s) (isZooming s) (zoomProgress s)
      (zoomingNode s) (silentTransition s) (viewport s)
      (clickZoomIntervalRef s)).

Definition setPanY (v : R) : Handler :=
  update (fun s =>
    mkAppState (currentLayerIndex s) (direction s) (backgroundColor s)
      (history s) (scale s) (panX s) v (isZooming s) (zoomProgress s)
      (zoomingNode s) (silentTransition s) (viewport s)
      (clickZoomIntervalRef s)).

Definition setIsZooming (v : bool) : Handler :=
  update (fun s =>
    mkAppState (currentLayerIndex s) (direction s) (backgroundColor s)
      (history s) (scale s) (panX s) (panY s) v (zoomProgress s)
      (zoomingNode s) (silentTransition s) (viewport s)
      (clickZoomIntervalRef s)).

Definition setZoomProgress (v : R) : Handler :=
  update (fun s =>
    mkAppState (currentLayerIndex s) (direction s) (backgroundColor s)
      (history s) (scale s) (panX s) (panY s) (isZooming s) v
      (zoomingNode s) (silentTransition s) (viewport s)
      (clickZoomIntervalRef s)).

Definition setZoomingNode (v : option Node.t) : Handler :=
  update (fun s =>
    mkAppState (currentLayerIndex s) (direction s) (backgroundColor s)
      (history s) (scale s) (panX s) (panY s) (isZooming s) (zoomProgress s)
      v (silentTransition s) (viewport s) (clickZoomIntervalRef s)).

Definition setSilentTransition (v : bool) : Handler :=
  update (fun s =>
    mkAppState (currentLayerIndex s) (direction s) (backgroundColor s)
      (history s) (scale s) (panX s) (panY s) (isZooming s) (zoomProgress s)
      (zoomingNode s) v (viewport s) (clickZoomIntervalRef s)).

Definition setViewport (v : Viewport.t) : Handler :=
  update (fun s =>
    mkAppState (currentLayerIndex s) (direction s) (backgroundColor s)
      (history s) (scale s) (panX s) (panY s) (isZooming s) (zoomProgress s)
      (zoomingNode s) (silentTransition s) v (clickZoomIntervalRef s)).

(** [if (clickZoomIntervalRef.current) { clearInterval(...); ... = null }] *)
Definition clearClickZoomInterval : Handler :=
  update (fun s =>
    mkAppState (currentLayerIndex s) (direction s) (backgroundColor s)
      (history s) (scale s) (panX s) (panY s) (isZooming s) (zoomProgress s)
      (zoomingNode s) (silentTransition s) (viewport s) false).

(** [setZoomProgress(prev => ...)]: the updater sees the live value, returns
    the new one, and may post further updates while it runs. *)
Definition setZoomProgressWith (updater : R -> R * Handler) : Handler :=
  fun s =>
    let (newProgress, sideEffects) := updater (zoomProgress s) in
    (sideEffects ;; setZoomProgress newProgress) s.

(** [Array.prototype.findIndex]; [None] stands for -1. *)
Fixpoint findIndex {A : Type} (p : A -> bool) (l : list A) : option nat :=
  match l with
  | [] => None
  | a :: rest => if p a then Some 0%nat else option_map S (findIndex p rest)
  end.

(** [node.children] of a node reference that may be [null]: the handlers
    dereference a [null] node only on paths that leave the state unchanged,
    so it is read as "no children". *)
Definition childrenOf (node : option Node.t) : option string :=
  match node with
  | Some n => Node.children n
  | None => None
  end.

(** The largest zoom progress [handleZoomProgress] allows on a layer below
    the root, from the viewport and the nodes of the layer. *)
Definition maxProgress (vp : Viewport.t) (layerNodes : list Node.t) : R :=
  let maxNodeSize :=
    Rmin (Viewport.width vp) (Viewport.height vp) * 0.95 * 1.75 in
  let baseNodeSize := 165 in
  let responsiveScale :=
    calculateResponsiveScale (Some vp) (Some layerNodes) baseNodeSize in
  let initialNodeSize := baseNodeSize * responsiveScale in
  let maxScale := maxNodeSize / initialNodeSize in
  (maxScale - 1) / (8 / 100).

(** The upper bound [handleZoomProgress] clamps to on layer [layer]. *)
Definition progressBound (c : AppState) (layer : Layer.t) : R :=
  if (0 <? currentLayerIndex c)%nat
  then maxProgress (viewport c) (Layer.nodes layer)
  else 200.

(** The state after the immediate part of a reverse transition. *)
Definition reversing (prevHistory : HistoryEntry.t) (s : AppState) : AppState :=
  mkAppState (currentLayerIndex s) (-1)%Z (HistoryEntry.color prevHistory)
    (history s) (scale s) (panX s) (panY s) true (zoomProgress s)
    (zoomingNode s) (silentTransition s) (viewport s)
    (clickZoomIntervalRef s).

Definition isSilentRequest (e : Effect) : bool :=
  match e with
  | RequestAnimationFrame (SilentLayerTransition _ _) => true
  | _ => false
  end.

(** How many times a handler asked for a silent layer transition. *)
Definition silentRequests (effects : list Effect) : nat :=
  List.length (filter isSilentRequest effects).

Section Engine.
Variable config : Config.t.

(** [config.layers[currentLayerIndex]], computed at each render. *)
Definition currentLayer (c : AppState) : option Layer.t :=
  nth_error (Config.layers config) (currentLayerIndex c).

(** [config.layers.findIndex(l => l.id === node.children)] *)
Definition layerIndexOf (children : option string) : option nat :=
  match children with
  | Some id => findIndex (fun l => String.eqb (Layer.id l) id)
                 (Config.layers config)
  | None => None
  end.

(** [config.layers[i].name]; the index always comes from [findIndex] or is
    0, the empty string stands for the access that cannot fail. *)
Definition layerNameAt (i : nat) : string :=
  match nth_error (Config.layers config) i with
  | Some l => Layer.name l
  | None => EmptyString
  end.

(** [node.color || currentLayer.color]; [None] when [currentLayer] is
    undefined and the access throws. *)
Definition nodeColorOf (c : AppState) (node : Node.t) : option string :=
  if truthy (Node.color node) then Node.color node
  else option_map Layer.color (currentLayer c).

Definition rootEntry (rootColor : string) : HistoryEntry.t :=
  HistoryEntry.mk 0 rootColor (layerNameAt 0) rootColor None.

Definition forwardEntry (targetLayerIndex : nat) (nodeColor : string)
    (node : Node.t) : HistoryEntry.t :=
  HistoryEntry.mk targetLayerIndex nodeColor (layerNameAt targetLayerIndex)
    nodeColor (Some node).

Definition initialState (vp : Viewport.t) : AppState :=
  let bg := Canvas.backgroundColor (Config.canvas config) in
  mkAppState 0 0%Z bg [rootEntry bg] 1 0 0 false 0 None false vp false.

(** *** Transitions *)

(** After the guard the history has two entries or more, so
    [history[history.length - 2]] is defined. *)
Definition handleReverseLayerTransition (c : AppState) : Handler :=
  if (currentLayerIndex c =? 0)%nat || (List.length (history c) <=? 1)%nat
  then skip
  else
    match nth_error (history c) (List.length (history c) - 2) with
    | None => skip
    | Some prevHistory =>
        setIsZooming true ;;
        setDirection (-1)%Z ;;
        setBackgroundColor (HistoryEntry.color prevHistory) ;;
        setTimeout (ReverseSwap prevHistory) 50 ;;
        setTimeout ZoomingOff 750
    end.

(** The updater of [setHistory] in [handleSilentLayerTransition]. *)
Definition pushUnlessOnTop (targetLayerIndex : nat) (entry : HistoryEntry.t)
    (prev : list HistoryEntry.t) : list HistoryEntry.t :=
  match nth_error prev (List.length prev - 1) with
  | Some top =>
      if (0 <? List.length prev)%nat
         && (HistoryEntry.layerIndex top =? targetLayerIndex)%nat
      then prev
      else prev ++ [entry]
  | None => prev ++ [entry]
  end.

Definition handleSilentLayerTransition (c : AppState) (node : Node.t)
    : Handler :=
  if negb (truthy (Node.children node)) then skip
  else
    match layerIndexOf (Node.children node) with
    | None => skip
    | Some targetLayerIndex =>
        match nodeColorOf c node with
        | None => skip
        | Some nodeColor =>
            clearClickZoomInterval ;;
            setZoomProgress 0 ;;
            setZoomingNode None ;;
            setSilentTransition true ;;
            setCurrentLayerIndex targetLayerIndex ;;
            setBackgroundColor nodeColor ;;
            setScale 1 ;;
            setPanX 0 ;;
            setPanY 0 ;;
            setHistory
              (pushUnlessOnTop targetLayerIndex
                 (forwardEntry targetLayerIndex nodeColor node)) ;;
            setTimeout SilentOff 50
        end
    end.

(** The state after a silent layer transition. *)
Definition entered (targetLayerIndex : nat) (nodeColor : string)
    (node : Node.t) (s : AppState) : AppState :=
  mkAppState targetLayerIndex (direction s) nodeColor
    (pushUnlessOnTop targetLayerIndex
       (forwardEntry targetLayerIndex nodeColor node) (history s))
    1 0 0 (isZooming s) 0 None true (viewport s) false.

(** *** Progressive zoom *)

Definition transitionThreshold (c : AppState) : R :=
  if (currentLayerIndex c =? 0)%nat then 84 else 90.

(** The function passed to [setZoomProgress] by [handleZoomProgress].  An
    undefined [currentLayer] makes [currentLayer.nodes] throw: the progress
    is then left as it was. *)
Definition zoomProgressUpdater (c : AppState) (node : option Node.t)
    (deltaY : R) (prev : R) : R * Handler :=
  match currentLayer c with
  | None => (prev, skip)
  | Some layer =>
      let maxProgress := maxProgress (viewport c) (Layer.nodes layer) in
      let zoomSensitivity := 0.15 in
      let increment := deltaY * zoomSensitivity in
      let newProgress0 := Rmax 0 (prev + increment) in
      let newProgress :=
        if (0 <? currentLayerIndex c)%nat
        then Rmin maxProgress newProgress0
        else Rmin 200 newProgress0 in
      (newProgress,
        (if Rleb (transitionThreshold c) newProgress
            && Rltb prev (transitionThreshold c)
            && truthy (childrenOf node)
         then
           match node with
           | Some n => requestAnimationFrame (SilentLayerTransition c n)
           | None => skip
           end
         else skip) ;;
        (if Reqb newProgress 0 && Rltb 0 prev
            && (0 <? currentLayerIndex c)%nat
         then
           setZoomingNode None ;;
           requestAnimationFrame (ReverseLayerTransition c)
         else skip))
  end.

Definition handleZoomProgress (c : AppState) (node : option Node.t)
    (deltaY : R) : Handler :=
  if isZooming c then skip
  else if Rltb 0 deltaY && negb (truthy (childrenOf node)) then skip
  else if Rltb deltaY 0 && Reqb (zoomProgress c) 0
          && (0 <? currentLayerIndex c)%nat
  then handleReverseLayerTransition c
  else
    (if Rltb 0 deltaY && Reqb (zoomProgress c) 0
     then setZoomingNode node else skip) ;;
    setZoomProgressWith (zoomProgressUpdater c node deltaY).

Definition handleCanvasClick (c : AppState) : Handler :=
  if Rltb 0 (zoomProgress c)
  then setZoomProgress 0 ;; setZoomingNode None
  else skip.

(** *** Click, home and breadcrumb navigation *)

Definition handleNodeClick (c : AppState) (node : Node.t) : Handler :=
  if negb (truthy (Node.children node)) || isZooming c then skip
  else
    match layerIndexOf (Node.children node) with
    | None => skip
    | Some targetLayerIndex =>
        setZoomProgress 0 ;;
        setZoomingNode None ;;
        match nodeColorOf c node with
        | None => skip
        | Some nodeColor =>
            setIsZooming true ;;
            setDirection 1%Z ;;
            setBackgroundColor nodeColor ;;
            setTimeout (ClickSwap targetLayerIndex nodeColor node) 50 ;;
            setTimeout ZoomingOff 750
        end
    end.

Definition handleHome (c : AppState) : Handler :=
  if (currentLayerIndex c =? 0)%nat || isZooming c then skip
  else
    let rootColor := Canvas.backgroundColor (Config.canvas config) in
    setIsZooming true ;;
    setDirection (-1)%Z ;;
    setBackgroundColor rootColor ;;
    setTimeout (HomeSwap rootColor) 50 ;;
    setTimeout ZoomingOff 750.

(** [history[index]] is undefined for an index outside the history: the
    handler then throws at [target.color], after its first two updates. *)
Definition handleNavigate (c : AppState) (index : nat) : Handler :=
  if (S index =? List.length (history c))%nat || isZooming c then skip
  else
    let dir := if (S index <? List.length (history c))%nat
               then (-1)%Z else 1%Z in
    match nth_error (history c) index with
    | None => setIsZooming true ;; setDirection dir
    | Some target =>
        setIsZooming true ;;
        setDirection dir ;;
        setBackgroundColor (HistoryEntry.color target) ;;
        setTimeout (NavigateSwap target index) 50 ;;
        setTimeout ZoomingOff 750
    end.

(** Wheel on the canvas. *)
Definition handleWheel (c : AppState) (deltaY : R) : Handler :=
  if Rltb deltaY 0 && (0 <? currentLayerIndex c)%nat && negb (isZooming c)
  then
    if Rltb 0 (zoomProgress c)
    then handleZoomProgress c (zoomingNode c) deltaY
    else handleReverseLayerTransition c
  else skip.

(** Listener of the window event ['nodeGoBack']. *)
Definition handleGoBack (c : AppState) : Handler :=
  if (1 <? List.length (history c))%nat && negb (isZooming c)
     && negb (currentLayerIndex c =? 0)%nat
  then
    match nth_error (history c) (List.length (history c) - 2) with
    | None => skip
    | Some prevHistory =>
        setIsZooming true ;;
        setDirection (-1)%Z ;;
        setBackgroundColor (HistoryEntry.color prevHistory) ;;
        setTimeout (ReverseSwap prevHistory) 50 ;;
        setTimeout ZoomingOff 750
    end
  else skip.

(** Listener of the window event ['triggerReverseTransition']. *)
Definition handleReverseTransition (c : AppState) : Handler :=
  if negb (isZooming c) && (0 <? currentLayerIndex c)%nat
  then handleReverseLayerTransition c
  else skip.

Definition handleResize (vp : Viewport.t) : Handler := setViewport vp.

(** *** Scheduled callbacks *)

Definition runFrame (f : FrameCallback) : Handler :=
  match f with
  | SilentLayerTransition c node => handleSilentLayerTransition c node
  | ReverseLayerTransition c => handleReverseLayerTransition c
  end.

Definition runTimer (t : TimerCallback) : Handler :=
  match t with
  | ReverseSwap prevHistory =>
      setCurrentLayerIndex (HistoryEntry.layerIndex prevHistory) ;;
      setScale 1 ;; setPanX 0 ;; setPanY 0 ;;
      setHistory (fun prev => removelast prev)
  | ClickSwap targetLayerIndex nodeColor node =>
      setCurrentLayerIndex targetLayerIndex ;;
      setScale 1 ;; setPanX 0 ;; setPanY 0 ;;
      setHistory
        (fun prev => prev ++ [forwardEntry targetLayerIndex nodeColor node])
  | HomeSwap rootColor =>
      setCurrentLayerIndex 0 ;;
      setScale 1 ;; setPanX 0 ;; setPanY 0 ;;
      setZoomProgress 0 ;;
      setZoomingNode None ;;
      clearClickZoomInterval ;;
      setHistory (fun _ => [rootEntry rootColor])
  | NavigateSwap target index =>
      setCurrentLayerIndex (HistoryEntry.layerIndex target) ;;
      setScale 1 ;; setPanX 0 ;; setPanY 0 ;;
      (if (HistoryEntry.layerIndex target =? 0)%nat
       then setZoomProgress 0 ;; setZoomingNode None ;;
            clearClickZoomInterval
       else skip) ;;
      setHistory (fun prev => firstn (index + 1) prev)
  | SilentOff => setSilentTransition false
  | ZoomingOff => setIsZooming false
  end.

(** *** Events and the world *)

(** The inputs of the engine: calls of the handlers that [App] passes to
    its children or registers on the window. *)
Inductive Event : Type :=
| ZoomProgress (node : option Node.t) (deltaY : R)
| NodeClick (node : Node.t)
| CanvasClick
| CanvasWheel (deltaY : R)
| HomeClick
| Navigate (index : nat)
| NodeGoBack
| TriggerReverseTransition
| Resize (vp : Viewport.t).

(** The handler of the render whose state is [c]. *)
Definition handle (c : AppState) (e : Event) : Handler :=
  match e with
  | ZoomProgress node deltaY => handleZoomProgress c node deltaY
  | NodeClick node => handleNodeClick c node
  | CanvasClick => handleCanvasClick c
  | CanvasWheel deltaY => handleWheel c deltaY
  | HomeClick => handleHome c
  | Navigate index => handleNavigate c index
  | NodeGoBack => handleGoBack c
  | TriggerReverseTransition => handleReverseTransition c
  | Resize vp => handleResize vp
  end.

(** The timers among the effects, as (remaining delay, callback). *)
Fixpoint timeouts (effects : list Effect) : list (nat * TimerCallback) :=
  match effects with
  | [] => []
  | SetTimeout t ms :: rest => (ms, t) :: timeouts rest
  | RequestAnimationFrame _ :: rest => timeouts rest
  end.

(** Run the frame callbacks among the effects, in order, and collect the
    timers.  (No frame callback of this program requests a frame.) *)
Fixpoint settle (effects : list Effect) (s : AppState)
    : AppState * list (nat * TimerCallback) :=
  match effects with
  | [] => (s, [])
  | SetTimeout t ms :: rest =>
      let (s', ts) := settle rest s in (s', (ms, t) :: ts)
  | RequestAnimationFrame f :: rest =>
      let (s1, e1) := runFrame f s in
      let (s', ts) := settle rest s1 in
      (s', timeouts e1 ++ ts)
  end.

Record World : Type := mkWorld {
  appState : AppState;
  timers : list (nat * TimerCallback)
}.

Definition initialWorld (vp : Viewport.t) : World :=
  mkWorld (initialState vp) [].

(** An event reaches the handlers of the current render; the frame
    callbacks it requests run before anything else happens. *)
Definition dispatch (e : Event) (w : World) : World :=
  let (s1, effects) := handle (appState w) e (appState w) in
  let (s2, ts) := settle effects s1 in
  mkWorld s2 (timers w ++ ts).

(** [dt] milliseconds pass. *)
Definition tick (dt : nat) (w : World) : World :=
  mkWorld (appState w) (map (fun rt => (fst rt - dt, snd rt)%nat) (timers w)).

Definition removeAt {A : Type} (i : nat) (l : list A) : list A :=
  firstn i l ++ skipn (S i) l.

(** The [i]-th pending timer runs. *)
Definition fire (i : nat) (w : World) : World :=
  match nth_error (timers w) i with
  | Some (_, t) =>
      let (s', effects) := runTimer t (appState w) in
      mkWorld s' (removeAt i (timers w) ++ timeouts effects)
  | None => w
  end.

Inductive Action : Type :=
| Dispatch (e : Event)
| Tick (dt : nat)
| Fire (i : nat).

Definition perform (a : Action) (w : World) : World :=
  match a with
  | Dispatch e => dispatch e w
  | Tick dt => tick dt w
  | Fire i => fire i w
  end.

(** Time cannot pass beyond a pending timer, and a timer runs when its
    delay has elapsed. *)
Definition enabled (allowed : Event -> Prop) (a : Action) (w : World)
    : Prop :=
  match a with
  | Dispatch e => allowed e
  | Tick dt => Forall (fun rt => (dt <= fst rt)%nat) (timers w)
  | Fire i => exists t, nth_error (timers w) i = Some (0%nat, t)
  end.

Inductive reachable (allowed : Event -> Prop) (vp : Viewport.t)
    : World -> Prop :=
| reachable_init : reachable allowed vp (initialWorld vp)
| reachable_step a w :
    reachable allowed vp w -> enabled allowed a w ->
    reachable allowed vp (perform a w).

Definition run (actions : list Action) (w : World) : World :=
  fold_left (fun w a => perform a w) actions w.

(** Worlds driven by calls of [handleZoomProgress] only. *)
Definition zoomOnly (e : Event) : Prop :=
  match e with
  | ZoomProgress _ _ => True
  | _ => False
  end.

Definition outcome (c : AppState) (e : Event)
    : AppState * list (nat * TimerCallback) :=
  let (s1, effects) := handle c e c in
  settle effects s1.

(** The three ways a call of [handleZoomProgress] can end once its frame
    callback has run: the layer is kept, a layer is entered, or an
    animated reverse transition starts from progress 0. *)
Inductive ZoomOutcome (c : AppState) (deltaY : R)
    : AppState -> list (nat * TimerCallback) -> Prop :=
| zoom_plain s2 :
    history s2 = history c -> isZooming s2 = isZooming c ->
    currentLayerIndex s2 = currentLayerIndex c ->
    viewport s2 = viewport c ->
    (zoomProgress s2 = zoomProgress c
     \/ exists layer,
          currentLayer c = Some layer
          /\ zoomProgress s2
             = Rmin (progressBound c layer)
                 (Rmax 0 (zoomProgress c + deltaY * 0.15))) ->
    ZoomOutcome c deltaY s2 []
| zoom_entered n target nodeColor s1 :
    layerIndexOf (Node.children n) = Some target ->
    nodeColorOf c n = Some nodeColor ->
    history s1 = history c -> isZooming s1 = false ->
    viewport s1 = viewport c ->
    ZoomOutcome c deltaY (entered target nodeColor n s1)
      [(50%nat, SilentOff)]
| zoom_reversing prevHistory s1 :
    currentLayerIndex c <> 0%nat ->
    (2 <= List.length (history c))%nat ->
    zoomProgress s1 = 0 -> history s1 = history c ->
    currentLayerIndex s1 = currentLayerIndex c ->
    viewport s1 = viewport c ->
    ZoomOutcome c deltaY (reversing prevHistory s1)
      [(50%nat, ReverseSwap prevHistory); (750%nat, ZoomingOff)].

(** The invariant of the claim, for the state [s]. *)
Definition zoomBounded (s : AppState) : Prop :=
  0 <= zoomProgress s
  /\ (currentLayerIndex s = 0%nat -> zoomProgress s <= 200)
  /\ (currentLayerIndex s <> 0%nat ->
      forall layer,
        currentLayer s = Some layer ->
        zoomProgress s <= maxProgress (viewport s) (Layer.nodes layer)).

(** The pending timers of such a world: a reverse swap waits with the
    progress at 0. *)
Definition timersCalm (s : AppState) (ts : list (nat * TimerCallback))
    : Prop :=
  forall r t,
    In (r, t) ts ->
    t = SilentOff \/ t = ZoomingOff
    \/ exists prevHistory, t = ReverseSwap prevHistory /\ zoomProgress s = 0.

(** The invariant of worlds driven by [handleZoomProgress], on the
    viewport [vp]. *)
Definition Bounded (vp : Viewport.t) (w : World) : Prop :=
  viewport (appState w) = vp
  /\ zoomBounded (appState w)
  /\ timersCalm (appState w) (timers w).

(** Every action of the list is enabled when its turn comes. *)
Fixpoint enabledAlong (allowed : Event -> Prop) (actions : list Action)
    (w : World) : Prop :=
  match actions with
  | [] => True
  | a :: rest =>
      enabled allowed a w /\ enabledAlong allowed rest (perform a w)
  end.

End Engine.

(** ** The transition lock *)

Definition isSwap (t : TimerCallback) : bool :=
  match t with
  | ReverseSwap _ | ClickSwap _ _ _ | HomeSwap _ | NavigateSwap _ _ => true
  | SilentOff | ZoomingOff => false
  end.

Definition isLock (t : TimerCallback) : bool :=
  match t with
  | SilentOff => false
  | _ => true
  end.

(** The pending timers of the animated transitions. *)
Definition locks (ts : list (nat * TimerCallback)) : list (nat * TimerCallback) :=
  filter (fun rt => isLock (snd rt)) ts.

(** What a pending swap needs of the history it will update. *)
Definition swapOk (t : TimerCallback) (h : list HistoryEntry.t) : Prop :=
  match t with
  | ReverseSwap _ => (2 <= List.length h)%nat
  | _ => True
  end.

(** At most one animated transition is in flight: its swap is due strictly
    before the timer that releases [isZooming], and [isZooming] holds until
    then. *)
Inductive lockShape (zooming : bool) (h : list HistoryEntry.t)
    : list (nat * TimerCallback) -> Prop :=
| shape_free : lockShape zooming h []
| shape_closing re :
    zooming = true -> lockShape zooming h [(re, ZoomingOff)]
| shape_swapping rs sw re :
    zooming = true -> isSwap sw = true -> (rs < re)%nat -> swapOk sw h ->
    lockShape zooming h [(rs, sw); (re, ZoomingOff)].

(** The history starts with the root layer. *)
Definition historyOk (h : list HistoryEntry.t) : Prop :=
  match h with
  | e :: _ => HistoryEntry.layerIndex e = 0%nat
  | [] => False
  end.

Definition Inv (w : World) : Prop :=
  historyOk (history (appState w))
  /\ lockShape (isZooming (appState w)) (history (appState w))
       (locks (timers w)).

(** ** The configured application *)

Definition waterCycleZoom (deltaY : R) : Action :=
  Dispatch (ZoomProgress (Some node_1) deltaY).

(** The root layer while the progress [p] accumulates. *)
Definition rootZooming (vp : Viewport.t) (p : R) (zn : option Node.t)
    : AppState :=
  mkAppState 0 0%Z "#0a0e27" [rootEntry DEFAULT_CONFIG "#0a0e27"] 1 0 0 false
    p zn false vp false.

(** "layer-2" just entered through the node "water cycle". *)
Definition enteredLayer2 (vp : Viewport.t) : AppState :=
  mkAppState 1 0%Z "#2563eb"
    [rootEntry DEFAULT_CONFIG "#0a0e27";
     forwardEntry DEFAULT_CONFIG 1 "#2563eb" node_1]
    1 0 0 false 0 None true vp false.

(** "layer-2" while the progress [p] accumulates on the node [zn]. *)
Definition layer2Zooming (vp : Viewport.t) (p : R) (zn : option Node.t)
    : AppState :=
  mkAppState 1 0%Z "#2563eb"
    [rootEntry DEFAULT_CONFIG "#0a0e27";
     forwardEntry DEFAULT_CONFIG 1 "#2563eb" node_1]
    1 0 0 false p zn true vp false.

(** The root layer with the zoom state the reverse transition left. *)
Definition backOnRoot (vp : Viewport.t) : AppState :=
  mkAppState 0 (-1)%Z "#0a0e27" [rootEntry DEFAULT_CONFIG "#0a0e27"] 1 0 0
    false 45 (Some node_2_1) false vp false.


(** Enter "layer-2", scroll on "what is it ?" up to progress 45, then
    right-click "4 layers" (which sees no progress of its own and asks for
    the reverse transition), and let the timers run. *)
Definition rightClickTrace : list Action :=
  [ waterCycleZoom 600;
    Dispatch (ZoomProgress (Some node_2_1) 300);
    Dispatch TriggerReverseTransition;
    Tick 50; Fire 0; Fire 0; Tick 700; Fire 0 ].

Definition rightClickSuffix : list Action :=
  [ Dispatch TriggerReverseTransition;
    Tick 50; Fire 0; Fire 0; Tick 700; Fire 0 ].

(** ** The components *)

(** The props of [Node] that its size, its label and its input handlers
    read.  [onZoomProgress] tells whether a handler is passed. *)
Module NodeProps.
Record t : Type := mk {
  node : Node.t;
  scale : R;
  isZooming : bool;
  isFirstLayer : bool;
  textOpacity : option R;
  zoomProgress : R;
  onZoomProgress : bool;
  viewport : option Viewport.t;
  allNodes : option (list Node.t)
}.
End NodeProps.

(** What an input handler of [Node] forwards: a call of [onZoomProgress],
    a call of [onClick], or the window event ['triggerReverseTransition']. *)
Inductive NodeCall : Type :=
| OnZoomProgress (node : Node.t) (deltaY : R)
| OnClick (node : Node.t)
| TriggerReverse.

(** The inputs of a node.  [Click] and [Tap] start an interval whose every
    tick makes the same call; [LongPress] is the timer of [handleTouchStart]
    running after 500 ms. *)
Inductive NodeInput : Type :=
| Wheel (deltaY : R)
| RightClick
| Click
| Tap
| LongPress.

Module NodeView.
Definition baseSize : R := 165.

Definition responsiveScale (p : NodeProps.t) : R :=
  match NodeProps.viewport p, NodeProps.allNodes p with
  | Some vp, Some ns => calculateResponsiveScale (Some vp) (Some ns) baseSize
  | _, _ => 1
  end.

Definition nodeScale (p : NodeProps.t) : R :=
  if truthy (Node.children (NodeProps.node p))
     && Rltb 0 (NodeProps.zoomProgress p)
     && NodeProps.isFirstLayer p
  then 1 + (NodeProps.zoomProgress p / 100) * 9
  else 1.

Definition size (p : NodeProps.t) : R :=
  if NodeProps.isFirstLayer p
  then baseSize * NodeProps.scale p * nodeScale p * responsiveScale p
  else baseSize * responsiveScale p.

Definition fontSize (p : NodeProps.t) : R :=
  if NodeProps.isFirstLayer p
  then 18 * NodeProps.scale p * nodeScale p * responsiveScale p
  else Rmax 12 (Rmin 18 (18 * responsiveScale p)).

(** The opacity of the label. *)
Definition labelOpacity (p : NodeProps.t) : R :=
  let zoomProgress := NodeProps.zoomProgress p in
  let textOpacity :=
    match NodeProps.textOpacity p with
    | Some o => o
    | None => 1
    end in
  if truthy (Node.children (NodeProps.node p)) && Rltb 0 zoomProgress
  then
    (if NodeProps.isFirstLayer p
     then Rmax 0 (1 - zoomProgress / 120)
     else if Rleb 60 zoomProgress
          then Rmax 0 (1 - (zoomProgress - 60) / 30)
          else 1)
    * textOpacity
  else textOpacity.

Definition handleNodeWheel (p : NodeProps.t) (deltaY : R) : option NodeCall :=
  let node := NodeProps.node p in
  if NodeProps.isZooming p then None
  else if Rltb 0 deltaY && truthy (Node.children node)
  then
    if NodeProps.onZoomProgress p
    then Some (OnZoomProgress node deltaY)
    else Some (OnClick node)
  else if Rltb deltaY 0 && negb (NodeProps.isFirstLayer p)
          && NodeProps.onZoomProgress p
  then Some (OnZoomProgress node deltaY)
  else None.

Definition handleNodeRightClick (p : NodeProps.t) : option NodeCall :=
  if NodeProps.isZooming p then None
  else if NodeProps.isFirstLayer p then None
  else if Rltb 0 (NodeProps.zoomProgress p) && NodeProps.onZoomProgress p
  then Some (OnZoomProgress (NodeProps.node p) (-5))
  else Some TriggerReverse.

(** The callback of the long-press timer of [handleTouchStart]. *)
Definition longPress (p : NodeProps.t) : option NodeCall :=
  if negb (NodeProps.isZooming p) && negb (NodeProps.isFirstLayer p)
  then
    if Rltb 0 (NodeProps.zoomProgress p) && NodeProps.onZoomProgress p
    then Some (OnZoomProgress (NodeProps.node p) (-5))
    else Some TriggerReverse
  else None.

(** [onClick] of the node, and the quick tap of [handleTouchEnd]: the call
    that the interval they start repeats. *)
Definition clickZoom (p : NodeProps.t) : option NodeCall :=
  if truthy (Node.children (NodeProps.node p))
     && negb (NodeProps.isZooming p)
     && NodeProps.onZoomProgress p
     && Reqb (NodeProps.zoomProgress p) 0
  then Some (OnZoomProgress (NodeProps.node p) 5)
  else None.

Definition forwards (p : NodeProps.t) (input : NodeInput) : option NodeCall :=
  match input with
  | Wheel deltaY => handleNodeWheel p deltaY
  | RightClick => handleNodeRightClick p
  | Click | Tap => clickZoom p
  | LongPress => longPress p
  end.
End NodeView.

(** [zoomingNode?.id === node.id] *)
Definition isZoomingNode (zoomingNode : option Node.t) (node : Node.t) : bool :=
  match zoomingNode with
  | Some zn => String.eqb (Node.id zn) (Node.id node)
  | None => false
  end.

(** The props that [App] and [Layer] pass to the node [node] of the current
    layer [layer].  (The state cell [textOpacity] of [App] is never set: it
    is 1.) *)
Definition nodeProps (c : AppState) (layer : Layer.t) (node : Node.t)
    : NodeProps.t :=
  let isFirstLayer := (currentLayerIndex c =? 0)%nat in
  NodeProps.mk node (scale c) (isZooming c) isFirstLayer
    (if isFirstLayer then Some 1 else None)
    (if isZoomingNode (zoomingNode c) node then zoomProgress c else 0)
    true (Some (viewport c)) (Some (Layer.nodes layer)).

(** The handler of [App] behind a call of a node: [onZoomProgress] is
    [handleZoomProgress], [onClick] is [handleNodeClick], and the window
    event reaches [handleReverseTransition]. *)
Definition eventOf (call : NodeCall) : Event :=
  match call with
  | OnZoomProgress node deltaY => ZoomProgress (Some node) deltaY
  | OnClick node => NodeClick node
  | TriggerReverse => TriggerReverseTransition
  end.

(** [history[history.length - 1]] *)
Definition currentHistoryItem (c : AppState) : option HistoryEntry.t :=
  nth_error (history c) (List.length (history c) - 1).

(** [===] on two identifiers that optional chaining may leave undefined. *)
Definition sameId (a b : option string) : bool :=
  match a, b with
  | Some x, Some y => String.eqb x y
  | None, None => true
  | _, _ => false
  end.

Definition isRewindMode (c : AppState) : bool :=
  sameId
    (match currentHistoryItem c with
     | Some item => option_map Node.id (HistoryEntry.clickedNode item)
     | None => None
     end)
    (option_map Node.id (zoomingNode c))
  && Rltb 0 (zoomProgress c).

(** The factor of the [scale(...)] transform of the canvas. *)
Definition canvasScale (c : AppState) : R :=
  if (currentLayerIndex c =? 0)%nat then scale c
  else if isRewindMode c then 1 / (1 + (zoomProgress c / 100) * 8)
  else
    match zoomingNode c with
    | Some _ =>
        if Rltb 0 (zoomProgress c)
        then 1 + (zoomProgress c / 100) * 8
        else 1
    | None => 1
    end.

(** Opacity and counter-scale of the preview of the next layer that is
    revealed inside a node of a layer below the root. *)
Definition previewOpacity (zoomProgress : R) : R :=
  Rmax 0 (Rmin 1 ((zoomProgress - 60) / 30)).

Definition previewScale (zoomProgress : R) : R :=
  1 / (1 + (zoomProgress / 100) * 8).

(** [Array.prototype.map] with the index, from [index] on. *)
Fixpoint mapWithIndex {A B : Type} (f : A -> nat -> B) (l : list A)
    (index : nat) : list B :=
  match l with
  | [] => []
  | item :: rest => f item index :: mapWithIndex f rest (S index)
  end.

(** The bubbles of [NavigationBubbles]: the index each one passes to
    [onNavigate], and the history entry whose colour it shows. *)
Definition NavigationBubbles (history : list HistoryEntry.t)
    : list (nat * HistoryEntry.t) :=
  let navigableHistory := skipn 1 history in
  mapWithIndex
    (fun item index => let actualIndex := (index + 1)%nat in (actualIndex, item))
    navigableHistory 0.

(** ** Consistency of the history with the layer and the pending swaps *)

(** A pending swap took its entry from the history it will update. *)
Definition swapTied (t : TimerCallback) (h : list HistoryEntry.t) : Prop :=
  match t with
  | ReverseSwap prevHistory =>
      (2 <= List.length h)%nat
      /\ nth_error h (List.length h - 2) = Some prevHistory
  | NavigateSwap target index => nth_error h index = Some target
  | _ => True
  end.

(** A pending click swap leads to a layer of the configuration. *)
Definition swapValid (layerCount : nat) (t : TimerCallback) : Prop :=
  match t with
  | ClickSwap targetLayerIndex _ _ => (targetLayerIndex < layerCount)%nat
  | _ => True
  end.




(** The ways the dispatch of an event can end, frame callbacks included:
    nothing starts, a layer is entered silently, an animated transition
    starts, or [handleNavigate] stops at an index outside the history. *)
Inductive Settled (config : Config.t) (c : AppState) (e : Event)
    : AppState -> list (nat * TimerCallback) -> Prop :=
| settled_plain s :
    history s = history c ->
    currentLayerIndex s = currentLayerIndex c ->
    isZooming s = isZooming c ->
    silentTransition s = silentTransition c ->
    Settled config c e s []
| settled_entered n target nodeColor s1 :
    isZooming c = false ->
    layerIndexOf config (Node.children n) = Some target ->
    history s1 = history c -> isZooming s1 = false ->
    Settled config c e (entered config target nodeColor n s1)
      [(50%nat, SilentOff)]
| settled_started sw s :
    isZooming c = false ->
    isSwap sw = true ->
    swapTied sw (history c) ->
    swapValid (List.length (Config.layers config)) sw ->
    history s = history c ->
    currentLayerIndex s = currentLayerIndex c ->
    isZooming s = true ->
    silentTransition s = silentTransition c ->
    Settled config c e s [(50%nat, sw); (750%nat, ZoomingOff)]
| settled_stuck index s :
    e = Navigate index ->
    isZooming c = false ->
    (List.length (history c) <= index)%nat ->
    history s = history c ->
    currentLayerIndex s = currentLayerIndex c ->
    isZooming s = true ->
    silentTransition s = silentTransition c ->
    Settled config c e s [].

(** An animated transition from start to end: the event, the swap after
    50 ms, the release of [isZooming] after 750 ms. *)
Definition animated (e : Event) : list Action :=
  [Dispatch e; Tick 50; Fire 0; Tick 700; Fire 0].

(** Zoom into the node [node] until its layer is entered, then scroll back
    on the canvas and let the reverse transition run. *)
Definition thereAndBack (node : Node.t) (deltaIn deltaOut : R) : list Action :=
  [ Dispatch (ZoomProgress (Some node) deltaIn);
    Dispatch (CanvasWheel deltaOut);
    Tick 50; Fire 0; Fire 0; Tick 700; Fire 0 ].

(** ** The zoom that a click starts *)

(** A click (or a tap) on a node with children starts an interval that
    calls [onZoomProgress(node, 5)] every 16 ms, for 2000 ms on the root
    layer and 2500 ms below; the silent transition clears it. *)
Definition clickZoomPeriod : nat := 16.

Definition clickZoomDuration (isFirstLayer : bool) : nat :=
  if isFirstLayer then 2000 else 2500.

(** One tick of the interval started in the render [c]: the call of the
    [handleZoomProgress] of that render, and the frame callback it
    requests, on the live state [s]. *)
Definition clickZoomTick (config : Config.t) (c : AppState) (node : Node.t)
    (s : AppState) : AppState * list (nat * TimerCallback) :=
  let (s1, effects) := handleZoomProgress config c (Some node) 5 s in
  settle config effects s1.

Fixpoint clickZoomTicks (config : Config.t) (c : AppState) (node : Node.t)
    (n : nat) (s : AppState) : AppState :=
  match n with
  | O => s
  | S k => clickZoomTicks config c node k (fst (clickZoomTick config c node s))
  end.

(** The number of ticks of 0.75 that add up to the threshold. *)
Definition ticksToThreshold (c : AppState) : nat :=
  if (currentLayerIndex c =? 0)%nat then 112 else 120.

(** The state [c] with the progress [p] on the node [zn]. *)
Definition zoomingOn (c : AppState) (zn : option Node.t) (p : R) : AppState :=
  mkAppState (currentLayerIndex c) (direction c) (backgroundColor c)
    (history c) (scale c) (panX c) (panY c) (isZooming c) p zn
    (silentTransition c) (viewport c) (clickZoomIntervalRef c).

(** * Properties *)

(** ** Comparisons *)

Lemma Rltb_true a b : Rltb a b = true <-> a < b.
Proof. unfold Rltb; destruct (Rlt_dec a b); split; (congruence || tauto). Qed.

Lemma Rltb_false a b : Rltb a b = false <-> b <= a.
Proof.
  unfold Rltb; destruct (Rlt_dec a b); split; intros; try congruence; lra.
Qed.

Lemma Rleb_true a b : Rleb a b = true <-> a <= b.
Proof. unfold Rleb; destruct (Rle_dec a b); split; (congruence || tauto). Qed.

Lemma Rleb_false a b : Rleb a b = false <-> b < a.
Proof.
  unfold Rleb; destruct (Rle_dec a b); split; intros; try congruence; lra.
Qed.

Lemma Reqb_true a b : Reqb a b = true <-> a = b.
Proof. unfold Reqb; destruct (Req_dec_T a b); split; (congruence || tauto). Qed.

Lemma Reqb_false a b : Reqb a b = false <-> a <> b.
Proof. unfold Reqb; destruct (Req_dec_T a b); split; (congruence || tauto). Qed.

(** ** Tactics *)

Ltac decide_Rltb :=
  repeat match goal with
    | |- context [Rltb ?a ?b] =>
        first [ rewrite (proj2 (Rltb_true a b)) by lra
              | rewrite (proj2 (Rltb_false a b)) by lra ]
    end.

Ltac decide_Rmin :=
  repeat match goal with
    | |- context [Rmin ?a ?b] =>
        first [ rewrite (Rmin_left a b) by lra
              | rewrite (Rmin_right a b) by lra ]
    end.


Ltac hsimpl :=
  cbn [andThen update skip setTimeout requestAnimationFrame
       setCurrentLayerIndex setDirection setBackgroundColor setHistory
       setScale setPanX setPanY setIsZooming setZoomProgress setZoomingNode
       setSilentTransition setViewport clearClickZoomInterval
       setZoomProgressWith
       currentLayerIndex direction backgroundColor history scale panX panY
       isZooming zoomProgress zoomingNode silentTransition viewport
       clickZoomIntervalRef appState timers fst snd List.app
       timeouts locks filter isLock isSwap negb andb orb] in *.

(** ** Properties of the layout engine *)

Lemma clamp_bounds (m : R) : 0.3 <= Rmax 0.3 (Rmin 1 m) <= 1.
Proof.
  unfold Rmax, Rmin.
  destruct (Rle_dec 1 m); destruct (Rle_dec 0.3 _); lra.
Qed.

(** C6. For every viewport, node list and base size the computed scale lies
    in the closed interval [0.3, 1.0]; it is exactly 1 when the node list
    has at most one element and when the viewport or the node list is
    missing. *)
Theorem calculateResponsiveScale_bounds :
  (forall viewport allNodes baseSize,
      0.3 <= calculateResponsiveScale viewport allNodes baseSize <= 1)
  /\ (forall viewport ns baseSize,
         (List.length ns <= 1)%nat ->
         calculateResponsiveScale viewport (Some ns) baseSize = 1)
  /\ (forall allNodes baseSize,
         calculateResponsiveScale None allNodes baseSize = 1)
  /\ (forall viewport baseSize,
         calculateResponsiveScale viewport None baseSize = 1).
Proof.
  split; [|split; [|split]].
  - intros viewport allNodes baseSize. unfold calculateResponsiveScale.
    destruct viewport as [vp|]; [destruct allNodes as [ns|] |]; try lra.
    destruct (List.length ns <=? 1)%nat; [lra | apply clamp_bounds].
  - intros viewport ns baseSize Hlen. unfold calculateResponsiveScale.
    destruct viewport as [vp|]; [|reflexivity].
    apply Nat.leb_le in Hlen. rewrite Hlen. reflexivity.
  - reflexivity.
  - intros viewport baseSize. destruct viewport; reflexivity.
Qed.

(** *** The scale only decreases along the two loops *)

Lemma distance_nonneg width height node1 node2 :
  0 <= distance width height node1 node2.
Proof. unfold distance. apply sqrt_pos. Qed.

Lemma overlapStep_le width height baseSize node1 minScale node2 :
  overlapStep width height baseSize node1 minScale node2 <= minScale.
Proof.
  unfold overlapStep.
  destruct (_ && _); [apply Rmin_l | lra].
Qed.



Lemma guarded_min_le (c : bool) (m r : R) :
  (if c then Rmin m r else m) <= m.
Proof. destruct c; [apply Rmin_l | lra]. Qed.

Lemma boundaryStep_le width height baseSize minScale node :
  boundaryStep width height baseSize minScale node <= minScale.
Proof.
  unfold boundaryStep.
  repeat (eapply Rle_trans; [apply guarded_min_le|]). lra.
Qed.

Lemma fold_boundaryStep_le width height baseSize allNodes :
  forall minScale,
    fold_left (boundaryStep width height baseSize) allNodes minScale
    <= minScale.
Proof.
  induction allNodes as [|node rest IH]; intros minScale; simpl; [lra|].
  eapply Rle_trans; [apply IH | apply boundaryStep_le].
Qed.

Lemma unclampedScale_le_overlap width height allNodes baseSize :
  unclampedScale width height allNodes baseSize
  <= overlapLoop width height baseSize allNodes 1.
Proof. apply fold_boundaryStep_le. Qed.

(** *** Every pair is seen by STEP 1 *)

Lemma overlapStep_pair width height baseSize node1 minScale node2 :
  tooClose width height baseSize node1 node2 ->
  overlapStep width height baseSize node1 minScale node2
  <= distance width height node1 node2 / (baseSize * 1.2).
Proof.
  intros [Hpos Hlt]. unfold overlapStep.
  rewrite (proj2 (Rltb_true _ _) Hlt), (proj2 (Rltb_true _ _) Hpos).
  simpl. apply Rmin_r.
Qed.




(** *** Concrete evaluations *)

(** Two nodes on the same horizontal line: the distance is the difference of
    the abscissas. *)
Lemma distance_horizontal width height node1 node2 :
  Node.y node1 = Node.y node2 ->
  0 <= (Node.x node2 / 100) * width - (Node.x node1 / 100) * width ->
  distance width height node1 node2
  = (Node.x node2 / 100) * width - (Node.x node1 / 100) * width.
Proof.
  intros Hy Hx. unfold distance. rewrite Hy.
  replace (_ * _ + _ * _)
    with ((Node.x node2 / 100 * width - Node.x node1 / 100 * width)
          * (Node.x node2 / 100 * width - Node.x node1 / 100 * width))
    by ring.
  now apply sqrt_square.
Qed.

Lemma distance_layer_2 width height :
  0 <= width ->
  distance width height node_2_1 node_2_2 = 14 / 100 * width.
Proof.
  intros Hw. rewrite distance_horizontal; simpl; lra.
Qed.

Lemma unclampedScale_layer_2_600x100 :
  unclampedScale 600 100 (Layer.nodes layer_2) 165 = 14 / 33.
Proof.
  unfold unclampedScale. simpl.
  unfold overlapStep. rewrite distance_layer_2 by lra.
  decide_Rltb. simpl. decide_Rmin.
  unfold boundaryStep. simpl. decide_Rltb. lra.
Qed.

Lemma overlapLoop_layer_2 width height :
  0 < width -> 14 / 100 * width < 165 * 1.2 ->
  overlapLoop width height 165 (Layer.nodes layer_2) 1
  = 14 / 100 * width / (165 * 1.2).
Proof.
  intros Hw Hlt. simpl. unfold overlapStep.
  rewrite distance_layer_2 by lra. decide_Rltb. simpl.
  apply Rmin_right.
  apply (Rmult_le_reg_r (165 * 1.2)); [lra|].
  unfold Rdiv at 1. rewrite Rmult_assoc, Rinv_l by lra. lra.
Qed.

Lemma unclampedScale_layer_2_1000x100 :
  unclampedScale 1000 100 (Layer.nodes layer_2) 165 < 0.3.
Proof.
  unfold unclampedScale. rewrite overlapLoop_layer_2 by lra.
  simpl. eapply Rle_lt_trans; [apply boundaryStep_le|].
  unfold boundaryStep. simpl. decide_Rltb. decide_Rmin. lra.
Qed.


Lemma unclampedScale_layer_2_1000x1000 :
  unclampedScale 1000 1000 (Layer.nodes layer_2) 165 = 70 / 99.
Proof.
  unfold unclampedScale. rewrite overlapLoop_layer_2 by lra.
  simpl. unfold boundaryStep. simpl. decide_Rltb. lra.
Qed.

Lemma clamp_low (m : R) : m <= 0.3 -> Rmax 0.3 (Rmin 1 m) = 0.3.
Proof.
  intros H. apply Rmax_left. eapply Rle_trans; [apply Rmin_r | exact H].
Qed.

Lemma clamp_mid (m : R) : 0.3 <= m <= 1 -> Rmax 0.3 (Rmin 1 m) = m.
Proof.
  intros H. rewrite Rmin_right by lra. apply Rmax_right; lra.
Qed.

Lemma clamp_mono (m1 m2 : R) :
  m1 <= m2 -> Rmax 0.3 (Rmin 1 m1) <= Rmax 0.3 (Rmin 1 m2).
Proof.
  intros H. apply Rle_max_compat_l. apply Rle_min_compat_l. exact H.
Qed.



(** *** Growing the viewport *)

Lemma sq_scale_mono (k u v : R) :
  0 <= u <= v -> (k * u) * (k * u) <= (k * v) * (k * v).
Proof.
  intros [Hu Huv].
  replace (k * u * (k * u)) with ((k * k) * (u * u)) by ring.
  replace (k * v * (k * v)) with ((k * k) * (v * v)) by ring.
  apply Rmult_le_compat_l.
  - pose proof (Rle_0_sqr k) as H. unfold Rsqr in H. exact H.
  - apply Rmult_le_compat; lra.
Qed.

Lemma sum_sq_zero (p q : R) : p * p + q * q = 0 -> p = 0 /\ q = 0.
Proof.
  intros H.
  pose proof (Rle_0_sqr p) as Hp. pose proof (Rle_0_sqr q) as Hq.
  unfold Rsqr in *.
  split; apply Rsqr_0_uniq; unfold Rsqr; lra.
Qed.

Section ViewportGrowth.
Variables (w1 h1 w2 h2 baseSize : R).
Hypothesis Hw : 0 <= w1 <= w2.
Hypothesis Hh : 0 <= h1 <= h2.

Lemma distance_mono node1 node2 :
  distance w1 h1 node1 node2 <= distance w2 h2 node1 node2.
Proof.
  unfold distance. apply sqrt_le_1_alt.
  set (a := Node.x node2 / 100). set (b := Node.x node1 / 100).
  set (c := Node.y node2 / 100). set (e := Node.y node1 / 100).
  clearbody a b c e.
  replace (a * w1 - b * w1) with ((a - b) * w1) by ring.
  replace (a * w2 - b * w2) with ((a - b) * w2) by ring.
  replace (c * h1 - e * h1) with ((c - e) * h1) by ring.
  replace (c * h2 - e * h2) with ((c - e) * h2) by ring.
  apply Rplus_le_compat; apply sq_scale_mono; assumption.
Qed.

(** With positive dimensions two nodes coincide in one viewport exactly
    when they coincide in the other. *)
Lemma distance_pos_mono node1 node2 :
  0 < w1 -> 0 < h1 ->
  0 < distance w2 h2 node1 node2 -> 0 < distance w1 h1 node1 node2.
Proof.
  intros Hw1 Hh1 Hd2.
  destruct (Rle_lt_dec (distance w1 h1 node1 node2) 0) as [Hz|]; [|assumption].
  exfalso.
  assert (Hd1 : distance w1 h1 node1 node2 = 0)
    by (pose proof (distance_nonneg w1 h1 node1 node2); lra).
  unfold distance in Hd1, Hd2.
  set (a := Node.x node2 / 100) in *. set (b := Node.x node1 / 100) in *.
  set (c := Node.y node2 / 100) in *. set (e := Node.y node1 / 100) in *.
  clearbody a b c e.
  apply sqrt_eq_0 in Hd1.
  2:{ pose proof (Rle_0_sqr (a * w1 - b * w1)) as H1.
      pose proof (Rle_0_sqr (c * h1 - e * h1)) as H2.
      unfold Rsqr in *. lra. }
  apply sum_sq_zero in Hd1. destruct Hd1 as [Ha Hc].
  replace (a * w1 - b * w1) with ((a - b) * w1) in Ha by ring.
  replace (c * h1 - e * h1) with ((c - e) * h1) in Hc by ring.
  assert (Hab : a - b = 0) by (apply Rmult_integral in Ha; lra).
  assert (Hce : c - e = 0) by (apply Rmult_integral in Hc; lra).
  replace ((a * w2 - b * w2) * (a * w2 - b * w2)
           + (c * h2 - e * h2) * (c * h2 - e * h2))
    with (((a - b) * w2) * ((a - b) * w2) + ((c - e) * h2) * ((c - e) * h2))
    in Hd2 by ring.
  rewrite Hab, Hce in Hd2.
  replace (0 * w2 * (0 * w2) + 0 * h2 * (0 * h2)) with 0 in Hd2 by ring.
  rewrite sqrt_0 in Hd2. lra.
Qed.

Lemma overlapStep_mono node1 node2 m1 m2 :
  0 < w1 -> 0 < h1 -> m1 <= m2 ->
  overlapStep w1 h1 baseSize node1 m1 node2
  <= overlapStep w2 h2 baseSize node1 m2 node2.
Proof.
  intros Hw1 Hh1 Hm.
  pose proof (overlapStep_le w1 h1 baseSize node1 m1 node2) as Hle1.
  unfold overlapStep at 2.
  destruct (Rltb (distance w2 h2 node1 node2) (baseSize * 1.2)) eqn:Hlt2;
    [|simpl; lra].
  destruct (Rltb 0 (distance w2 h2 node1 node2)) eqn:Hpos2; [|simpl; lra].
  simpl. apply Rltb_true in Hlt2, Hpos2.
  apply Rmin_glb; [lra|].
  pose proof (distance_mono node1 node2) as Hd.
  pose proof (distance_pos_mono node1 node2 Hw1 Hh1 Hpos2) as Hpos1.
  eapply Rle_trans.
  - apply overlapStep_pair. split; [assumption | lra].
  - apply Rmult_le_compat_r; [|assumption].
    apply Rlt_le, Rinv_0_lt_compat. lra.
Qed.

Lemma fold_overlapStep_mono node1 rest :
  0 < w1 -> 0 < h1 ->
  forall m1 m2, m1 <= m2 ->
    fold_left (overlapStep w1 h1 baseSize node1) rest m1
    <= fold_left (overlapStep w2 h2 baseSize node1) rest m2.
Proof.
  intros Hw1 Hh1. induction rest as [|n rest IH]; intros m1 m2 Hm; simpl.
  - assumption.
  - apply IH. now apply overlapStep_mono.
Qed.

Lemma overlapLoop_mono allNodes :
  0 < w1 -> 0 < h1 ->
  forall m1 m2, m1 <= m2 ->
    overlapLoop w1 h1 baseSize allNodes m1
    <= overlapLoop w2 h2 baseSize allNodes m2.
Proof.
  intros Hw1 Hh1. induction allNodes as [|n rest IH]; intros m1 m2 Hm; simpl.
  - assumption.
  - apply IH. now apply fold_overlapStep_mono.
Qed.
End ViewportGrowth.

Lemma boundaryStep_unclipped width height baseSize minScale node :
  clipped width height baseSize minScale node = false ->
  boundaryStep width height baseSize minScale node = minScale.
Proof.
  unfold clipped, boundaryStep. intros H.
  repeat (apply orb_false_iff in H; destruct H as [H ?]).
  repeat match goal with Hc : Rltb _ _ = false |- _ => rewrite Hc; clear Hc end.
  reflexivity.
Qed.

Lemma fold_boundaryStep_unclipped width height baseSize minScale allNodes :
  (forall node, In node allNodes ->
                clipped width height baseSize minScale node = false) ->
  fold_left (boundaryStep width height baseSize) allNodes minScale = minScale.
Proof.
  induction allNodes as [|n rest IH]; intros H; simpl; [reflexivity|].
  rewrite boundaryStep_unclipped by (apply H; now left).
  apply IH. intros node Hin. apply H. now right.
Qed.

(** STEP 1 keeps the scale positive, and leaves it alone when the base size
    is not positive. *)
Lemma overlapStep_pos width height baseSize node1 minScale node2 :
  0 < minScale -> 0 < overlapStep width height baseSize node1 minScale node2.
Proof.
  intros Hm. unfold overlapStep.
  destruct (Rltb _ (baseSize * 1.2)) eqn:Hlt; [|simpl; assumption].
  destruct (Rltb 0 _) eqn:Hpos; [|simpl; assumption].
  simpl. apply Rltb_true in Hlt, Hpos.
  apply Rmin_glb_lt; [assumption|].
  apply Rdiv_lt_0_compat; lra.
Qed.

Lemma overlapLoop_pos width height baseSize allNodes :
  forall minScale, 0 < minScale ->
    0 < overlapLoop width height baseSize allNodes minScale.
Proof.
  induction allNodes as [|n rest IH]; intros minScale Hm; simpl; [assumption|].
  apply IH. clear IH. revert minScale Hm.
  induction rest as [|n2 rest IH2]; intros minScale Hm; simpl; [assumption|].
  apply IH2. now apply overlapStep_pos.
Qed.

Lemma overlapStep_no_base width height baseSize node1 minScale node2 :
  baseSize <= 0 ->
  overlapStep width height baseSize node1 minScale node2 = minScale.
Proof.
  intros Hb. unfold overlapStep.
  pose proof (distance_nonneg width height node1 node2).
  rewrite (proj2 (Rltb_false _ _)) by lra. reflexivity.
Qed.

Lemma overlapLoop_no_base width height baseSize allNodes :
  baseSize <= 0 ->
  forall minScale, overlapLoop width height baseSize allNodes minScale = minScale.
Proof.
  intros Hb. induction allNodes as [|n rest IH]; intros minScale; simpl;
    [reflexivity|].
  rewrite IH. clear IH. revert minScale.
  induction rest as [|n2 rest IH2]; intros minScale; simpl; [reflexivity|].
  rewrite IH2. now apply overlapStep_no_base.
Qed.

(** In a viewport of width or height 0 every node is clipped down to a
    non-positive scale. *)
Lemma boundaryStep_flat width height baseSize minScale node :
  width = 0 \/ height = 0 -> 0 < baseSize -> 0 < minScale ->
  boundaryStep width height baseSize minScale node <= 0.
Proof.
  intros Hflat Hb Hm. unfold boundaryStep.
  assert (Hr : 0 < baseSize * minScale / 2).
  { apply Rdiv_lt_0_compat; [|lra]. now apply Rmult_lt_0_compat. }
  destruct Hflat as [-> | ->].
  - rewrite Rmult_0_r. rewrite (proj2 (Rltb_true 0 _) Hr).
    repeat (eapply Rle_trans; [apply guarded_min_le|]).
    eapply Rle_trans; [apply Rmin_r|].
    unfold Rdiv. rewrite !Rmult_0_l. lra.
  - rewrite !Rmult_0_r. rewrite (proj2 (Rltb_true 0 _) Hr).
    eapply Rle_trans; [apply guarded_min_le|].
    eapply Rle_trans; [apply Rmin_r|].
    unfold Rdiv at 1. rewrite !Rmult_0_l. lra.
Qed.

Lemma unclampedScale_flat width height baseSize node rest :
  width = 0 \/ height = 0 -> 0 < baseSize ->
  unclampedScale width height (node :: rest) baseSize <= 0.
Proof.
  intros Hflat Hb. unfold unclampedScale.
  cbn [fold_left].
  eapply Rle_trans; [apply fold_boundaryStep_le|].
  apply boundaryStep_flat; try assumption.
  apply overlapLoop_pos. lra.
Qed.

(** C7 (counterexample). Widening the viewport from 600 x 100 to 1000 x 100
    lowers the scale of the nodes of "layer-2" from 14/33 to 0.3: the nodes
    may grow with the width until STEP 2 finds them clipped at the top and
    at the bottom. *)
Lemma scale_not_monotone :
  let small := Viewport.mk 600 100 in
  let large := Viewport.mk 1000 100 in
  Viewport.width small <= Viewport.width large
  /\ Viewport.height small <= Viewport.height large
  /\ calculateResponsiveScale (Some small) (Some (Layer.nodes layer_2)) 165
     = 14 / 33
  /\ calculateResponsiveScale (Some large) (Some (Layer.nodes layer_2)) 165
     = 0.3
  /\ calculateResponsiveScale (Some large) (Some (Layer.nodes layer_2)) 165
     < calculateResponsiveScale (Some small) (Some (Layer.nodes layer_2)) 165.
Proof.
  assert (Hs : calculateResponsiveScale (Some (Viewport.mk 600 100))
                 (Some (Layer.nodes layer_2)) 165 = 14 / 33).
  { unfold calculateResponsiveScale. simpl List.length. simpl Nat.leb.
    cbv iota. cbn [Viewport.width Viewport.height].
    rewrite unclampedScale_layer_2_600x100. apply clamp_mid. lra. }
  assert (Hl : calculateResponsiveScale (Some (Viewport.mk 1000 100))
                 (Some (Layer.nodes layer_2)) 165 = 0.3).
  { unfold calculateResponsiveScale. simpl List.length. simpl Nat.leb.
    cbv iota. cbn [Viewport.width Viewport.height].
    apply clamp_low. pose proof unclampedScale_layer_2_1000x100. lra. }
  cbv zeta. rewrite Hs, Hl. cbn [Viewport.width Viewport.height].
  repeat split; lra.
Qed.

(** C7 (amended). For viewports of non-negative width and height, enlarging
    the viewport does not decrease the scale provided that, in the larger
    viewport, no node is clipped by a viewport edge at the scale STEP 1
    computed (STEP 2 leaves the scale unchanged there). *)
Theorem scale_monotone_unless_clipped :
  forall allNodes baseSize small large,
    0 <= Viewport.width small <= Viewport.width large ->
    0 <= Viewport.height small <= Viewport.height large ->
    (forall node,
        In node allNodes ->
        clipped (Viewport.width large) (Viewport.height large) baseSize
          (overlapLoop (Viewport.width large) (Viewport.height large)
             baseSize allNodes 1)
          node = false) ->
    calculateResponsiveScale (Some small) (Some allNodes) baseSize
    <= calculateResponsiveScale (Some large) (Some allNodes) baseSize.
Proof.
  intros allNodes baseSize [w1 h1] [w2 h2]. simpl. intros Hw Hh Hclip.
  destruct (List.length allNodes <=? 1)%nat eqn:Hlen; [lra|].
  unfold unclampedScale at 2.
  rewrite fold_boundaryStep_unclipped by assumption.
  destruct (Rle_lt_dec w1 0) as [Hw0 | Hw1];
    [| destruct (Rle_lt_dec h1 0) as [Hh0 | Hh1]].
  3:{ apply clamp_mono.
      eapply Rle_trans; [apply unclampedScale_le_overlap|].
      apply overlapLoop_mono; (lra || assumption). }
  all: destruct (Rle_lt_dec baseSize 0) as [Hb | Hb].
  all: try (apply clamp_mono;
            eapply Rle_trans; [apply unclampedScale_le_overlap|];
            rewrite !overlapLoop_no_base by assumption; lra).
  all: destruct allNodes as [|node rest]; [discriminate|].
  all: rewrite clamp_low;
    [ apply clamp_bounds
    | eapply Rle_trans; [apply unclampedScale_flat; [|assumption]|]; lra ].
Qed.

(** C7 (witness). From 375 x 667 to 1000 x 1000 no node of "layer-2" is
    clipped in the larger viewport. *)
Lemma scale_monotone_unless_clipped_witness :
  calculateResponsiveScale (Some (Viewport.mk 375 667))
    (Some (Layer.nodes layer_2)) 165
  <= calculateResponsiveScale (Some (Viewport.mk 1000 1000))
       (Some (Layer.nodes layer_2)) 165.
Proof.
  apply (scale_monotone_unless_clipped (Layer.nodes layer_2) 165
           (Viewport.mk 375 667) (Viewport.mk 1000 1000)).
  - simpl; lra.
  - simpl; lra.
  - cbn [Viewport.width Viewport.height].
    rewrite overlapLoop_layer_2 by lra.
    intros node [<- | [<- | []]]; unfold clipped; simpl; decide_Rltb;
      reflexivity.
Defined.

(** ** Shape of the pending timers *)

Lemma lockShape_unlocked h ts : lockShape false h ts -> ts = [].
Proof. intros H; inversion H; congruence. Qed.

Lemma locks_app ts1 ts2 : locks (ts1 ++ ts2) = locks ts1 ++ locks ts2.
Proof. apply filter_app. Qed.

Lemma locks_tick dt ts :
  locks (map (fun rt => (fst rt - dt, snd rt)%nat) ts)
  = map (fun rt => (fst rt - dt, snd rt)%nat) (locks ts).
Proof.
  unfold locks. induction ts as [|[r t] ts IH]; simpl; [reflexivity|].
  destruct (isLock t); simpl; now rewrite IH.
Qed.

Lemma locks_due dt ts :
  Forall (fun rt => (dt <= fst rt)%nat) ts ->
  Forall (fun rt => (dt <= fst rt)%nat) (locks ts).
Proof.
  intros H. apply Forall_forall. intros rt Hin.
  apply filter_In in Hin. destruct Hin as [Hin _].
  revert rt Hin. now apply Forall_forall.
Qed.

Lemma nth_error_removeAt {A : Type} (l : list A) i a :
  nth_error l i = Some a ->
  l = firstn i l ++ a :: skipn (S i) l /\ removeAt i l = firstn i l ++ skipn (S i) l.
Proof.
  intros H. split; [|reflexivity].
  revert i H. induction l as [|b l IH]; intros [|i] H; simpl in *;
    try discriminate.
  - now injection H as ->.
  - f_equal. now apply IH.
Qed.

Lemma historyOk_app h extra : historyOk h -> historyOk (h ++ extra).
Proof. destruct h; simpl; tauto. Qed.

Lemma historyOk_firstn h n : historyOk h -> historyOk (firstn (n + 1) h).
Proof. rewrite Nat.add_1_r. destruct h; simpl; tauto. Qed.

Lemma historyOk_removelast h :
  (2 <= List.length h)%nat -> historyOk h -> historyOk (removelast h).
Proof.
  destruct h as [|a [|b h]]; simpl; intros Hl Hok; (lia || assumption).
Qed.

(** ** What each handler does *)

Lemma handleReverseLayerTransition_cases c s :
  handleReverseLayerTransition c s = (s, [])
  \/ exists prevHistory,
       currentLayerIndex c <> 0%nat
       /\ (2 <= List.length (history c))%nat
       /\ nth_error (history c) (List.length (history c) - 2)
          = Some prevHistory
       /\ handleReverseLayerTransition c s
          = (reversing prevHistory s,
             [SetTimeout (ReverseSwap prevHistory) 50;
              SetTimeout ZoomingOff 750]).
Proof.
  unfold handleReverseLayerTransition.
  destruct (currentLayerIndex c =? 0)%nat eqn:Hl; [now left|].
  destruct (List.length (history c) <=? 1)%nat eqn:Hh; [now left|].
  simpl orb. cbv iota.
  destruct (nth_error (history c) (List.length (history c) - 2))
    as [prevHistory|] eqn:Hp; [|now left].
  right. exists prevHistory.
  apply Nat.eqb_neq in Hl. apply Nat.leb_gt in Hh.
  repeat split; try assumption; try lia.
Qed.

Lemma handleReverseLayerTransition_fires c s :
  currentLayerIndex c <> 0%nat ->
  (2 <= List.length (history c))%nat ->
  exists prevHistory,
    nth_error (history c) (List.length (history c) - 2) = Some prevHistory
    /\ handleReverseLayerTransition c s
       = (reversing prevHistory s,
          [SetTimeout (ReverseSwap prevHistory) 50;
           SetTimeout ZoomingOff 750]).
Proof.
  intros Hl Hh. unfold handleReverseLayerTransition.
  rewrite (proj2 (Nat.eqb_neq _ _) Hl).
  rewrite (proj2 (Nat.leb_gt _ _)) by lia.
  simpl orb. cbv iota.
  destruct (nth_error (history c) (List.length (history c) - 2))
    as [prevHistory|] eqn:Hp.
  - exists prevHistory. split; reflexivity.
  - apply nth_error_None in Hp. lia.
Qed.

Section EngineFacts.
Variable config : Config.t.

Lemma handleSilentLayerTransition_cases c node s :
  handleSilentLayerTransition config c node s = (s, [])
  \/ exists targetLayerIndex nodeColor,
       truthy (Node.children node) = true
       /\ layerIndexOf config (Node.children node) = Some targetLayerIndex
       /\ nodeColorOf config c node = Some nodeColor
       /\ handleSilentLayerTransition config c node s
          = (entered config targetLayerIndex nodeColor node s,
             [SetTimeout SilentOff 50]).
Proof.
  unfold handleSilentLayerTransition.
  destruct (truthy (Node.children node)) eqn:Hc; [|now left].
  simpl negb. cbv iota.
  destruct (layerIndexOf config (Node.children node)) as [target|] eqn:Ht;
    [|now left].
  destruct (nodeColorOf config c node) as [nodeColor|] eqn:Hn; [|now left].
  right. exists target, nodeColor. repeat split; reflexivity.
Qed.

Lemma pushUnlessOnTop_ok target entry h :
  historyOk h -> historyOk (pushUnlessOnTop target entry h).
Proof.
  intros H. unfold pushUnlessOnTop.
  destruct (nth_error h (List.length h - 1)); [|now apply historyOk_app].
  destruct (_ && _); [assumption | now apply historyOk_app].
Qed.

Lemma pushUnlessOnTop_length target entry h :
  (List.length h <= List.length (pushUnlessOnTop target entry h))%nat.
Proof.
  unfold pushUnlessOnTop.
  destruct (nth_error h (List.length h - 1));
    [destruct (_ && _)|]; rewrite ?length_app; simpl; lia.
Qed.
End EngineFacts.

Section ZoomFacts.
Variable config : Config.t.

Lemma handleZoomProgress_locked c node deltaY s :
  isZooming c = true -> handleZoomProgress config c node deltaY s = (s, []).
Proof. intros H. unfold handleZoomProgress. now rewrite H. Qed.

Lemma handleZoomProgress_terminal c node deltaY s :
  0 < deltaY -> truthy (childrenOf node) = false ->
  handleZoomProgress config c node deltaY s = (s, []).
Proof.
  intros Hd Hc. unfold handleZoomProgress.
  destruct (isZooming c); [reflexivity|].
  rewrite (proj2 (Rltb_true _ _) Hd), Hc. reflexivity.
Qed.

(** Symbolic execution of the progress update, for a handler that runs
    against the live state. *)
Lemma handleZoomProgress_update c node deltaY layer :
  isZooming c = false ->
  Rltb 0 deltaY && negb (truthy (childrenOf node)) = false ->
  Rltb deltaY 0 && Reqb (zoomProgress c) 0 && (0 <? currentLayerIndex c)%nat
  = false ->
  currentLayer config c = Some layer ->
  let prev := zoomProgress c in
  let newProgress :=
    Rmin (progressBound c layer) (Rmax 0 (prev + deltaY * 0.15)) in
  let forward :=
    Rleb (transitionThreshold c) newProgress
    && Rltb prev (transitionThreshold c) && truthy (childrenOf node) in
  let backward :=
    Reqb newProgress 0 && Rltb 0 prev && (0 <? currentLayerIndex c)%nat in
  handleZoomProgress config c node deltaY c
  = (mkAppState (currentLayerIndex c) (direction c) (backgroundColor c)
       (history c) (scale c) (panX c) (panY c) false newProgress
       (if backward then None
        else if Rltb 0 deltaY && Reqb prev 0 then node else zoomingNode c)
       (silentTransition c) (viewport c) (clickZoomIntervalRef c),
     (if forward
      then match node with
           | Some n => [RequestAnimationFrame (SilentLayerTransition c n)]
           | None => []
           end
      else [])
     ++ (if backward
         then [RequestAnimationFrame (ReverseLayerTransition c)]
         else [])).
Proof.
  intros Hz Hterm Hrev Hlayer prev newProgress forward backward.
  subst prev.
  unfold handleZoomProgress. rewrite Hz, Hterm, Hrev.
  assert (Hnew : newProgress
                 = if (0 <? currentLayerIndex c)%nat
                   then Rmin (maxProgress (viewport c) (Layer.nodes layer))
                          (Rmax 0 (zoomProgress c + deltaY * 0.15))
                   else Rmin 200 (Rmax 0 (zoomProgress c + deltaY * 0.15))).
  { unfold newProgress, progressBound.
    now destruct (0 <? currentLayerIndex c)%nat. }
  destruct (Rltb 0 deltaY && Reqb (zoomProgress c) 0) eqn:Hstart;
    unfold setZoomProgressWith, zoomProgressUpdater, andThen at 1;
    hsimpl; rewrite Hlayer; rewrite <- Hnew;
    fold forward; fold backward;
    destruct forward; destruct backward; destruct node; destruct c;
    cbn [isZooming] in Hz; subst; reflexivity.
Qed.

(** A crossing of the threshold needs a positive delta, hence a node with
    children. *)
Lemma crossing_has_children c node deltaY layer :
  Rltb 0 deltaY && negb (truthy (childrenOf node)) = false ->
  zoomProgress c < transitionThreshold c
  <= Rmin (progressBound c layer) (Rmax 0 (zoomProgress c + deltaY * 0.15)) ->
  truthy (childrenOf node) = true /\ 0 < deltaY.
Proof.
  intros Hterm [Hlow Hhigh].
  assert (Hthr : 0 < transitionThreshold c).
  { unfold transitionThreshold. destruct (_ =? _)%nat; lra. }
  assert (Hd : 0 < deltaY).
  { destruct (Rlt_le_dec 0 deltaY) as [|Hle]; [assumption|exfalso].
    pose proof (Rmin_r (progressBound c layer)
                  (Rmax 0 (zoomProgress c + deltaY * 0.15))) as Hm.
    unfold Rmax in *. destruct (Rle_dec 0 _); lra. }
  split; [|assumption].
  rewrite (proj2 (Rltb_true _ _) Hd) in Hterm. simpl in Hterm.
  now destruct (truthy (childrenOf node)).
Qed.
End ZoomFacts.

Section Threshold.
Variable config : Config.t.

Lemma handleZoomProgress_no_layer c node deltaY :
  isZooming c = false ->
  Rltb 0 deltaY && negb (truthy (childrenOf node)) = false ->
  Rltb deltaY 0 && Reqb (zoomProgress c) 0 && (0 <? currentLayerIndex c)%nat
  = false ->
  currentLayer config c = None ->
  snd (handleZoomProgress config c node deltaY c) = []
  /\ zoomProgress (fst (handleZoomProgress config c node deltaY c))
     = zoomProgress c
  /\ history (fst (handleZoomProgress config c node deltaY c)) = history c
  /\ isZooming (fst (handleZoomProgress config c node deltaY c)) = false
  /\ currentLayerIndex (fst (handleZoomProgress config c node deltaY c))
     = currentLayerIndex c
  /\ viewport (fst (handleZoomProgress config c node deltaY c)) = viewport c.
Proof.
  intros Hz Hterm Hrev Hlayer.
  unfold handleZoomProgress. rewrite Hz, Hterm, Hrev.
  destruct (Rltb 0 deltaY && Reqb (zoomProgress c) 0);
    unfold setZoomProgressWith, zoomProgressUpdater, andThen at 1;
    hsimpl; rewrite Hlayer; hsimpl; repeat split; assumption.
Qed.

Lemma childrenOf_truthy node :
  truthy (childrenOf node) = true -> exists n, node = Some n.
Proof. destruct node as [n|]; [now exists n | discriminate]. Qed.

(** C8. A call of [handleZoomProgress] asks for the forward (silent)
    transition exactly when the progress was strictly below the threshold
    (84 on the root layer, 90 elsewhere) before the call and is at or above
    it after; it asks at most once, for the node of the call, and never
    while the progress was already at or above the threshold. *)
Theorem threshold_fires_once_per_crossing :
  forall c node deltaY,
    let result := handleZoomProgress config c node deltaY c in
    let prev := zoomProgress c in
    let new := zoomProgress (fst result) in
    let threshold := transitionThreshold c in
    threshold = (if (currentLayerIndex c =? 0)%nat then 84 else 90)
    /\ (silentRequests (snd result) = 1%nat <-> prev < threshold <= new)
    /\ (silentRequests (snd result) <= 1)%nat
    /\ (threshold <= prev -> silentRequests (snd result) = 0%nat)
    /\ (forall f, In (RequestAnimationFrame f) (snd result) ->
                  isSilentRequest (RequestAnimationFrame f) = true ->
                  exists n, node = Some n /\ f = SilentLayerTransition c n).
Proof.
  intros c node deltaY result prev new threshold.
  split; [reflexivity|].
  assert (Hquiet : snd result = snd result -> zoomProgress (fst result) = prev ->
                   silentRequests (snd result) = 0%nat ->
                   (forall f, In (RequestAnimationFrame f) (snd result) ->
                      isSilentRequest (RequestAnimationFrame f) = true ->
                      exists n, node = Some n /\ f = SilentLayerTransition c n) ->
                   (silentRequests (snd result) = 1%nat <-> prev < threshold <= new)
                   /\ (silentRequests (snd result) <= 1)%nat
                   /\ (threshold <= prev -> silentRequests (snd result) = 0%nat)
                   /\ (forall f, In (RequestAnimationFrame f) (snd result) ->
                        isSilentRequest (RequestAnimationFrame f) = true ->
                        exists n, node = Some n /\ f = SilentLayerTransition c n)).
  { intros _ Hsame Hnone Hf. unfold new. rewrite Hsame, Hnone.
    repeat split; try lia; try lra; try assumption; intros; (lia || lra). }
  destruct (isZooming c) eqn:Hz.
  { subst result. rewrite handleZoomProgress_locked in * by assumption.
    apply Hquiet; try reflexivity. intros f []. }
  destruct (Rltb 0 deltaY && negb (truthy (childrenOf node))) eqn:Hterm.
  { apply andb_true_iff in Hterm. destruct Hterm as [Hd Hc].
    apply Rltb_true in Hd. apply negb_true_iff in Hc.
    subst result. rewrite handleZoomProgress_terminal in * by assumption.
    apply Hquiet; try reflexivity. intros f []. }
  destruct (Rltb deltaY 0 && Reqb (zoomProgress c) 0
            && (0 <? currentLayerIndex c)%nat) eqn:Hrev.
  { assert (Hres : result = handleReverseLayerTransition c c).
    { unfold result, handleZoomProgress. now rewrite Hz, Hterm, Hrev. }
    destruct (handleReverseLayerTransition_cases c c)
      as [Hskip | (ph & _ & _ & _ & Hrun)];
      rewrite Hres in *; [rewrite Hskip in * | rewrite Hrun in *];
      apply Hquiet; try reflexivity.
    - intros f [].
    - intros f [Hf | [Hf | []]]; discriminate. }
  destruct (currentLayer config c) as [layer|] eqn:Hlayer.
  2:{ destruct (handleZoomProgress_no_layer c node deltaY Hz Hterm Hrev Hlayer)
        as (He & Hp & _).
      fold result in He, Hp. apply Hquiet; try assumption; try reflexivity.
      - now rewrite He.
      - rewrite He. intros f []. }
  pose proof (handleZoomProgress_update config c node deltaY layer
                Hz Hterm Hrev Hlayer) as Hrun.
  cbv zeta in Hrun. fold result in Hrun.
  set (np := Rmin (progressBound c layer)
               (Rmax 0 (zoomProgress c + deltaY * 0.15))) in *.
  assert (Hnew : new = np) by (unfold new; rewrite Hrun; reflexivity).
  set (forward := Rleb (transitionThreshold c) np
                  && Rltb (zoomProgress c) (transitionThreshold c)
                  && truthy (childrenOf node)) in *.
  set (backward := Reqb np 0 && Rltb 0 (zoomProgress c)
                   && (0 <? currentLayerIndex c)%nat) in *.
  assert (Hfwd : forward = true <-> prev < threshold <= new).
  { rewrite Hnew. unfold forward, prev, threshold. split.
    - intros H. apply andb_true_iff in H. destruct H as [H _].
      apply andb_true_iff in H. destruct H as [H1 H2].
      apply Rleb_true in H1. apply Rltb_true in H2. lra.
    - intros [H1 H2].
      destruct (crossing_has_children c node deltaY layer Hterm) as [Hc _];
        [fold np; lra|].
      rewrite (proj2 (Rleb_true _ _) H2), (proj2 (Rltb_true _ _) H1), Hc.
      reflexivity. }
  assert (Hcount : silentRequests (snd result)
                   = if forward then 1%nat else 0%nat).
  { rewrite Hrun. cbn [snd]. unfold silentRequests.
    destruct forward eqn:Hf.
    - apply andb_true_iff in Hf. destruct Hf as [_ Hc].
      apply childrenOf_truthy in Hc. destruct Hc as [n ->].
      destruct backward; reflexivity.
    - destruct backward; reflexivity. }
  rewrite Hcount. split; [split|split; [|split]].
  - intros Hone. apply Hfwd. destruct forward; [reflexivity | discriminate].
  - intros Hcross. apply Hfwd in Hcross. now rewrite Hcross.
  - destruct forward; lia.
  - intros Habove. destruct forward; [|reflexivity].
    destruct (proj1 Hfwd eq_refl) as [Hlow _]. unfold prev in *. lra.
  - intros f Hin Hsil. rewrite Hrun in Hin. cbn [snd] in Hin.
    apply in_app_or in Hin. destruct Hin as [Hin | Hin].
    + destruct forward; [|contradiction].
      destruct node as [n|]; [|contradiction].
      destruct Hin as [Hin | []]. injection Hin as <-.
      exists n. split; reflexivity.
    + destruct backward; [|contradiction].
      destruct Hin as [Hin | []]. injection Hin as <-. discriminate.
Qed.
End Threshold.

(** ** Outcome of an event: the handler and its frame callbacks *)

Section Outcomes.
Variable config : Config.t.

Lemma dispatch_outcome e w :
  dispatch config e w
  = mkWorld (fst (outcome config (appState w) e))
      (timers w ++ snd (outcome config (appState w) e)).
Proof.
  unfold dispatch, outcome.
  destruct (handle config (appState w) e (appState w)) as [s1 effects].
  destruct (settle config effects s1); reflexivity.
Qed.

Lemma zoom_outcome c node deltaY :
  ZoomOutcome config c deltaY
    (fst (outcome config c (ZoomProgress node deltaY)))
    (snd (outcome config c (ZoomProgress node deltaY))).
Proof.
  unfold outcome. cbn [handle].
  destruct (isZooming c) eqn:Hz.
  { rewrite handleZoomProgress_locked by assumption.
    apply zoom_plain; auto. }
  destruct (Rltb 0 deltaY && negb (truthy (childrenOf node))) eqn:Hterm.
  { apply andb_true_iff in Hterm. destruct Hterm as [Hd Hc].
    apply Rltb_true in Hd. apply negb_true_iff in Hc.
    rewrite handleZoomProgress_terminal by assumption.
    apply zoom_plain; auto. }
  destruct (Rltb deltaY 0 && Reqb (zoomProgress c) 0
            && (0 <? currentLayerIndex c)%nat) eqn:Hrev.
  { assert (Hres : handleZoomProgress config c node deltaY c
                   = handleReverseLayerTransition c c).
    { unfold handleZoomProgress. now rewrite Hz, Hterm, Hrev. }
    rewrite Hres.
    apply andb_true_iff in Hrev. destruct Hrev as [Hrev _].
    apply andb_true_iff in Hrev. destruct Hrev as [_ Hzero].
    apply Reqb_true in Hzero.
    destruct (handleReverseLayerTransition_cases c c)
      as [Hskip | (ph & Hl & Hh & _ & Hrun)].
    - rewrite Hskip. apply zoom_plain; auto.
    - rewrite Hrun. apply zoom_reversing; cbn [history isZooming currentLayerIndex viewport zoomProgress]; congruence. }
  destruct (currentLayer config c) as [layer|] eqn:Hlayer.
  2:{ destruct (handleZoomProgress_no_layer config c node deltaY
                  Hz Hterm Hrev Hlayer) as (He & Hp & Hh & Hzz & Hl & Hv).
      destruct (handleZoomProgress config c node deltaY c) as [s1 effs].
      cbn [fst snd] in *. subst effs. cbn [settle fst snd].
      apply zoom_plain; auto. congruence. }
  rewrite (handleZoomProgress_update config c node deltaY layer
             Hz Hterm Hrev Hlayer).
  cbv zeta.
  set (np := Rmin (progressBound c layer)
               (Rmax 0 (zoomProgress c + deltaY * 0.15))).
  set (forward := Rleb (transitionThreshold c) np
                  && Rltb (zoomProgress c) (transitionThreshold c)
                  && truthy (childrenOf node)).
  set (backward := Reqb np 0 && Rltb 0 (zoomProgress c)
                   && (0 <? currentLayerIndex c)%nat).
  assert (Hthr : 0 < transitionThreshold c).
  { unfold transitionThreshold. destruct (_ =? _)%nat; lra. }
  destruct forward eqn:Hf; destruct backward eqn:Hb.
  - exfalso. unfold forward, backward in *.
    repeat (apply andb_true_iff in Hf; destruct Hf as [Hf ?]).
    repeat (apply andb_true_iff in Hb; destruct Hb as [Hb ?]).
    apply Rleb_true in Hf. apply Reqb_true in Hb. lra.
  - unfold forward in Hf.
    apply andb_true_iff in Hf. destruct Hf as [_ Hc].
    apply childrenOf_truthy in Hc. destruct Hc as [n ->].
    cbn [List.app settle runFrame].
    match goal with
    | |- context [handleSilentLayerTransition config c n ?s] =>
        destruct (handleSilentLayerTransition_cases config c n s)
          as [Hskip | (target & color & _ & Ht & Hn & Hrun)];
        [rewrite Hskip | rewrite Hrun]
    end; cbn [timeouts List.app fst snd].
    + apply zoom_plain; cbn [history isZooming currentLayerIndex viewport zoomProgress]; try congruence.
      right. exists layer. split; [assumption | reflexivity].
    + apply zoom_entered; cbn [history isZooming currentLayerIndex viewport zoomProgress]; congruence.
  - cbn [List.app settle runFrame].
    unfold backward in Hb.
    apply andb_true_iff in Hb. destruct Hb as [Hb _].
    apply andb_true_iff in Hb. destruct Hb as [Hzero _].
    apply Reqb_true in Hzero.
    match goal with
    | |- context [handleReverseLayerTransition c ?s] =>
        destruct (handleReverseLayerTransition_cases c s)
          as [Hskip | (ph & Hl & Hh & _ & Hrun)];
        [rewrite Hskip | rewrite Hrun]
    end; cbn [timeouts List.app fst snd].
    + apply zoom_plain; cbn [history isZooming currentLayerIndex viewport zoomProgress]; try congruence.
      right. exists layer. split; [assumption | reflexivity].
    + apply zoom_reversing; cbn [history isZooming currentLayerIndex viewport zoomProgress]; congruence.
  - cbn [List.app settle fst snd].
    apply zoom_plain; cbn [history isZooming currentLayerIndex viewport zoomProgress]; try congruence.
      right. exists layer. split; [assumption | reflexivity].
Qed.
End Outcomes.

Section LockInvariant.
Variable config : Config.t.

Lemma outcome_zoom_locked c node deltaY :
  isZooming c = true -> outcome config c (ZoomProgress node deltaY) = (c, []).
Proof.
  intros Hz. unfold outcome. cbn [handle].
  now rewrite handleZoomProgress_locked.
Qed.

(** While [isZooming] holds, no event starts a transition or touches the
    history. *)
Lemma outcome_locked c e :
  isZooming c = true ->
  isZooming (fst (outcome config c e)) = true
  /\ history (fst (outcome config c e)) = history c
  /\ currentLayerIndex (fst (outcome config c e)) = currentLayerIndex c
  /\ snd (outcome config c e) = [].
Proof.
  intros Hz. destruct e; unfold outcome; cbn [handle].
  - rewrite handleZoomProgress_locked by assumption. cbn. auto.
  - unfold handleNodeClick. rewrite Hz, orb_true_r. cbn. auto.
  - unfold handleCanvasClick. destruct (Rltb 0 (zoomProgress c)); cbn; auto.
  - unfold handleWheel. rewrite Hz. cbn [negb]. rewrite andb_false_r.
    cbn. auto.
  - unfold handleHome. rewrite Hz, orb_true_r. cbn. auto.
  - unfold handleNavigate. rewrite Hz, orb_true_r. cbn. auto.
  - unfold handleGoBack. rewrite Hz. cbn [negb].
    rewrite andb_false_r. cbn. auto.
  - unfold handleReverseTransition. rewrite Hz. cbn. auto.
  - cbn. auto.
Qed.

Lemma reverse_settles c :
  isZooming c = false ->
  historyOk (history c) ->
  let r := settle config (snd (handleReverseLayerTransition c c))
             (fst (handleReverseLayerTransition c c)) in
  historyOk (history (fst r))
  /\ lockShape (isZooming (fst r)) (history (fst r)) (locks (snd r)).
Proof.
  intros Hz Hok.
  destruct (handleReverseLayerTransition_cases c c)
    as [Hskip | (ph & Hl & Hh & _ & Hrun)].
  - rewrite Hskip. cbn. split; [assumption | constructor].
  - rewrite Hrun. cbn. split; [assumption|].
    apply shape_swapping; cbn; auto; lia.
Qed.

Lemma zoom_outcome_ok c deltaY s2 ts :
  ZoomOutcome config c deltaY s2 ts ->
  isZooming c = false ->
  historyOk (history c) ->
  historyOk (history s2) /\ lockShape (isZooming s2) (history s2) (locks ts).
Proof.
  intros Ho Hz Hok.
  destruct Ho as [s2 Hh Hzz _ _ _ | n target color s1 _ _ Hh Hzz _
                  | ph s1 Hl Hlen _ Hh _ _].
  - rewrite Hh. split; [assumption | constructor].
  - cbn. rewrite Hh. split; [now apply pushUnlessOnTop_ok | constructor].
  - cbn. rewrite Hh. split; [assumption|].
    apply shape_swapping; cbn; auto; lia.
Qed.

(** Outside a transition, an event leaves the history well formed and
    starts at most one animated transition. *)
Lemma outcome_unlocked c e :
  isZooming c = false ->
  historyOk (history c) ->
  historyOk (history (fst (outcome config c e)))
  /\ lockShape (isZooming (fst (outcome config c e)))
       (history (fst (outcome config c e)))
       (locks (snd (outcome config c e))).
Proof.
  intros Hz Hok. destruct e.
  - eapply zoom_outcome_ok; eauto using zoom_outcome.
  - unfold outcome. cbn [handle]. unfold handleNodeClick.
    rewrite Hz, orb_false_r.
    destruct (truthy (Node.children node)); cbn [negb];
      [|cbn; split; [assumption | constructor]].
    destruct (layerIndexOf config (Node.children node));
      [|cbn; split; [assumption | constructor]].
    destruct (nodeColorOf config c node); cbn;
      (split; [assumption|]); [|constructor].
    apply shape_swapping; cbn; auto; lia.
  - unfold outcome. cbn [handle]. unfold handleCanvasClick.
    destruct (Rltb 0 (zoomProgress c)); cbn; rewrite ?Hz;
      (split; [assumption | constructor]).
  - unfold outcome. cbn [handle]. unfold handleWheel.
    destruct (Rltb deltaY 0 && (0 <? currentLayerIndex c)%nat
              && negb (isZooming c));
      [|cbn; split; [assumption | constructor]].
    destruct (Rltb 0 (zoomProgress c)).
    + eapply zoom_outcome_ok; eauto.
      apply (zoom_outcome config c (zoomingNode c) deltaY).
    + destruct (handleReverseLayerTransition c c) as [s1 effs] eqn:Hr.
      pose proof (reverse_settles c Hz Hok) as Hs.
      rewrite Hr in Hs. exact Hs.
  - unfold outcome. cbn [handle]. unfold handleHome. rewrite Hz, orb_false_r.
    destruct (currentLayerIndex c =? 0)%nat; cbn;
      (split; [assumption|]); [constructor|].
    apply shape_swapping; cbn; auto; lia.
  - unfold outcome. cbn [handle]. unfold handleNavigate.
    rewrite Hz, orb_false_r.
    destruct (S index =? List.length (history c))%nat;
      [cbn; split; [assumption | constructor]|].
    destruct (nth_error (history c) index); cbn;
      (split; [assumption|]); [|constructor].
    apply shape_swapping; cbn; auto; lia.
  - unfold outcome. cbn [handle]. unfold handleGoBack.
    rewrite Hz. cbn [negb]. rewrite andb_true_r.
    destruct (1 <? List.length (history c))%nat eqn:Hlen;
      [|cbn; split; [assumption | constructor]].
    destruct (negb (currentLayerIndex c =? 0)%nat);
      [|cbn; split; [assumption | constructor]].
    cbn [andb].
    destruct (nth_error (history c) (List.length (history c) - 2)); cbn;
      (split; [assumption|]); [|constructor].
    apply Nat.ltb_lt in Hlen.
    apply shape_swapping; cbn; auto; lia.
  - unfold outcome. cbn [handle]. unfold handleReverseTransition.
    rewrite Hz. cbn [negb andb].
    destruct (0 <? currentLayerIndex c)%nat;
      [|cbn; split; [assumption | constructor]].
    destruct (handleReverseLayerTransition c c) as [s1 effs] eqn:Hr.
    pose proof (reverse_settles c Hz Hok) as Hs.
    rewrite Hr in Hs. exact Hs.
  - cbn. rewrite Hz. split; [assumption | constructor].
Qed.
End LockInvariant.

Lemma lockShape_tick zooming h dt ls :
  Forall (fun rt => (dt <= fst rt)%nat) ls ->
  lockShape zooming h ls ->
  lockShape zooming h (map (fun rt => (fst rt - dt, snd rt)%nat) ls).
Proof.
  intros Hdue Hs. destruct Hs as [| re Hz | rs sw re Hz Hsw Hlt Hok]; cbn.
  - constructor.
  - now constructor.
  - inversion Hdue as [|? ? Hrs _]; subst. cbn in Hrs.
    constructor; auto; lia.
Qed.

(** The timer that runs is the first pending one of its transition: the
    swap while both are pending, the release of [isZooming] afterwards. *)
Lemma lockShape_fire zooming h before t after :
  isLock t = true ->
  lockShape zooming h (before ++ (0%nat, t) :: after) ->
  before = []
  /\ ((t = ZoomingOff /\ after = [])
      \/ (isSwap t = true /\ zooming = true /\ swapOk t h
          /\ exists re, after = [(re, ZoomingOff)])).
Proof.
  intros Hlock Hs.
  inversion Hs as [Heq | re Hz Heq | rs sw re Hz Hsw Hlt Hok Heq].
  - destruct before; discriminate.
  - destruct before as [|b [|b' before]]; try discriminate.
    injection Heq as Ht Ha. subst. split; [reflexivity|]. left. auto.
  - destruct before as [|b [|b' [|b'' before]]]; try discriminate.
    + injection Heq as Hr Ht Ha. subst. split; [reflexivity|].
      right. repeat split; auto. now exists re.
    + injection Heq as Hb Hr Ht Ha. subst. lia.
Qed.

Section WorldInvariant.
Variable config : Config.t.

Lemma Inv_initial vp : Inv (initialWorld config vp).
Proof. split; cbn; [reflexivity | constructor]. Qed.

Lemma Inv_dispatch e w : Inv w -> Inv (dispatch config e w).
Proof.
  intros [Hok Hshape]. rewrite dispatch_outcome. unfold Inv. cbn [appState timers].
  rewrite locks_app.
  destruct (isZooming (appState w)) eqn:Hz.
  - destruct (outcome_locked config (appState w) e Hz) as (Hz' & Hh & _ & Hts).
    rewrite Hz', Hh, Hts. cbn [locks filter]. rewrite app_nil_r. auto.
  - apply lockShape_unlocked in Hshape. rewrite Hshape. cbn [List.app].
    now apply outcome_unlocked.
Qed.

Lemma Inv_tick dt w :
  Forall (fun rt => (dt <= fst rt)%nat) (timers w) -> Inv w -> Inv (tick dt w).
Proof.
  intros Hdue [Hok Hshape]. split; cbn [tick appState timers]; [assumption|].
  rewrite locks_tick. apply lockShape_tick; [|assumption].
  now apply locks_due.
Qed.

Lemma runTimer_no_effects t s : snd (runTimer config t s) = [].
Proof.
  destruct t; cbn; try reflexivity.
  destruct (HistoryEntry.layerIndex target =? 0)%nat; reflexivity.
Qed.

Lemma Inv_fire i t w :
  nth_error (timers w) i = Some (0%nat, t) -> Inv w -> Inv (fire config i w).
Proof.
  intros Hnth [Hok Hshape]. unfold fire. rewrite Hnth.
  pose proof (runTimer_no_effects t (appState w)) as Heff.
  destruct (runTimer config t (appState w)) as [s' effs] eqn:Hrun.
  cbn [snd] in Heff. subst effs. cbn [timeouts]. rewrite app_nil_r.
  destruct (nth_error_removeAt _ _ _ Hnth) as [Hsplit Hrem].
  rewrite Hrem. rewrite Hsplit, locks_app in Hshape.
  unfold Inv. cbn [appState timers]. rewrite locks_app.
  set (before := locks (firstn i (timers w))) in *.
  set (after := locks (skipn (S i) (timers w))) in *.
  destruct (isLock t) eqn:Hlock.
  - cbn [locks filter snd] in Hshape. rewrite Hlock in Hshape.
    fold (locks (skipn (S i) (timers w))) in Hshape. fold after in Hshape.
    apply lockShape_fire in Hshape; [|assumption].
    destruct Hshape as [-> [[-> ->] | (Hsw & Hz & Hswap & re & ->)]].
    + cbn in Hrun. injection Hrun as <-. cbn. split; [assumption|constructor].
    + destruct t; try discriminate; cbn in Hrun; cbn in Hswap.
      * injection Hrun as <-. cbn. split.
        -- now apply historyOk_removelast.
        -- now constructor.
      * injection Hrun as <-. cbn. split.
        -- now apply historyOk_app.
        -- now constructor.
      * injection Hrun as <-. cbn. split; [reflexivity | now constructor].
      * destruct (HistoryEntry.layerIndex target =? 0)%nat;
          cbn in Hrun; injection Hrun as <-; cbn;
          (split; [now apply historyOk_firstn | now constructor]).
  - destruct t; try discriminate. cbn in Hrun. injection Hrun as <-.
    cbn [locks filter snd isLock] in Hshape.
    fold (locks (skipn (S i) (timers w))) in Hshape. fold after in Hshape.
    cbn. split; assumption.
Qed.

Lemma Inv_perform allowed a w :
  enabled allowed a w -> Inv w -> Inv (perform config a w).
Proof.
  destruct a as [e | dt | i]; cbn [enabled perform].
  - intros _. apply Inv_dispatch.
  - apply Inv_tick.
  - intros [t Hnth]. now apply Inv_fire with t.
Qed.

Lemma reachable_Inv allowed vp w :
  reachable config allowed vp w -> Inv w.
Proof.
  induction 1 as [|a w Hreach IH Hen].
  - apply Inv_initial.
  - now apply Inv_perform with allowed.
Qed.

End WorldInvariant.

(** ** Bounds of the zoom progress *)

Lemma scale_in_range vp layerNodes baseSize :
  0.3 <= calculateResponsiveScale (Some vp) (Some layerNodes) baseSize <= 1.
Proof.
  unfold calculateResponsiveScale.
  destruct (List.length layerNodes <=? 1)%nat; [lra | apply clamp_bounds].
Qed.

(** The bound is non-negative once the largest node size allowed (95% of the
    smaller viewport dimension, times 1.75) reaches the base node size. *)
Lemma maxProgress_nonneg vp layerNodes :
  165 <= Rmin (Viewport.width vp) (Viewport.height vp) * 0.95 * 1.75 ->
  0 <= maxProgress vp layerNodes.
Proof.
  intros Hbig. unfold maxProgress.
  pose proof (scale_in_range vp layerNodes 165) as Hs.
  set (s := calculateResponsiveScale (Some vp) (Some layerNodes) 165) in *.
  set (m := Rmin (Viewport.width vp) (Viewport.height vp) * 0.95 * 1.75) in *.
  assert (Hi : 0 < 165 * s) by lra.
  assert (Hscale : 1 <= m / (165 * s)).
  { apply (Rmult_le_reg_r (165 * s)); [assumption|].
    unfold Rdiv. rewrite Rmult_assoc, Rinv_l by lra. lra. }
  apply Rmult_le_pos; [lra|].
  apply Rlt_le, Rinv_0_lt_compat. lra.
Qed.

(** It is negative on a viewport so small that the largest node size allowed
    is below 30% of the base node size. *)
Lemma maxProgress_neg vp layerNodes :
  Rmin (Viewport.width vp) (Viewport.height vp) * 0.95 * 1.75 < 49.5 ->
  maxProgress vp layerNodes < 0.
Proof.
  intros Hsmall. unfold maxProgress.
  pose proof (scale_in_range vp layerNodes 165) as Hs.
  set (s := calculateResponsiveScale (Some vp) (Some layerNodes) 165) in *.
  set (m := Rmin (Viewport.width vp) (Viewport.height vp) * 0.95 * 1.75) in *.
  assert (Hi : 0 < 165 * s) by lra.
  assert (Hscale : m / (165 * s) < 1).
  { apply (Rmult_lt_reg_r (165 * s)); [assumption|].
    unfold Rdiv. rewrite Rmult_assoc, Rinv_l by lra. lra. }
  assert (Hinv : 0 < / (8 / 100)) by (apply Rinv_0_lt_compat; lra).
  unfold Rdiv at 1.
  replace 0 with (0 * / (8 / 100)) by ring.
  apply Rmult_lt_compat_r; lra.
Qed.

Lemma In_removeAt {A : Type} (x : A) i l : In x (removeAt i l) -> In x l.
Proof.
  unfold removeAt. intros H. apply in_app_or in H. destruct H as [H | H].
  - rewrite <- (firstn_skipn i l). apply in_or_app. now left.
  - rewrite <- (firstn_skipn (S i) l). apply in_or_app. now right.
Qed.

Lemma locks_nil_In ts r t : locks ts = [] -> In (r, t) ts -> t = SilentOff.
Proof.
  intros Hnil Hin. destruct (isLock t) eqn:Hl.
  - assert (Hf : In (r, t) (locks ts)) by (apply filter_In; auto).
    rewrite Hnil in Hf. contradiction.
  - destruct t; try discriminate. reflexivity.
Qed.

Section ZoomBound.
Variable config : Config.t.
Variable vp : Viewport.t.

Hypothesis Hmax :
  forall i layer,
    i <> 0%nat -> nth_error (Config.layers config) i = Some layer ->
    0 <= maxProgress vp (Layer.nodes layer).

Lemma zoomBounded_zero s :
  viewport s = vp -> zoomProgress s = 0 -> zoomBounded config s.
Proof.
  intros Hv Hz. unfold zoomBounded. rewrite Hz, Hv.
  repeat split; try lra.
  intros Hl layer Hlayer. now apply (Hmax (currentLayerIndex s)).
Qed.

Lemma zoom_outcome_bounded c deltaY s2 ts :
  ZoomOutcome config c deltaY s2 ts ->
  viewport c = vp -> zoomBounded config c ->
  viewport s2 = vp /\ zoomBounded config s2
  /\ (forall r t, In (r, t) ts ->
        t = SilentOff \/ t = ZoomingOff
        \/ exists prevHistory,
             t = ReverseSwap prevHistory /\ zoomProgress s2 = 0).
Proof.
  intros Ho Hv Hb.
  destruct Ho as [s2 Hh Hzz Hl Hv2 Hp | n target color s1 _ _ Hh Hzz Hv1
                  | ph s1 Hl Hlen Hzero Hh Hl1 Hv1].
  - split; [congruence|]. split; [|intros r t []].
    destruct Hb as (H0 & Hroot & Hdeep).
    assert (Hcur : currentLayer config s2 = currentLayer config c)
      by (unfold currentLayer; now rewrite Hl).
    destruct Hp as [Hp | (layer & Hlayer & Hp)].
    + unfold zoomBounded. rewrite Hp, Hl, Hv2, Hcur. auto.
    + unfold zoomBounded. rewrite Hp, Hl, Hv2, Hcur.
      assert (Hbound : 0 <= progressBound c layer).
      { unfold progressBound.
        destruct (0 <? currentLayerIndex c)%nat eqn:Hpos; [|lra].
        apply Nat.ltb_lt in Hpos. rewrite Hv.
        apply (Hmax (currentLayerIndex c)); [lia | exact Hlayer]. }
      split; [|split].
      * apply Rmin_glb; [assumption | apply Rmax_l].
      * intros H0l. eapply Rle_trans; [apply Rmin_l|].
        unfold progressBound. rewrite H0l. cbn. lra.
      * intros Hne layer' Hlayer'.
        assert (layer' = layer) by congruence. subst layer'.
        eapply Rle_trans; [apply Rmin_l|].
        unfold progressBound.
        rewrite (proj2 (Nat.ltb_lt 0 (currentLayerIndex c))) by lia. lra.
  - split; [cbn; congruence|]. split.
    + apply zoomBounded_zero; cbn; congruence.
    + intros r t [Heq | []]. injection Heq as _ <-. now left.
  - split; [cbn; congruence|]. split.
    + apply zoomBounded_zero; cbn; congruence.
    + intros r t [Heq | [Heq | []]]; injection Heq as _ <-.
      * right; right. exists ph. split; [reflexivity | exact Hzero].
      * right; now left.
Qed.

Lemma Bounded_initial : Bounded config vp (initialWorld config vp).
Proof.
  split; [reflexivity|]. split.
  - apply zoomBounded_zero; reflexivity.
  - intros r t [].
Qed.

Lemma Bounded_dispatch node deltaY w :
  Inv w -> Bounded config vp w ->
  Bounded config vp (dispatch config (ZoomProgress node deltaY) w).
Proof.
  intros [_ Hshape] (Hv & Hb & Hcalm).
  rewrite dispatch_outcome. unfold Bounded. cbn [appState timers].
  destruct (isZooming (appState w)) eqn:Hz.
  - rewrite outcome_zoom_locked by assumption. cbn [fst snd].
    rewrite app_nil_r. auto.
  - apply lockShape_unlocked in Hshape.
    destruct (zoom_outcome_bounded (appState w) deltaY _ _
                (zoom_outcome config (appState w) node deltaY) Hv Hb)
      as (Hv2 & Hb2 & Hnew).
    split; [assumption|]. split; [assumption|].
    intros r t Hin. apply in_app_or in Hin. destruct Hin as [Hin | Hin].
    + left. eapply locks_nil_In; eassumption.
    + eapply Hnew; eassumption.
Qed.

Lemma Bounded_tick dt w :
  Bounded config vp w -> Bounded config vp (tick dt w).
Proof.
  intros (Hv & Hb & Hcalm). split; [assumption|]. split; [assumption|].
  intros r t Hin. cbn [tick timers] in Hin.
  apply in_map_iff in Hin. destruct Hin as ([r0 t0] & Heq & Hin).
  injection Heq as _ <-. cbn [snd]. eapply Hcalm; eassumption.
Qed.

Lemma Bounded_fire i t w :
  nth_error (timers w) i = Some (0%nat, t) ->
  Bounded config vp w -> Bounded config vp (fire config i w).
Proof.
  intros Hnth (Hv & Hb & Hcalm). unfold fire. rewrite Hnth.
  assert (Hin : In (0%nat, t) (timers w)) by (eapply nth_error_In; eauto).
  assert (Hrest : forall r t', In (r, t') (removeAt i (timers w)) ->
                               In (r, t') (timers w))
    by (intros; eapply In_removeAt; eauto).
  destruct (Hcalm _ _ Hin) as [-> | [-> | (ph & -> & Hzero)]];
    cbn [runTimer andThen update setSilentTransition setIsZooming
         setCurrentLayerIndex setScale setPanX setPanY setHistory
         fst snd timeouts List.app];
    rewrite app_nil_r; unfold Bounded; cbn [appState timers].
  - split; [assumption|]. split; [exact Hb|].
    intros r t' Hin'. apply Hrest in Hin'. exact (Hcalm _ _ Hin').
  - split; [assumption|]. split; [exact Hb|].
    intros r t' Hin'. apply Hrest in Hin'. exact (Hcalm _ _ Hin').
  - split; [assumption|]. split.
    + apply zoomBounded_zero; assumption.
    + intros r t' Hin'. apply Hrest in Hin'. exact (Hcalm _ _ Hin').
Qed.

Lemma reachable_Bounded w :
  reachable config zoomOnly vp w -> Bounded config vp w.
Proof.
  intros Hreach. induction Hreach as [|a w Hreach IH Hen].
  - apply Bounded_initial.
  - pose proof (reachable_Inv config zoomOnly vp w Hreach) as Hinv.
    destruct a as [e | dt | i]; cbn [perform enabled] in *.
    + destruct e; try contradiction. now apply Bounded_dispatch.
    + now apply Bounded_tick.
    + destruct Hen as [t Hnth]. now apply Bounded_fire with t.
Qed.

(** The state a call leaves before its frame callback runs. *)
Lemma handleZoomProgress_bounded c node deltaY :
  viewport c = vp -> zoomBounded config c ->
  viewport (fst (handleZoomProgress config c node deltaY c)) = vp
  /\ zoomBounded config (fst (handleZoomProgress config c node deltaY c)).
Proof.
  intros Hv Hb.
  assert (Hsame : forall s,
             viewport s = viewport c -> zoomProgress s = zoomProgress c ->
             currentLayerIndex s = currentLayerIndex c ->
             viewport s = vp /\ zoomBounded config s).
  { intros s Hvs Hps Hls. split; [congruence|].
    unfold zoomBounded, currentLayer in *. rewrite Hvs, Hps, Hls. exact Hb. }
  destruct (isZooming c) eqn:Hz.
  { rewrite handleZoomProgress_locked by assumption. auto. }
  destruct (Rltb 0 deltaY && negb (truthy (childrenOf node))) eqn:Hterm.
  { apply andb_true_iff in Hterm. destruct Hterm as [Hd Hc].
    apply Rltb_true in Hd. apply negb_true_iff in Hc.
    rewrite handleZoomProgress_terminal by assumption. auto. }
  destruct (Rltb deltaY 0 && Reqb (zoomProgress c) 0
            && (0 <? currentLayerIndex c)%nat) eqn:Hrev.
  { assert (Hres : handleZoomProgress config c node deltaY c
                   = handleReverseLayerTransition c c).
    { unfold handleZoomProgress. now rewrite Hz, Hterm, Hrev. }
    rewrite Hres.
    destruct (handleReverseLayerTransition_cases c c)
      as [Hskip | (ph & _ & _ & _ & Hrun)];
      [rewrite Hskip | rewrite Hrun]; apply Hsame; reflexivity. }
  destruct (currentLayer config c) as [layer|] eqn:Hlayer.
  2:{ destruct (handleZoomProgress_no_layer config c node deltaY
                  Hz Hterm Hrev Hlayer) as (_ & Hp & _ & _ & Hl & Hv').
      now apply Hsame. }
  rewrite (handleZoomProgress_update config c node deltaY layer
             Hz Hterm Hrev Hlayer).
  cbv zeta. cbn [fst]. split; [exact Hv|].
  assert (Hbound : 0 <= progressBound c layer).
  { unfold progressBound.
    destruct (0 <? currentLayerIndex c)%nat eqn:Hpos; [|lra].
    apply Nat.ltb_lt in Hpos. rewrite Hv.
    apply (Hmax (currentLayerIndex c)); [lia | exact Hlayer]. }
  unfold zoomBounded, currentLayer.
  cbn [zoomProgress currentLayerIndex viewport].
  fold (currentLayer config c). rewrite Hlayer.
  split; [|split].
  - apply Rmin_glb; [assumption | apply Rmax_l].
  - intros H0l. eapply Rle_trans; [apply Rmin_l|].
    unfold progressBound. rewrite H0l. cbn. lra.
  - intros Hne layer' Hlayer'. injection Hlayer' as <-.
    eapply Rle_trans; [apply Rmin_l|].
    unfold progressBound.
    rewrite (proj2 (Nat.ltb_lt 0 (currentLayerIndex c))) by lia. lra.
Qed.
End ZoomBound.

(** C4 (amended). On a viewport for which the bound [maxProgress] is
    non-negative on every layer below the root, every world reached from the
    initial state by calls of [handleZoomProgress] (any nodes, any deltas),
    with their frame callbacks and timers, satisfies
    [0 <= zoomProgress], [zoomProgress <= 200] on the root layer and
    [zoomProgress <= maxProgress] on the other layers; so does the state
    that a further call leaves before its frame callback has run. *)
Theorem zoom_bound_invariant :
  forall config vp,
    (forall i layer,
        i <> 0%nat -> nth_error (Config.layers config) i = Some layer ->
        0 <= maxProgress vp (Layer.nodes layer)) ->
    forall w,
      reachable config zoomOnly vp w ->
      let bounded (s : AppState) :=
        0 <= zoomProgress s
        /\ (currentLayerIndex s = 0%nat -> zoomProgress s <= 200)
        /\ (currentLayerIndex s <> 0%nat ->
            forall layer,
              currentLayer config s = Some layer ->
              zoomProgress s <= maxProgress vp (Layer.nodes layer)) in
      bounded (appState w)
      /\ forall node deltaY,
           bounded
             (fst (handleZoomProgress config (appState w) node deltaY
                     (appState w))).
Proof.
  intros config vp Hmax w Hreach bounded.
  destruct (reachable_Bounded config vp Hmax w Hreach) as (Hv & Hb & _).
  split.
  - unfold zoomBounded in Hb. rewrite Hv in Hb. exact Hb.
  - intros node deltaY.
    destruct (handleZoomProgress_bounded config vp Hmax (appState w) node
                deltaY Hv Hb) as [Hv' Hb'].
    unfold zoomBounded in Hb'. rewrite Hv' in Hb'. exact Hb'.
Qed.

(** ** Scenario A and the bound on a tiny viewport *)

Lemma initialState_rootZooming vp :
  initialState DEFAULT_CONFIG vp = rootZooming vp 0 None.
Proof. reflexivity. Qed.


Lemma root_step_cross vp p zn deltaY ts :
  0 <= p < 84 -> 0 < deltaY -> 84 <= p + deltaY * 0.15 ->
  dispatch DEFAULT_CONFIG (ZoomProgress (Some node_1) deltaY)
    (mkWorld (rootZooming vp p zn) ts)
  = mkWorld (enteredLayer2 vp) (ts ++ [(50%nat, SilentOff)]).
Proof.
  intros Hp Hd Hge. unfold dispatch. cbn [appState timers handle].
  rewrite (handleZoomProgress_update DEFAULT_CONFIG _ _ _ layer_1);
    try reflexivity.
  2:{ rewrite (proj2 (Rltb_true _ _) Hd). reflexivity. }
  2:{ rewrite (proj2 (Rltb_false _ _)) by lra. reflexivity. }
  cbv zeta. unfold progressBound, transitionThreshold.
  cbn [currentLayerIndex zoomProgress rootZooming Nat.ltb Nat.leb Nat.eqb].
  rewrite (Rmax_right 0 (p + deltaY * 0.15)) by lra.
  assert (Hnew : 84 <= Rmin 200 (p + deltaY * 0.15))
    by (apply Rmin_glb; lra).
  rewrite (proj2 (Rleb_true _ _) Hnew).
  rewrite (proj2 (Rltb_true p 84)) by lra.
  rewrite (proj2 (Reqb_false (Rmin 200 (p + deltaY * 0.15)) 0)) by lra.
  reflexivity.
Qed.








Lemma enteredLayer2_zooming vp : enteredLayer2 vp = layer2Zooming vp 0 None.
Proof. reflexivity. Qed.

(** A first wheel event on "what is it ?" after entering "layer-2". *)
Lemma layer2_first_step vp deltaY ts :
  0 < deltaY ->
  let np := Rmin (maxProgress vp (Layer.nodes layer_2)) (deltaY * 0.15) in
  np < 90 -> np <> 0 ->
  dispatch DEFAULT_CONFIG (ZoomProgress (Some node_2_1) deltaY)
    (mkWorld (enteredLayer2 vp) ts)
  = mkWorld (layer2Zooming vp np (Some node_2_1)) ts.
Proof.
  intros Hd np Hlt Hne. unfold dispatch. cbn [appState timers handle].
  rewrite (handleZoomProgress_update DEFAULT_CONFIG _ _ _ layer_2);
    try reflexivity.
  2:{ rewrite (proj2 (Rltb_true _ _) Hd). reflexivity. }
  2:{ rewrite (proj2 (Rltb_false _ _)) by lra. reflexivity. }
  cbv zeta. unfold progressBound, transitionThreshold.
  cbn [currentLayerIndex zoomProgress viewport enteredLayer2
       Nat.ltb Nat.leb Nat.eqb].
  rewrite Rplus_0_l. rewrite (Rmax_right 0 (deltaY * 0.15)) by lra.
  fold np.
  rewrite (proj2 (Rleb_false 90 np)) by lra.
  rewrite (proj2 (Reqb_false np 0)) by assumption.
  rewrite (proj2 (Rltb_true 0 deltaY)) by assumption.
  rewrite (proj2 (Reqb_true 0 0)) by reflexivity.
  cbn [andb List.app settle]. rewrite app_nil_r. reflexivity.
Qed.

(** C4 (counterexample). On a 20 x 20 viewport the bound on "layer-2" is
    negative: after entering "layer-2", one more wheel event leaves the
    progress below 0. *)
Lemma zoom_progress_negative_on_tiny_viewport :
  let vp := Viewport.mk 20 20 in
  let w := run DEFAULT_CONFIG
             [waterCycleZoom 600; Dispatch (ZoomProgress (Some node_2_1) 600)]
             (initialWorld DEFAULT_CONFIG vp) in
  reachable DEFAULT_CONFIG zoomOnly vp w
  /\ currentLayerIndex (appState w) = 1%nat
  /\ zoomProgress (appState w) < 0.
Proof.
  cbv zeta. split.
  - unfold run. cbn [fold_left].
    repeat (apply reachable_step; [|exact I]). apply reachable_init.
  - unfold run. cbn [fold_left perform waterCycleZoom].
    unfold initialWorld. rewrite initialState_rootZooming.
    rewrite root_step_cross by lra.
    assert (Hneg : maxProgress (Viewport.mk 20 20) (Layer.nodes layer_2) < 0).
    { apply maxProgress_neg. cbn [Viewport.width Viewport.height].
      rewrite Rmin_left by lra. lra. }
    rewrite layer2_first_step.
    + cbn [appState currentLayerIndex zoomProgress layer2Zooming].
      split; [reflexivity|].
      eapply Rle_lt_trans; [apply Rmin_l | exact Hneg].
    + lra.
    + eapply Rle_lt_trans; [apply Rmin_l | lra].
    + apply Rlt_not_eq. eapply Rle_lt_trans; [apply Rmin_l | exact Hneg].
Qed.

(** C4 (witness). On a 1000 x 1000 viewport the bounds are non-negative. *)
Lemma zoom_bound_invariant_witness :
  let vp := Viewport.mk 1000 1000 in
  let w := perform DEFAULT_CONFIG (waterCycleZoom 600)
             (initialWorld DEFAULT_CONFIG vp) in
  0 <= zoomProgress (appState w)
  /\ (currentLayerIndex (appState w) = 0%nat ->
      zoomProgress (appState w) <= 200)
  /\ (currentLayerIndex (appState w) <> 0%nat ->
      forall layer,
        currentLayer DEFAULT_CONFIG (appState w) = Some layer ->
        zoomProgress (appState w) <= maxProgress vp (Layer.nodes layer)).
Proof.
  apply (zoom_bound_invariant DEFAULT_CONFIG (Viewport.mk 1000 1000)).
  - intros i layer _ _. apply maxProgress_nonneg.
    cbn [Viewport.width Viewport.height]. rewrite Rmin_left by lra. lra.
  - apply reachable_step; [apply reachable_init | exact I].
Defined.

(** ** The silent transition and the zooming node *)

(** C1 (amended). Whenever the silent layer transition is carried out (the
    node has children that resolve to a layer), it resets both pieces of
    zoom state: afterwards [zoomProgress] is 0 and [zoomingNode] is none. *)
Theorem silent_transition_resets_zoom :
  forall config c s node target nodeColor,
    truthy (Node.children node) = true ->
    layerIndexOf config (Node.children node) = Some target ->
    nodeColorOf config c node = Some nodeColor ->
    let s' := fst (handleSilentLayerTransition config c node s) in
    zoomProgress s' = 0 /\ zoomingNode s' = None
    /\ currentLayerIndex s' = target.
Proof.
  intros config c s node target nodeColor Hc Ht Hn s'. unfold s'.
  unfold handleSilentLayerTransition. rewrite Hc, Ht, Hn.
  repeat split.
Qed.

(** C1 (witness): the transition requested when the first wheel event on
    "water cycle" crosses the threshold. *)
Lemma silent_transition_resets_zoom_witness :
  let c := initialState DEFAULT_CONFIG (Viewport.mk 1920 1080) in
  let s' := fst (handleSilentLayerTransition DEFAULT_CONFIG c node_1
                   (fst (handleZoomProgress DEFAULT_CONFIG c (Some node_1)
                           600 c))) in
  zoomProgress s' = 0 /\ zoomingNode s' = None
  /\ currentLayerIndex s' = 1%nat.
Proof.
  apply (silent_transition_resets_zoom DEFAULT_CONFIG _ _ node_1 1%nat
           "#2563eb"%string); reflexivity.
Defined.

Lemma root_handler_cross vp p zn deltaY :
  0 <= p < 84 -> 0 < deltaY -> 84 <= p + deltaY * 0.15 ->
  handleZoomProgress DEFAULT_CONFIG (rootZooming vp p zn) (Some node_1)
    deltaY (rootZooming vp p zn)
  = (rootZooming vp (Rmin 200 (p + deltaY * 0.15))
       (if Reqb p 0 then Some node_1 else zn),
     [RequestAnimationFrame
        (SilentLayerTransition (rootZooming vp p zn) node_1)]).
Proof.
  intros Hp Hd Hge.
  rewrite (handleZoomProgress_update DEFAULT_CONFIG _ _ _ layer_1);
    try reflexivity.
  2:{ rewrite (proj2 (Rltb_true _ _) Hd). reflexivity. }
  2:{ rewrite (proj2 (Rltb_false _ _)) by lra. reflexivity. }
  cbv zeta. unfold progressBound, transitionThreshold.
  cbn [currentLayerIndex zoomProgress rootZooming Nat.ltb Nat.leb Nat.eqb].
  rewrite (Rmax_right 0 (p + deltaY * 0.15)) by lra.
  assert (Hnew : 84 <= Rmin 200 (p + deltaY * 0.15))
    by (apply Rmin_glb; lra).
  rewrite (proj2 (Rleb_true _ _) Hnew).
  rewrite (proj2 (Rltb_true p 84)) by lra.
  rewrite (proj2 (Reqb_false (Rmin 200 (p + deltaY * 0.15)) 0)) by lra.
  rewrite (proj2 (Rltb_true 0 deltaY)) by assumption.
  reflexivity.
Qed.

(** C1 (counterexample). A wheel event of delta 600 on "water cycle" takes
    the progress from 0 to 90 and requests the silent transition; when the
    transition has run the progress is 0 again and no node is zooming. *)
Lemma silent_transition_changes_zoom :
  let c := initialState DEFAULT_CONFIG (Viewport.mk 1920 1080) in
  let fired := handleZoomProgress DEFAULT_CONFIG c (Some node_1) 600 c in
  let s' := fst (handleSilentLayerTransition DEFAULT_CONFIG c node_1
                   (fst fired)) in
  snd fired = [RequestAnimationFrame (SilentLayerTransition c node_1)]
  /\ zoomProgress (fst fired) = 90
  /\ zoomingNode (fst fired) = Some node_1
  /\ zoomProgress s' <> zoomProgress (fst fired)
  /\ zoomingNode s' <> zoomingNode (fst fired).
Proof.
  cbv zeta. rewrite initialState_rootZooming.
  rewrite root_handler_cross by lra.
  cbn [fst snd zoomProgress zoomingNode rootZooming].
  rewrite (proj2 (Reqb_true 0 0)) by reflexivity.
  assert (H90 : Rmin 200 (0 + 600 * 0.15) = 90)
    by (rewrite Rmin_right; lra).
  rewrite H90. repeat split; try reflexivity.
  - cbn. lra.
  - cbn. discriminate.
Qed.

Lemma handleZoomProgress_zoomingNode config c node deltaY :
  let r := handleZoomProgress config c node deltaY c in
  zoomingNode (fst r) = zoomingNode c
  \/ zoomingNode (fst r) = None
  \/ (0 < deltaY /\ zoomProgress c = 0 /\ zoomingNode (fst r) = node).
Proof.
  cbv zeta.
  destruct (isZooming c) eqn:Hz.
  { rewrite handleZoomProgress_locked by assumption. now left. }
  destruct (Rltb 0 deltaY && negb (truthy (childrenOf node))) eqn:Hterm.
  { apply andb_true_iff in Hterm. destruct Hterm as [Hd Hc].
    apply Rltb_true in Hd. apply negb_true_iff in Hc.
    rewrite handleZoomProgress_terminal by assumption. now left. }
  destruct (Rltb deltaY 0 && Reqb (zoomProgress c) 0
            && (0 <? currentLayerIndex c)%nat) eqn:Hrev.
  { assert (Hres : handleZoomProgress config c node deltaY c
                   = handleReverseLayerTransition c c).
    { unfold handleZoomProgress. now rewrite Hz, Hterm, Hrev. }
    rewrite Hres.
    destruct (handleReverseLayerTransition_cases c c)
      as [Hskip | (ph & _ & _ & _ & Hrun)];
      [rewrite Hskip | rewrite Hrun]; now left. }
  destruct (currentLayer config c) as [layer|] eqn:Hlayer.
  - rewrite (handleZoomProgress_update config c node deltaY layer
               Hz Hterm Hrev Hlayer).
    cbv zeta. cbn [fst zoomingNode].
    destruct (Reqb _ 0 && Rltb 0 (zoomProgress c)
              && (0 <? currentLayerIndex c)%nat); [right; now left|].
    destruct (Rltb 0 deltaY && Reqb (zoomProgress c) 0) eqn:Hstart;
      [|now left].
    apply andb_true_iff in Hstart. destruct Hstart as [Hd Hzero].
    apply Rltb_true in Hd. apply Reqb_true in Hzero.
    right; right. auto.
  - unfold handleZoomProgress. rewrite Hz, Hterm, Hrev.
    destruct (Rltb 0 deltaY && Reqb (zoomProgress c) 0) eqn:Hstart;
      unfold setZoomProgressWith, zoomProgressUpdater, andThen at 1;
      hsimpl; rewrite Hlayer; hsimpl; [|now left].
    apply andb_true_iff in Hstart. destruct Hstart as [Hd Hzero].
    apply Rltb_true in Hd. apply Reqb_true in Hzero.
    right; right. auto.
Qed.

(** C10. [handleZoomProgress] assigns [zoomingNode] only when a zoom with
    positive delta starts from progress 0.  When it is called with a positive
    delta on an expandable node B while progress accumulated on a node A is
    pending, [zoomingNode] stays A, the shared progress takes the increment
    (up to the bound of the layer), and if the call crosses the threshold
    the transition it requests is for B and enters the layer B opens. *)
Theorem zooming_node_set_only_from_zero :
  forall config,
    (forall c node deltaY,
        let r := handleZoomProgress config c node deltaY c in
        zoomingNode (fst r) = zoomingNode c
        \/ zoomingNode (fst r) = None
        \/ (0 < deltaY /\ zoomProgress c = 0 /\ zoomingNode (fst r) = node))
    /\ (forall c A B deltaY layer ts,
           isZooming c = false ->
           0 < deltaY ->
           truthy (Node.children B) = true ->
           currentLayer config c = Some layer ->
           zoomingNode c = Some A ->
           0 < zoomProgress c <= progressBound c layer ->
           let r := handleZoomProgress config c (Some B) deltaY c in
           zoomingNode (fst r) = Some A
           /\ zoomProgress (fst r)
              = Rmin (progressBound c layer) (zoomProgress c + deltaY * 0.15)
           /\ zoomProgress c <= zoomProgress (fst r)
           /\ (zoomProgress c < progressBound c layer ->
               zoomProgress c < zoomProgress (fst r))
           /\ (zoomProgress c < transitionThreshold c <= zoomProgress (fst r) ->
               snd r = [RequestAnimationFrame (SilentLayerTransition c B)]
               /\ forall target nodeColor,
                    layerIndexOf config (Node.children B) = Some target ->
                    nodeColorOf config c B = Some nodeColor ->
                    currentLayerIndex
                      (appState
                         (dispatch config (ZoomProgress (Some B) deltaY)
                            (mkWorld c ts)))
                    = target)).
Proof.
  intros config. split; [apply handleZoomProgress_zoomingNode|].
  intros c A B deltaY layer ts Hz Hd HB Hlayer HA [Hpos Hle] r.
  assert (Hterm : Rltb 0 deltaY && negb (truthy (childrenOf (Some B))) = false).
  { cbn [childrenOf]. rewrite HB. apply andb_false_r. }
  assert (Hrev : Rltb deltaY 0 && Reqb (zoomProgress c) 0
                 && (0 <? currentLayerIndex c)%nat = false).
  { rewrite (proj2 (Rltb_false deltaY 0)) by lra. reflexivity. }
  assert (Hrun := handleZoomProgress_update config c (Some B) deltaY layer
                    Hz Hterm Hrev Hlayer).
  cbv zeta in Hrun. fold r in Hrun.
  rewrite (Rmax_right 0 (zoomProgress c + deltaY * 0.15)) in Hrun by lra.
  set (np := Rmin (progressBound c layer) (zoomProgress c + deltaY * 0.15))
    in *.
  assert (Hnp : zoomProgress c <= np) by (apply Rmin_glb; lra).
  assert (Hback : Reqb np 0 = false) by (apply Reqb_false; lra).
  assert (Hstart : Reqb (zoomProgress c) 0 = false) by (apply Reqb_false; lra).
  rewrite Hback, Hstart, andb_false_r in Hrun. cbn [andb] in Hrun.
  cbn [childrenOf] in Hrun. rewrite HB, andb_true_r in Hrun.
  rewrite app_nil_r in Hrun.
  rewrite Hrun. cbn [fst snd zoomProgress zoomingNode].
  split; [assumption|]. split; [reflexivity|]. split; [assumption|]. split.
  - intros Hlt. unfold np. apply Rmin_glb_lt; lra.
  - intros [Hlow Hhigh].
    rewrite (proj2 (Rleb_true _ _) Hhigh), (proj2 (Rltb_true _ _) Hlow).
    split; [reflexivity|].
    intros target nodeColor Ht Hn.
    unfold dispatch. cbn [appState timers handle]. fold r. rewrite Hrun.
    rewrite (proj2 (Rleb_true _ _) Hhigh), (proj2 (Rltb_true _ _) Hlow).
    cbn [andb settle runFrame].
    unfold handleSilentLayerTransition. rewrite HB, Ht, Hn. reflexivity.
Qed.

Lemma scale_layer_2_1000x1000 :
  calculateResponsiveScale (Some (Viewport.mk 1000 1000))
    (Some (Layer.nodes layer_2)) 165 = 70 / 99.
Proof.
  unfold calculateResponsiveScale. simpl List.length. simpl Nat.leb.
  cbv iota. cbn [Viewport.width Viewport.height].
  rewrite unclampedScale_layer_2_1000x1000. apply clamp_mid. lra.
Qed.

Lemma maxProgress_layer_2_1000x1000 :
  maxProgress (Viewport.mk 1000 1000) (Layer.nodes layer_2) = 165.625.
Proof.
  unfold maxProgress. rewrite scale_layer_2_1000x1000.
  cbn [Viewport.width Viewport.height]. rewrite Rmin_left by lra. lra.
Qed.

(** C10 (witness). On "layer-2" of a 1000 x 1000 viewport, with progress 45
    accumulated on "what is it ?", a wheel event of delta 50 on "4 layers". *)
Lemma zooming_node_set_only_from_zero_witness :
  let c := layer2Zooming (Viewport.mk 1000 1000) 45 (Some node_2_1) in
  let r := handleZoomProgress DEFAULT_CONFIG c (Some node_2_2) 50 c in
  zoomingNode (fst r) = Some node_2_1
  /\ zoomProgress (fst r) = Rmin (progressBound c layer_2) (45 + 50 * 0.15)
  /\ 45 <= zoomProgress (fst r).
Proof.
  destruct (zooming_node_set_only_from_zero DEFAULT_CONFIG) as [_ H].
  destruct (H (layer2Zooming (Viewport.mk 1000 1000) 45 (Some node_2_1))
              node_2_1 node_2_2 50 layer_2 [])
    as (Hnode & Hprog & Hle & _); try reflexivity; try lra.
  - unfold progressBound.
    cbn [currentLayerIndex zoomProgress viewport layer2Zooming Nat.ltb Nat.leb].
    rewrite maxProgress_layer_2_1000x1000. lra.
  - cbv zeta. repeat split; assumption.
Defined.

(** ** The reverse transition *)

(** What the animated reverse transition does, from start to end: the
    immediate updates, the swap after 50 ms and the release of [isZooming]
    after 750 ms.  The zoom progress and the zooming node are not among the
    fields it writes. *)
Lemma reverse_transition_effect config c :
  currentLayerIndex c <> 0%nat ->
  (2 <= List.length (history c))%nat ->
  exists prevHistory,
    nth_error (history c) (List.length (history c) - 2) = Some prevHistory
    /\ handleReverseLayerTransition c c
       = (reversing prevHistory c,
          [SetTimeout (ReverseSwap prevHistory) 50;
           SetTimeout ZoomingOff 750])
    /\ isZooming (reversing prevHistory c) = true
    /\ backgroundColor (reversing prevHistory c)
       = HistoryEntry.color prevHistory
    /\ (let s1 := fst (runTimer config (ReverseSwap prevHistory)
                         (reversing prevHistory c)) in
        let s2 := fst (runTimer config ZoomingOff s1) in
        history s1 = removelast (history c)
        /\ nth_error (history s1) (List.length (history s1) - 1)
           = Some prevHistory
        /\ currentLayerIndex s1 = HistoryEntry.layerIndex prevHistory
        /\ scale s1 = 1 /\ panX s1 = 0 /\ panY s1 = 0
        /\ isZooming s2 = false
        /\ zoomProgress s2 = zoomProgress c
        /\ zoomingNode s2 = zoomingNode c).
Proof.
  intros Hl Hh.
  destruct (handleReverseLayerTransition_fires c c Hl Hh) as (ph & Hp & Hrun).
  exists ph. split; [assumption|]. split; [assumption|].
  cbn. repeat split.
  rewrite <- Hp. clear Hp Hrun.
  destruct (history c) as [|a l] using rev_ind; [cbn in Hh; lia|].
  rewrite removelast_last, length_app in *. cbn [List.length] in *.
  replace (List.length l + 1 - 2)%nat with (List.length l - 1)%nat by lia.
  rewrite nth_error_app1; [reflexivity | lia].
Qed.

Lemma reachable_run config allowed vp actions :
  forall w,
    reachable config allowed vp w ->
    enabledAlong config allowed actions w ->
    reachable config allowed vp (run config actions w).
Proof.
  induction actions as [|a rest IH]; intros w Hreach Hen; cbn.
  - assumption.
  - destruct Hen as [Ha Hrest]. apply IH; [|assumption].
    now apply reachable_step.
Qed.

Lemma rightClickTrace_prefix :
  run DEFAULT_CONFIG
    [waterCycleZoom 600; Dispatch (ZoomProgress (Some node_2_1) 300)]
    (initialWorld DEFAULT_CONFIG (Viewport.mk 1000 1000))
  = mkWorld (layer2Zooming (Viewport.mk 1000 1000) 45 (Some node_2_1))
      [(50%nat, SilentOff)].
Proof.
  unfold run. cbn [fold_left perform waterCycleZoom].
  unfold initialWorld. rewrite initialState_rootZooming.
  rewrite root_step_cross by lra. cbn [List.app].
  assert (Hnp : Rmin (maxProgress (Viewport.mk 1000 1000) (Layer.nodes layer_2))
                  (300 * 0.15) = 45).
  { rewrite maxProgress_layer_2_1000x1000. rewrite Rmin_right; lra. }
  rewrite layer2_first_step; rewrite ?Hnp; try lra. reflexivity.
Qed.

Lemma run_app config actions1 actions2 w :
  run config (actions1 ++ actions2) w
  = run config actions2 (run config actions1 w).
Proof. unfold run. apply fold_left_app. Qed.

Lemma rightClickTrace_suffix vp :
  run DEFAULT_CONFIG rightClickSuffix
    (mkWorld (layer2Zooming vp 45 (Some node_2_1)) [(50%nat, SilentOff)])
  = mkWorld (backOnRoot vp) [].
Proof. reflexivity. Qed.

Lemma rightClickTrace_run :
  run DEFAULT_CONFIG rightClickTrace
    (initialWorld DEFAULT_CONFIG (Viewport.mk 1000 1000))
  = mkWorld (backOnRoot (Viewport.mk 1000 1000)) [].
Proof.
  change rightClickTrace
    with ([waterCycleZoom 600; Dispatch (ZoomProgress (Some node_2_1) 300)]
          ++ rightClickSuffix).
  rewrite run_app, rightClickTrace_prefix. apply rightClickTrace_suffix.
Qed.

(** C2 (the failing input). The trace is a run of the application; when
    the reverse transition has completed the application is back on the
    root layer with a one-entry history, but the progress is still 45 and
    the zooming node is still "what is it ?". *)
Theorem reverse_transition_keeps_zoom_state :
  let vp := Viewport.mk 1000 1000 in
  let w := run DEFAULT_CONFIG rightClickTrace (initialWorld DEFAULT_CONFIG vp) in
  reachable DEFAULT_CONFIG (fun _ => True) vp w
  /\ timers w = []
  /\ currentLayerIndex (appState w) = 0%nat
  /\ List.length (history (appState w)) = 1%nat
  /\ backgroundColor (appState w) = "#0a0e27"%string
  /\ isZooming (appState w) = false
  /\ zoomProgress (appState w) = 45
  /\ zoomingNode (appState w) = Some node_2_1.
Proof.
  cbv zeta. split.
  - change rightClickTrace
      with ([waterCycleZoom 600; Dispatch (ZoomProgress (Some node_2_1) 300)]
            ++ rightClickSuffix).
    rewrite run_app. apply reachable_run.
    + apply reachable_run; [apply reachable_init | cbn; auto].
    + rewrite rightClickTrace_prefix.
      cbn. repeat split; auto; repeat constructor; eauto.
  - rewrite rightClickTrace_run. repeat split; reflexivity.
Qed.

(** ** Instances on the configured application *)

(** C6 (witness): the single node of the root layer. *)
Lemma calculateResponsiveScale_bounds_witness :
  calculateResponsiveScale (Some (Viewport.mk 375 667))
    (Some (Layer.nodes layer_1)) 165 = 1.
Proof.
  destruct calculateResponsiveScale_bounds as (_ & Hsingle & _).
  apply Hsingle. cbn. lia.
Defined.

(** C8 (witness): the wheel event of delta 600 on "water cycle" crosses the
    threshold of the root layer and asks for the transition once. *)
Lemma threshold_fires_once_per_crossing_witness :
  let c := rootZooming (Viewport.mk 1920 1080) 0 None in
  silentRequests (snd (handleZoomProgress DEFAULT_CONFIG c (Some node_1) 600 c))
  = 1%nat.
Proof.
  cbv zeta.
  destruct (threshold_fires_once_per_crossing DEFAULT_CONFIG
              (rootZooming (Viewport.mk 1920 1080) 0 None) (Some node_1) 600)
    as (_ & Hiff & _).
  apply Hiff. rewrite root_handler_cross by lra.
  cbn [fst zoomProgress rootZooming transitionThreshold currentLayerIndex
       Nat.eqb].
  rewrite Rmin_right by lra. lra.
Defined.


(** * Further properties *)

(** ** The layout engine on a roomy viewport *)

Lemma distance_sym width height node1 node2 :
  distance width height node1 node2 = distance width height node2 node1.
Proof. unfold distance. f_equal. ring. Qed.

Lemma distance_self width height node : distance width height node node = 0.
Proof.
  unfold distance.
  replace (_ * _ + _ * _) with 0 by ring. apply sqrt_0.
Qed.

Lemma overlapStep_roomy width height baseSize node1 minScale node2 :
  ~ tooClose width height baseSize node1 node2 ->
  overlapStep width height baseSize node1 minScale node2 = minScale.
Proof.
  intros Hfar. unfold overlapStep.
  destruct (Rltb _ (baseSize * 1.2)) eqn:Hlt; [|reflexivity].
  destruct (Rltb 0 _) eqn:Hpos; [|reflexivity].
  apply Rltb_true in Hlt, Hpos. exfalso. apply Hfar. split; assumption.
Qed.

Lemma fold_overlapStep_roomy width height baseSize node1 rest :
  (forall node2, In node2 rest ->
                 ~ tooClose width height baseSize node1 node2) ->
  forall minScale,
    fold_left (overlapStep width height baseSize node1) rest minScale
    = minScale.
Proof.
  induction rest as [|n rest IH]; intros Hfar minScale; simpl; [reflexivity|].
  rewrite overlapStep_roomy by (apply Hfar; now left).
  apply IH. intros node2 Hin. apply Hfar. now right.
Qed.

Lemma overlapLoop_roomy width height baseSize allNodes :
  (forall node1 node2, In node1 allNodes -> In node2 allNodes ->
                       ~ tooClose width height baseSize node1 node2) ->
  forall minScale,
    overlapLoop width height baseSize allNodes minScale = minScale.
Proof.
  induction allNodes as [|n rest IH]; intros Hfar minScale; simpl;
    [reflexivity|].
  rewrite fold_overlapStep_roomy.
  - apply IH. intros node1 node2 H1 H2. apply Hfar; now right.
  - intros node2 Hin. apply Hfar; [now left | now right].
Qed.

(** X1. When no two nodes are too close (every pair is at distance 0 or at
    least 1.2 times the base size apart) and no node is clipped by the
    viewport at full size, [calculateResponsiveScale] leaves the nodes at
    full size: the scale is exactly 1. *)
Theorem scale_is_one_on_roomy_viewport :
  forall vp allNodes baseSize,
    (forall node1 node2, In node1 allNodes -> In node2 allNodes ->
       ~ tooClose (Viewport.width vp) (Viewport.height vp) baseSize
           node1 node2) ->
    (forall node, In node allNodes ->
       clipped (Viewport.width vp) (Viewport.height vp) baseSize 1 node
       = false) ->
    calculateResponsiveScale (Some vp) (Some allNodes) baseSize = 1.
Proof.
  intros vp allNodes baseSize Hfar Hin. unfold calculateResponsiveScale.
  destruct (List.length allNodes <=? 1)%nat; [reflexivity|].
  unfold unclampedScale.
  rewrite overlapLoop_roomy by assumption.
  rewrite fold_boundaryStep_unclipped by assumption.
  rewrite Rmin_left by lra. apply Rmax_right. lra.
Qed.

(** X1 (witness): the two nodes of "layer-2" on a 1920 x 1080 viewport are
    268.8 px apart and away from the edges. *)
Lemma scale_is_one_on_roomy_viewport_witness :
  calculateResponsiveScale (Some (Viewport.mk 1920 1080))
    (Some (Layer.nodes layer_2)) 165 = 1.
Proof.
  apply scale_is_one_on_roomy_viewport.
  - cbn [Viewport.width Viewport.height].
    assert (H12 : distance 1920 1080 node_2_1 node_2_2 = 268.8).
    { rewrite distance_layer_2; lra. }
    intros node1 node2 [<- | [<- | []]] [<- | [<- | []]];
      unfold tooClose;
      rewrite ?distance_self, ?(distance_sym _ _ node_2_2 node_2_1), ?H12;
      lra.
  - cbn [Viewport.width Viewport.height].
    intros node [<- | [<- | []]]; unfold clipped;
      cbn [Node.x Node.y node_2_1 node_2_2];
      decide_Rltb; reflexivity.
Defined.

(** ** What the [Node] component draws *)

Lemma responsiveScale_nodeProps c layer node :
  NodeView.responsiveScale (nodeProps c layer node)
  = calculateResponsiveScale (Some (viewport c)) (Some (Layer.nodes layer))
      165.
Proof. reflexivity. Qed.

(** X2. On a layer below the root a node is drawn with a diameter between
    49.5 px and 165 px and a label between 12 px and 18 px, whatever the
    viewport and the zoom progress; on every layer the opacity of its label
    stays between 0 and 1. *)
Theorem node_size_bounds :
  forall c layer node,
    let p := nodeProps c layer node in
    0 <= NodeView.labelOpacity p <= 1
    /\ (currentLayerIndex c <> 0%nat ->
        49.5 <= NodeView.size p <= 165
        /\ 12 <= NodeView.fontSize p <= 18).
Proof.
  intros c layer node p. split.
  - unfold NodeView.labelOpacity, p, nodeProps.
    cbn [NodeProps.zoomProgress NodeProps.textOpacity NodeProps.node
         NodeProps.isFirstLayer].
    set (zp := if isZoomingNode (zoomingNode c) node then zoomProgress c else 0).
    assert (Hown : (match (if (currentLayerIndex c =? 0)%nat
                           then Some 1 else None) with
                    | Some o => o
                    | None => 1
                    end) = 1).
    { destruct (currentLayerIndex c =? 0)%nat; reflexivity. }
    rewrite Hown.
    destruct (truthy (Node.children node) && Rltb 0 zp) eqn:Hgo; [|lra].
    apply andb_true_iff in Hgo. destruct Hgo as [_ Hpos].
    apply Rltb_true in Hpos.
    destruct (currentLayerIndex c =? 0)%nat.
    + unfold Rmax. destruct (Rle_dec 0 (1 - zp / 120)); lra.
    + destruct (Rleb 60 zp) eqn:H60; [|lra].
      apply Rleb_true in H60.
      unfold Rmax. destruct (Rle_dec 0 (1 - (zp - 60) / 30)); lra.
  - intros Hl.
    pose proof (scale_in_range (viewport c) (Layer.nodes layer) 165) as Hs.
    unfold NodeView.size, NodeView.fontSize, p.
    rewrite responsiveScale_nodeProps.
    unfold nodeProps. cbn [NodeProps.isFirstLayer].
    rewrite (proj2 (Nat.eqb_neq _ _) Hl).
    unfold NodeView.baseSize.
    set (rs := calculateResponsiveScale _ _ _) in *.
    split; [lra|].
    unfold Rmax, Rmin.
    destruct (Rle_dec 18 (18 * rs)); destruct (Rle_dec 12 _); lra.
Qed.

(** X2 (witness): a node of "layer-2" on a phone in portrait. *)
Lemma node_size_bounds_witness :
  let p := nodeProps (enteredLayer2 (Viewport.mk 375 667)) layer_2 node_2_1 in
  49.5 <= NodeView.size p <= 165 /\ 12 <= NodeView.fontSize p <= 18.
Proof.
  apply (node_size_bounds (enteredLayer2 (Viewport.mk 375 667))
           layer_2 node_2_1).
  cbn. lia.
Defined.

(** X3. On a layer below the root, while the zoom progress lies between 0
    and the bound [maxProgress] of the layer, a node never appears larger
    than the size the bound was computed for: its diameter times the scale
    of the canvas is at most 1.75 times 95% of the smaller side of the
    viewport. *)
Theorem zoomed_node_fits :
  forall c layer node,
    currentLayerIndex c <> 0%nat ->
    0 <= zoomProgress c
      <= maxProgress (viewport c) (Layer.nodes layer) ->
    NodeView.size (nodeProps c layer node) * canvasScale c
    <= Rmin (Viewport.width (viewport c)) (Viewport.height (viewport c))
       * 0.95 * 1.75.
Proof.
  intros c layer node Hl [Hlow Hhigh].
  pose proof (scale_in_range (viewport c) (Layer.nodes layer) 165) as Hs.
  unfold NodeView.size. rewrite responsiveScale_nodeProps.
  unfold nodeProps at 1. cbn [NodeProps.isFirstLayer].
  unfold canvasScale. rewrite (proj2 (Nat.eqb_neq _ _) Hl).
  unfold NodeView.baseSize.
  unfold maxProgress in Hhigh.
  set (rs := calculateResponsiveScale _ _ _) in *.
  set (m := Rmin (Viewport.width (viewport c)) (Viewport.height (viewport c))
            * 0.95 * 1.75) in *.
  set (zp := zoomProgress c) in *.
  assert (Hi : 0 < 165 * rs) by lra.
  assert (Hfit : (165 * rs) * (1 + zp / 100 * 8) <= m).
  { assert (Hq : 1 + zp / 100 * 8 <= m / (165 * rs)).
    { assert (Hstep : zp * (8 / 100) <= m / (165 * rs) - 1).
      { apply (Rmult_le_compat_r (8 / 100)) in Hhigh; [|lra].
        unfold Rdiv at 2 in Hhigh.
        rewrite Rmult_assoc, Rinv_l in Hhigh by lra. lra. }
      lra. }
    apply (Rmult_le_compat_l (165 * rs)) in Hq; [|lra].
    unfold Rdiv at 2 in Hq. rewrite (Rmult_comm m) in Hq.
    rewrite <- Rmult_assoc, Rinv_r in Hq by lra. lra. }
  assert (Hbase : 165 * rs <= m).
  { assert (0 <= (165 * rs) * (zp / 100 * 8)).
    { apply Rmult_le_pos; lra. }
    lra. }
  destruct (isRewindMode c) eqn:Hrew.
  - unfold isRewindMode in Hrew. apply andb_true_iff in Hrew.
    destruct Hrew as [_ Hpos]. apply Rltb_true in Hpos. fold zp in Hpos.
    assert (Hk : 0 < 1 + zp / 100 * 8) by lra.
    assert (Hinv : 1 / (1 + zp / 100 * 8) <= 1).
    { apply (Rmult_le_reg_r (1 + zp / 100 * 8)); [assumption|].
      unfold Rdiv. rewrite Rmult_assoc, Rinv_l by lra. lra. }
    apply Rle_trans with (165 * rs * 1); [|lra].
    apply Rmult_le_compat_l; lra.
  - destruct (zoomingNode c); [|lra].
    destruct (Rltb 0 zp); lra.
Qed.

(** X3 (witness): "layer-2" on a 1000 x 1000 viewport, with progress 45 on
    the node "what is it ?"; the bound of the layer is 165.625. *)
Lemma zoomed_node_fits_witness :
  let c := layer2Zooming (Viewport.mk 1000 1000) 45 (Some node_2_1) in
  NodeView.size (nodeProps c layer_2 node_2_1) * canvasScale c
  <= Rmin 1000 1000 * 0.95 * 1.75.
Proof.
  apply (zoomed_node_fits
           (layer2Zooming (Viewport.mk 1000 1000) 45 (Some node_2_1))
           layer_2 node_2_1).
  - cbn. lia.
  - cbn [layer2Zooming zoomProgress viewport].
    rewrite maxProgress_layer_2_1000x1000. lra.
Defined.

(** X4. The preview of the next layer matches the node it is revealed in:
    on a layer below the root, for the node being zoomed, the opacity of
    the label and the opacity of the preview add up to 1 at every positive
    progress, and outside rewind mode the counter-scale of the preview
    cancels the scale of the canvas. *)
Theorem preview_matches_zoomed_node :
  forall c layer node,
    currentLayerIndex c <> 0%nat ->
    truthy (Node.children node) = true ->
    isZoomingNode (zoomingNode c) node = true ->
    0 < zoomProgress c ->
    NodeView.labelOpacity (nodeProps c layer node)
      + previewOpacity (zoomProgress c) = 1
    /\ (isRewindMode c = false ->
        canvasScale c * previewScale (zoomProgress c) = 1).
Proof.
  intros c layer node Hl Hch Hzn Hpos. split.
  - unfold NodeView.labelOpacity, nodeProps, previewOpacity.
    cbn [NodeProps.zoomProgress NodeProps.textOpacity NodeProps.node
         NodeProps.isFirstLayer].
    rewrite Hzn, Hch, (proj2 (Nat.eqb_neq _ _) Hl).
    rewrite (proj2 (Rltb_true _ _) Hpos). cbn [andb].
    set (zp := zoomProgress c) in *.
    destruct (Rleb 60 zp) eqn:H60.
    + apply Rleb_true in H60. unfold Rmax, Rmin.
      destruct (Rle_dec 0 (1 - (zp - 60) / 30));
        destruct (Rle_dec 1 ((zp - 60) / 30));
        destruct (Rle_dec 0 _); lra.
    + apply Rleb_false in H60. unfold Rmax, Rmin.
      destruct (Rle_dec 1 ((zp - 60) / 30)); destruct (Rle_dec 0 _); lra.
  - intros Hrew. unfold canvasScale, previewScale.
    rewrite (proj2 (Nat.eqb_neq _ _) Hl), Hrew.
    destruct (zoomingNode c) as [zn|]; [|discriminate].
    rewrite (proj2 (Rltb_true _ _) Hpos).
    field. lra.
Qed.

(** X4 (witness): progress 75 on "what is it ?": the label is at 0.5 and
    the preview at 0.5. *)
Lemma preview_matches_zoomed_node_witness :
  let c := layer2Zooming (Viewport.mk 1000 1000) 75 (Some node_2_1) in
  NodeView.labelOpacity (nodeProps c layer_2 node_2_1)
    + previewOpacity (zoomProgress c) = 1
  /\ (isRewindMode c = false ->
      canvasScale c * previewScale (zoomProgress c) = 1).
Proof.
  apply (preview_matches_zoomed_node
           (layer2Zooming (Viewport.mk 1000 1000) 75 (Some node_2_1))
           layer_2 node_2_1).
  - cbn. lia.
  - reflexivity.
  - reflexivity.
  - cbn. lra.
Defined.

(** ** What the [Node] component forwards *)

(** X5. Whatever the input on a node of the current layer (wheel, right
    click, click, tap, long press), the node forwards nothing during a
    transition and never calls [handleNodeClick]: it calls
    [handleZoomProgress] for itself, zooming in only when it has children
    and out only below the root layer, or it asks for the reverse
    transition, below the root layer only. *)
Theorem node_inputs_forward :
  forall c layer node input call,
    NodeView.forwards (nodeProps c layer node) input = Some call ->
    isZooming c = false
    /\ ((eventOf call = TriggerReverseTransition
         /\ currentLayerIndex c <> 0%nat)
        \/ exists deltaY,
             eventOf call = ZoomProgress (Some node) deltaY
             /\ deltaY <> 0
             /\ (0 < deltaY -> truthy (Node.children node) = true)
             /\ (deltaY < 0 -> currentLayerIndex c <> 0%nat)).
Proof.
  intros c layer node input call.
  unfold NodeView.forwards, NodeView.handleNodeWheel,
    NodeView.handleNodeRightClick, NodeView.clickZoom, NodeView.longPress,
    nodeProps.
  cbn [NodeProps.isZooming NodeProps.isFirstLayer NodeProps.node
       NodeProps.onZoomProgress NodeProps.zoomProgress].
  destruct (isZooming c).
  { destruct input; cbn [negb andb]; rewrite ?andb_false_r; discriminate. }
  destruct (currentLayerIndex c =? 0)%nat eqn:Hl;
    [apply Nat.eqb_eq in Hl | apply Nat.eqb_neq in Hl];
    (split; [reflexivity|]);
    destruct input as [deltaY | | | |]; cbn [negb andb] in *;
    rewrite ?andb_true_r, ?andb_false_r in *;
    repeat match goal with
      | H : (if ?b then _ else _) = Some _ |- _ =>
          let E := fresh "E" in destruct b eqn:E
      | H : Some _ = Some _ |- _ => injection H as <-
      | H : None = Some _ |- _ => discriminate H
      | E : _ && _ = true |- _ => apply andb_true_iff in E; destruct E
      | E : Rltb _ _ = true |- _ => apply Rltb_true in E
      end;
    cbn [eventOf];
    try (left; split; [reflexivity | assumption]);
    right; eexists; (split; [reflexivity|]);
    (split; [lra|]); split; intros; (assumption || lra || congruence).
Qed.

(** X5 (witness): a right click on "4 layers" while the progress belongs to
    "what is it ?" asks for the reverse transition. *)
Lemma node_inputs_forward_witness :
  let c := layer2Zooming (Viewport.mk 1000 1000) 45 (Some node_2_1) in
  isZooming c = false
  /\ ((eventOf TriggerReverse = TriggerReverseTransition
       /\ currentLayerIndex c <> 0%nat)
      \/ exists deltaY,
           eventOf TriggerReverse = ZoomProgress (Some node_2_2) deltaY
           /\ deltaY <> 0
           /\ (0 < deltaY -> truthy (Node.children node_2_2) = true)
           /\ (deltaY < 0 -> currentLayerIndex c <> 0%nat)).
Proof.
  apply (node_inputs_forward
           (layer2Zooming (Viewport.mk 1000 1000) 45 (Some node_2_1))
           layer_2 node_2_2 RightClick TriggerReverse).
  unfold NodeView.forwards, NodeView.handleNodeRightClick, nodeProps.
  cbn [NodeProps.isZooming NodeProps.isFirstLayer NodeProps.zoomProgress
       NodeProps.onZoomProgress layer2Zooming isZooming currentLayerIndex
       zoomingNode zoomProgress Nat.eqb].
  replace (isZoomingNode (Some node_2_1) node_2_2) with false by reflexivity.
  decide_Rltb. reflexivity.
Defined.

(** ** How the dispatch of an event ends *)

Lemma findIndex_lt {A : Type} (p : A -> bool) (l : list A) i :
  findIndex p l = Some i -> (i < List.length l)%nat.
Proof.
  revert i. induction l as [|a l IH]; intros i H; simpl in *; [discriminate|].
  destruct (p a).
  - injection H as <-. lia.
  - destruct (findIndex p l) as [j|]; [|discriminate].
    injection H as <-. specialize (IH j eq_refl). lia.
Qed.

Lemma layerIndexOf_lt config children target :
  layerIndexOf config children = Some target ->
  (target < List.length (Config.layers config))%nat.
Proof.
  unfold layerIndexOf. destruct children; [|discriminate].
  apply findIndex_lt.
Qed.

Section Settling.
Variable config : Config.t.

(** The reverse transition started from a state [s] whose history is the
    one of the render [c]. *)
Lemma reverse_settled e c s :
  isZooming c = false ->
  history s = history c -> currentLayerIndex s = currentLayerIndex c ->
  isZooming s = false -> silentTransition s = silentTransition c ->
  Settled config c e (fst (handleReverseLayerTransition c s))
    (timeouts (snd (handleReverseLayerTransition c s))).
Proof.
  intros Hz Hh Hl Hzs Hs.
  destruct (handleReverseLayerTransition_cases c s)
    as [Hskip | (ph & Hne & Hlen & Hp & Hrun)].
  - rewrite Hskip. cbn. apply settled_plain; congruence.
  - rewrite Hrun. cbn [fst snd timeouts].
    apply settled_started; cbn; auto.
Qed.

Lemma Settled_event c e e' s ts :
  (forall index, e <> Navigate index) ->
  Settled config c e s ts -> Settled config c e' s ts.
Proof.
  intros Hne H.
  destruct H as [s ? ? ? ? | n target color s1 ? ? ? ?
                 | sw s ? ? ? ? ? ? ? ? | index s He ? ? ? ? ? ?].
  - now apply settled_plain.
  - now apply settled_entered.
  - now apply settled_started.
  - now apply Hne in He.
Qed.

Lemma zoom_settled c node deltaY :
  Settled config c (ZoomProgress node deltaY)
    (fst (outcome config c (ZoomProgress node deltaY)))
    (snd (outcome config c (ZoomProgress node deltaY))).
Proof.
  unfold outcome. cbn [handle].
  destruct (isZooming c) eqn:Hz.
  { rewrite handleZoomProgress_locked by assumption.
    apply settled_plain; auto. }
  destruct (Rltb 0 deltaY && negb (truthy (childrenOf node))) eqn:Hterm.
  { apply andb_true_iff in Hterm. destruct Hterm as [Hd Hc].
    apply Rltb_true in Hd. apply negb_true_iff in Hc.
    rewrite handleZoomProgress_terminal by assumption.
    apply settled_plain; auto. }
  destruct (Rltb deltaY 0 && Reqb (zoomProgress c) 0
            && (0 <? currentLayerIndex c)%nat) eqn:Hrev.
  { assert (Hres : handleZoomProgress config c node deltaY c
                   = handleReverseLayerTransition c c).
    { unfold handleZoomProgress. now rewrite Hz, Hterm, Hrev. }
    rewrite Hres.
    pose proof (reverse_settled (ZoomProgress node deltaY) c c
                  Hz eq_refl eq_refl Hz eq_refl) as Hs.
    destruct (handleReverseLayerTransition_cases c c)
      as [Hskip | (ph & _ & _ & _ & Hrun)].
    - rewrite Hskip in *. exact Hs.
    - rewrite Hrun in *. exact Hs. }
  destruct (currentLayer config c) as [layer|] eqn:Hlayer.
  2:{ unfold handleZoomProgress. rewrite Hz, Hterm, Hrev.
      destruct (Rltb 0 deltaY && Reqb (zoomProgress c) 0);
        unfold setZoomProgressWith, zoomProgressUpdater, andThen at 1;
        hsimpl; rewrite Hlayer; hsimpl; cbn [settle fst snd];
        apply settled_plain; cbn; congruence. }
  rewrite (handleZoomProgress_update config c node deltaY layer
             Hz Hterm Hrev Hlayer).
  cbv zeta.
  set (np := Rmin (progressBound c layer)
               (Rmax 0 (zoomProgress c + deltaY * 0.15))).
  set (forward := Rleb (transitionThreshold c) np
                  && Rltb (zoomProgress c) (transitionThreshold c)
                  && truthy (childrenOf node)).
  set (backward := Reqb np 0 && Rltb 0 (zoomProgress c)
                   && (0 <? currentLayerIndex c)%nat).
  assert (Hthr : 0 < transitionThreshold c).
  { unfold transitionThreshold. destruct (_ =? _)%nat; lra. }
  destruct forward eqn:Hf; destruct backward eqn:Hb.
  - exfalso. unfold forward, backward in *.
    repeat (apply andb_true_iff in Hf; destruct Hf as [Hf ?]).
    repeat (apply andb_true_iff in Hb; destruct Hb as [Hb ?]).
    apply Rleb_true in Hf. apply Reqb_true in Hb. lra.
  - unfold forward in Hf.
    apply andb_true_iff in Hf. destruct Hf as [_ Hc].
    apply childrenOf_truthy in Hc. destruct Hc as [n ->].
    cbn [List.app settle runFrame].
    match goal with
    | |- context [handleSilentLayerTransition config c n ?s] =>
        destruct (handleSilentLayerTransition_cases config c n s)
          as [Hskip | (target & color & _ & Ht & Hn & Hrun)];
        [rewrite Hskip | rewrite Hrun]
    end; cbn [timeouts List.app fst snd].
    + apply settled_plain; cbn; congruence.
    + apply settled_entered; cbn; congruence.
  - cbn [List.app settle runFrame].
    match goal with
    | |- context [handleReverseLayerTransition c ?s] =>
        pose proof (reverse_settled (ZoomProgress node deltaY) c s
                      Hz eq_refl eq_refl eq_refl eq_refl)
          as Hs;
        destruct (handleReverseLayerTransition c s) as [s2 effs]
    end.
    cbn [fst snd] in *. rewrite app_nil_r. exact Hs.
  - cbn [List.app settle fst snd].
    apply settled_plain; cbn; congruence.
Qed.

(** Every dispatch ends in one of the four ways of [Settled]. *)
Lemma outcome_settled c e :
  Settled config c e (fst (outcome config c e)) (snd (outcome config c e)).
Proof.
  destruct e.
  - apply zoom_settled.
  - unfold outcome. cbn [handle]. unfold handleNodeClick.
    destruct (truthy (Node.children node)); cbn [negb orb];
      [|cbn; apply settled_plain; auto].
    destruct (isZooming c) eqn:Hz; [cbn; apply settled_plain; auto|].
    destruct (layerIndexOf config (Node.children node)) as [target|] eqn:Ht;
      [|cbn; apply settled_plain; auto].
    destruct (nodeColorOf config c node); cbn.
    + apply settled_started; cbn; auto.
      now apply layerIndexOf_lt with (Node.children node).
    + apply settled_plain; cbn; auto.
  - unfold outcome. cbn [handle]. unfold handleCanvasClick.
    destruct (Rltb 0 (zoomProgress c)); cbn; apply settled_plain; auto.
  - destruct (Rltb deltaY 0 && (0 <? currentLayerIndex c)%nat
              && negb (isZooming c)) eqn:Hgo.
    2:{ unfold outcome. cbn [handle]. unfold handleWheel. rewrite Hgo.
        cbn. apply settled_plain; auto. }
    destruct (Rltb 0 (zoomProgress c)) eqn:Hp.
    + replace (outcome config c (CanvasWheel deltaY))
        with (outcome config c (ZoomProgress (zoomingNode c) deltaY)).
      * apply Settled_event with (ZoomProgress (zoomingNode c) deltaY);
          [discriminate | apply zoom_settled].
      * unfold outcome. cbn [handle]. unfold handleWheel.
        now rewrite Hgo, Hp.
    + apply andb_true_iff in Hgo. destruct Hgo as [_ Hz].
      apply negb_true_iff in Hz.
      unfold outcome. cbn [handle]. unfold handleWheel.
      rewrite Hz. cbn [negb]. rewrite andb_true_r in *.
      destruct (Rltb deltaY 0 && (0 <? currentLayerIndex c)%nat);
        [|cbn; apply settled_plain; auto].
      rewrite Hp.
      pose proof (reverse_settled (CanvasWheel deltaY) c c
                    Hz eq_refl eq_refl Hz eq_refl) as Hs.
      destruct (handleReverseLayerTransition_cases c c)
        as [Hskip | (ph & _ & _ & _ & Hrun)].
      * rewrite Hskip in *. exact Hs.
      * rewrite Hrun in *. exact Hs.
  - unfold outcome. cbn [handle]. unfold handleHome.
    destruct (currentLayerIndex c =? 0)%nat; cbn [orb];
      [cbn; apply settled_plain; auto|].
    destruct (isZooming c) eqn:Hz; cbn.
    + apply settled_plain; auto.
    + apply settled_started; cbn; auto.
  - unfold outcome. cbn [handle]. unfold handleNavigate.
    destruct (S index =? List.length (history c))%nat; cbn [orb];
      [cbn; apply settled_plain; auto|].
    destruct (isZooming c) eqn:Hz; [cbn; apply settled_plain; auto|].
    destruct (nth_error (history c) index) as [target|] eqn:Hn; cbn.
    + apply settled_started; cbn; auto.
    + apply settled_stuck with index; cbn; auto.
      now apply nth_error_None.
  - unfold outcome. cbn [handle]. unfold handleGoBack.
    destruct (1 <? List.length (history c))%nat eqn:Hlen; cbn [andb];
      [|cbn; apply settled_plain; auto].
    destruct (isZooming c) eqn:Hz; cbn [negb andb];
      [cbn; apply settled_plain; auto|].
    destruct (negb (currentLayerIndex c =? 0)%nat);
      [|cbn; apply settled_plain; auto].
    destruct (nth_error (history c) (List.length (history c) - 2))
      as [ph|] eqn:Hp; cbn.
    + apply Nat.ltb_lt in Hlen.
      apply settled_started; cbn; auto.
    + apply settled_plain; auto.
  - unfold outcome. cbn [handle]. unfold handleReverseTransition.
    destruct (isZooming c) eqn:Hz; cbn [negb andb];
      [cbn; apply settled_plain; auto|].
    destruct (0 <? currentLayerIndex c)%nat;
      [|cbn; apply settled_plain; auto].
    pose proof (reverse_settled TriggerReverseTransition c c
                  Hz eq_refl eq_refl Hz eq_refl) as Hs.
    destruct (handleReverseLayerTransition_cases c c)
      as [Hskip | (ph & _ & _ & _ & Hrun)].
    + rewrite Hskip in *. exact Hs.
    + rewrite Hrun in *. exact Hs.
  - cbn. apply settled_plain; auto.
Qed.
End Settling.

(** ** The last history entry and the current layer *)









Section Consistency.
Variable config : Config.t.







(** *** The layer on display exists *)

Hypothesis Hlayers : Config.layers config <> [].








End Consistency.



(** ** The animated transitions, from start to end *)

Section Transitions.
Variable config : Config.t.

(** X8. The home button, pressed on a layer below the root outside a
    transition, brings the application back to the root layer once its two
    timers have run: the history is the single root entry, the background
    is the canvas colour, the zoom progress is 0 with no zooming node, the
    click-zoom interval is cleared and [isZooming] is released. *)
Theorem home_returns_to_root :
  forall c,
    currentLayerIndex c <> 0%nat ->
    isZooming c = false ->
    let rootColor := Canvas.backgroundColor (Config.canvas config) in
    enabledAlong config (fun _ => True) (animated HomeClick) (mkWorld c [])
    /\ run config (animated HomeClick) (mkWorld c [])
       = mkWorld
           (mkAppState 0 (-1)%Z rootColor [rootEntry config rootColor]
              1 0 0 false 0 None (silentTransition c) (viewport c) false)
           [].
Proof.
  intros c Hl Hz rootColor.
  assert (Hstart : dispatch config HomeClick (mkWorld c [])
                   = mkWorld
                       (mkAppState (currentLayerIndex c) (-1)%Z rootColor
                          (history c) (scale c) (panX c) (panY c) true
                          (zoomProgress c) (zoomingNode c)
                          (silentTransition c) (viewport c)
                          (clickZoomIntervalRef c))
                       [(50%nat, HomeSwap rootColor); (750%nat, ZoomingOff)]).
  { unfold dispatch. cbn [appState handle]. unfold handleHome.
    rewrite (proj2 (Nat.eqb_neq _ _) Hl), Hz. reflexivity. }
  unfold animated, run. cbn [fold_left enabledAlong perform enabled].
  rewrite Hstart. split.
  - cbn. repeat split; auto; repeat constructor; eauto.
  - reflexivity.
Qed.

(** X9. A breadcrumb navigation to the entry [index] of the history (not
    the last one), outside a transition, ends on the layer of that entry
    with the history cut after it and the background of the entry.  The
    zoom progress and the zooming node are reset when the entry is the
    root layer, and kept otherwise. *)
Theorem navigate_cuts_history :
  forall c index target,
    isZooming c = false ->
    nth_error (history c) index = Some target ->
    S index <> List.length (history c) ->
    let w := run config (animated (Navigate index)) (mkWorld c []) in
    enabledAlong config (fun _ => True) (animated (Navigate index))
      (mkWorld c [])
    /\ timers w = []
    /\ history (appState w) = firstn (index + 1) (history c)
    /\ List.length (history (appState w)) = (index + 1)%nat
    /\ currentLayerIndex (appState w) = HistoryEntry.layerIndex target
    /\ backgroundColor (appState w) = HistoryEntry.color target
    /\ direction (appState w) = (-1)%Z
    /\ isZooming (appState w) = false
    /\ (HistoryEntry.layerIndex target = 0%nat ->
        zoomProgress (appState w) = 0 /\ zoomingNode (appState w) = None)
    /\ (HistoryEntry.layerIndex target <> 0%nat ->
        zoomProgress (appState w) = zoomProgress c
        /\ zoomingNode (appState w) = zoomingNode c).
Proof.
  intros c index target Hz Hn Hlast w.
  assert (Hlt : (index < List.length (history c))%nat).
  { apply nth_error_Some. congruence. }
  assert (Hstart : dispatch config (Navigate index) (mkWorld c [])
                   = mkWorld
                       (mkAppState (currentLayerIndex c) (-1)%Z
                          (HistoryEntry.color target)
                          (history c) (scale c) (panX c) (panY c) true
                          (zoomProgress c) (zoomingNode c)
                          (silentTransition c) (viewport c)
                          (clickZoomIntervalRef c))
                       [(50%nat, NavigateSwap target index);
                        (750%nat, ZoomingOff)]).
  { unfold dispatch. cbn [appState handle]. unfold handleNavigate.
    rewrite (proj2 (Nat.eqb_neq _ _) Hlast), Hz, Hn.
    rewrite (proj2 (Nat.ltb_lt _ _)) by lia. reflexivity. }
  subst w. unfold animated, run.
  cbn [fold_left enabledAlong perform enabled]. rewrite Hstart.
  cbn -[Nat.eqb].
  destruct (HistoryEntry.layerIndex target =? 0)%nat eqn:Hroot;
    [apply Nat.eqb_eq in Hroot | apply Nat.eqb_neq in Hroot];
    cbn; repeat split;
    first [ reflexivity | congruence | apply firstn_length_le; lia
          | repeat constructor; cbn; lia | eauto ].
Qed.

(** X10. [handleNodeClick] on a node whose children name a layer of the
    configuration, outside a transition, ends on that layer once its two
    timers have run: one entry for the node is appended to the history,
    the background is the colour of the node (or of the layer left), and
    the zoom progress is 0 with no zooming node. *)
Theorem node_click_enters_layer :
  forall c node target nodeColor,
    isZooming c = false ->
    truthy (Node.children node) = true ->
    layerIndexOf config (Node.children node) = Some target ->
    nodeColorOf config c node = Some nodeColor ->
    enabledAlong config (fun _ => True) (animated (NodeClick node))
      (mkWorld c [])
    /\ run config (animated (NodeClick node)) (mkWorld c [])
       = mkWorld
           (mkAppState target 1%Z nodeColor
              (history c ++ [forwardEntry config target nodeColor node])
              1 0 0 false 0 None (silentTransition c) (viewport c)
              (clickZoomIntervalRef c))
           [].
Proof.
  intros c node target nodeColor Hz Hch Ht Hcolor.
  assert (Hstart : dispatch config (NodeClick node) (mkWorld c [])
                   = mkWorld
                       (mkAppState (currentLayerIndex c) 1%Z nodeColor
                          (history c) (scale c) (panX c) (panY c) true
                          0 None
                          (silentTransition c) (viewport c)
                          (clickZoomIntervalRef c))
                       [(50%nat, ClickSwap target nodeColor node);
                        (750%nat, ZoomingOff)]).
  { unfold dispatch. cbn [appState handle]. unfold handleNodeClick.
    rewrite Hch, Hz, Ht, Hcolor. reflexivity. }
  unfold animated, run. cbn [fold_left enabledAlong perform enabled].
  rewrite Hstart. split.
  - cbn. repeat split; auto; repeat constructor; eauto.
  - reflexivity.
Qed.
End Transitions.

(** X8 (witness): the home button on "layer-2". *)
Lemma home_returns_to_root_witness :
  run DEFAULT_CONFIG (animated HomeClick)
    (mkWorld (enteredLayer2 (Viewport.mk 1920 1080)) [])
  = mkWorld
      (mkAppState 0 (-1)%Z "#0a0e27" [rootEntry DEFAULT_CONFIG "#0a0e27"]
         1 0 0 false 0 None true (Viewport.mk 1920 1080) false)
      [].
Proof.
  apply (home_returns_to_root DEFAULT_CONFIG
           (enteredLayer2 (Viewport.mk 1920 1080))).
  - cbn. lia.
  - reflexivity.
Defined.

(** X9 (witness): from "layer-2" with some progress, the breadcrumb of the
    root entry. *)
Lemma navigate_cuts_history_witness :
  let c := layer2Zooming (Viewport.mk 1920 1080) 45 (Some node_2_1) in
  let w := run DEFAULT_CONFIG (animated (Navigate 0)) (mkWorld c []) in
  history (appState w) = firstn (0 + 1) (history c).
Proof.
  apply (navigate_cuts_history DEFAULT_CONFIG
           (layer2Zooming (Viewport.mk 1920 1080) 45 (Some node_2_1))
           0%nat (rootEntry DEFAULT_CONFIG "#0a0e27")).
  - reflexivity.
  - reflexivity.
  - cbn. lia.
Defined.

(** X10 (witness): [handleNodeClick] on "water cycle" from the root. *)
Lemma node_click_enters_layer_witness :
  let c := rootZooming (Viewport.mk 1920 1080) 0 None in
  run DEFAULT_CONFIG (animated (NodeClick node_1)) (mkWorld c [])
  = mkWorld
      (mkAppState 1 1%Z "#2563eb"
         (history c ++ [forwardEntry DEFAULT_CONFIG 1 "#2563eb" node_1])
         1 0 0 false 0 None false (Viewport.mk 1920 1080) false)
      [].
Proof.
  apply (node_click_enters_layer DEFAULT_CONFIG
           (rootZooming (Viewport.mk 1920 1080) 0 None) node_1 1%nat
           "#2563eb"); reflexivity.
Defined.

(** ** The transition lock *)

Section Lock.
Variable config : Config.t.

(** X11. During a transition ([isZooming]) every event except a click on
    the canvas and a resize leaves the application and its pending timers
    exactly as they are.  The click on the canvas is not guarded: it still
    resets a positive zoom progress (with the zooming node), and leaves
    the layer, the history, [isZooming] and the timers alone. *)
Theorem transition_blocks_events :
  forall w,
    isZooming (appState w) = true ->
    (forall e,
        e <> CanvasClick -> (forall vp, e <> Resize vp) ->
        dispatch config e w = w)
    /\ (let w' := dispatch config CanvasClick w in
        timers w' = timers w
        /\ isZooming (appState w') = true
        /\ currentLayerIndex (appState w') = currentLayerIndex (appState w)
        /\ history (appState w') = history (appState w)
        /\ zoomProgress (appState w') = Rmin 0 (zoomProgress (appState w))).
Proof.
  intros [c ts] Hz. cbn [appState] in Hz. split.
  - intros e Hclick Hresize.
    destruct e; unfold dispatch; cbn [appState timers handle].
    + rewrite handleZoomProgress_locked by assumption.
      cbn. now rewrite app_nil_r.
    + unfold handleNodeClick. rewrite Hz, orb_true_r.
      cbn. now rewrite app_nil_r.
    + contradiction.
    + unfold handleWheel. rewrite Hz. cbn [negb]. rewrite andb_false_r.
      cbn. now rewrite app_nil_r.
    + unfold handleHome. rewrite Hz, orb_true_r.
      cbn. now rewrite app_nil_r.
    + unfold handleNavigate. rewrite Hz, orb_true_r.
      cbn. now rewrite app_nil_r.
    + unfold handleGoBack. rewrite Hz. cbn [negb]. rewrite andb_false_r.
      cbn. now rewrite app_nil_r.
    + unfold handleReverseTransition. rewrite Hz.
      cbn. now rewrite app_nil_r.
    + now contradiction (Hresize vp).
  - unfold dispatch. cbn [appState timers handle]. unfold handleCanvasClick.
    destruct (Rltb 0 (zoomProgress c)) eqn:Hp;
      [apply Rltb_true in Hp | apply Rltb_false in Hp];
      cbn; rewrite app_nil_r; repeat split; try assumption.
    + rewrite Rmin_left; lra.
    + rewrite Rmin_right; lra.
Qed.

(** X12. Outside a transition, an event that sets [isZooming] also
    schedules the swap of the layer after 50 ms and the release of
    [isZooming] after 750 ms, provided a breadcrumb navigation names an
    index inside the history. *)
Theorem lock_is_released :
  forall c e,
    isZooming c = false ->
    (forall index, e = Navigate index ->
                   (index < List.length (history c))%nat) ->
    isZooming (fst (outcome config c e)) = true ->
    exists sw,
      isSwap sw = true
      /\ snd (outcome config c e) = [(50%nat, sw); (750%nat, ZoomingOff)].
Proof.
  intros c e Hz Hindex Hlocked.
  destruct (outcome_settled config c e)
    as [s _ _ Hsame _ | n target color s1 _ _ _ Hs1
        | sw s _ Hsw _ _ _ _ _ _ | index s He _ Hout _ _ _ _].
  - congruence.
  - cbn in Hlocked. congruence.
  - now exists sw.
  - apply Hindex in He. lia.
Qed.
End Lock.

(** X11 (witness): a wheel event on a node while the reverse transition
    from "layer-2" is running. *)
Lemma transition_blocks_events_witness :
  let w := dispatch DEFAULT_CONFIG TriggerReverseTransition
             (mkWorld (enteredLayer2 (Viewport.mk 1920 1080)) []) in
  dispatch DEFAULT_CONFIG (ZoomProgress (Some node_2_1) 600) w = w.
Proof.
  apply (transition_blocks_events DEFAULT_CONFIG
           (dispatch DEFAULT_CONFIG TriggerReverseTransition
              (mkWorld (enteredLayer2 (Viewport.mk 1920 1080)) []))).
  - reflexivity.
  - discriminate.
  - discriminate.
Defined.

(** X12 (witness): the home button on "layer-2". *)
Lemma lock_is_released_witness :
  exists sw,
    isSwap sw = true
    /\ snd (outcome DEFAULT_CONFIG (enteredLayer2 (Viewport.mk 1920 1080))
              HomeClick)
       = [(50%nat, sw); (750%nat, ZoomingOff)].
Proof.
  apply (lock_is_released DEFAULT_CONFIG
           (enteredLayer2 (Viewport.mk 1920 1080)) HomeClick).
  - reflexivity.
  - discriminate.
  - reflexivity.
Defined.

(** ** The silent transition and its flag *)

Lemma In_removeAt_other {A : Type} (x y : A) i l :
  nth_error l i = Some y -> x <> y -> In x l -> In x (removeAt i l).
Proof.
  intros Hnth Hne Hin.
  destruct (nth_error_removeAt _ _ _ Hnth) as [Hsplit Hrem].
  rewrite Hrem. rewrite Hsplit in Hin.
  apply in_app_or in Hin. apply in_or_app.
  destruct Hin as [Hin | [Heq | Hin]]; [now left | congruence | now right].
Qed.

Section SilentFlag.
Variable config : Config.t.

Lemma silent_pending allowed vp w :
  reachable config allowed vp w ->
  silentTransition (appState w) = true ->
  exists r, (r <= 50)%nat /\ In (r, SilentOff) (timers w).
Proof.
  induction 1 as [|a w Hreach IH Hen]; [discriminate|].
  destruct a as [e | dt | i]; cbn [enabled perform] in *.
  - rewrite dispatch_outcome. cbn [appState timers].
    destruct (outcome_settled config (appState w) e)
      as [s _ _ _ Hs | n target color s1 _ _ _ _
          | sw s _ _ _ _ _ _ _ Hs | index s _ _ _ _ _ _ Hs].
    + rewrite Hs. intros Hon. destruct (IH Hon) as (r & Hr & Hin).
      exists r. split; [assumption|]. apply in_or_app. now left.
    + intros _. exists 50%nat. split; [lia|].
      apply in_or_app. right. now left.
    + rewrite Hs. intros Hon. destruct (IH Hon) as (r & Hr & Hin).
      exists r. split; [assumption|]. apply in_or_app. now left.
    + rewrite Hs. intros Hon. destruct (IH Hon) as (r & Hr & Hin).
      exists r. split; [assumption|]. apply in_or_app. now left.
  - cbn [tick appState timers]. intros Hon.
    destruct (IH Hon) as (r & Hr & Hin).
    exists (r - dt)%nat. split; [lia|].
    apply in_map_iff. exists (r, SilentOff). split; [reflexivity | assumption].
  - destruct Hen as [t Hnth]. unfold fire. rewrite Hnth.
    assert (Hkeep : t <> SilentOff ->
                    silentTransition (appState w) = true ->
                    exists r, (r <= 50)%nat
                              /\ In (r, SilentOff) (removeAt i (timers w))).
    { intros Hne Hon. destruct (IH Hon) as (r & Hr & Hin).
      exists r. split; [assumption|].
      apply In_removeAt_other with (0%nat, t); [assumption | congruence
                                                | assumption]. }
    destruct t as [ph | target color node | rootColor | target index | |];
      cbn [runTimer].
    + hsimpl. rewrite app_nil_r. apply Hkeep. discriminate.
    + hsimpl. rewrite app_nil_r. apply Hkeep. discriminate.
    + hsimpl. rewrite app_nil_r. apply Hkeep. discriminate.
    + destruct (HistoryEntry.layerIndex target =? 0)%nat; hsimpl;
        rewrite app_nil_r; apply Hkeep; discriminate.
    + hsimpl. discriminate.
    + hsimpl. rewrite app_nil_r. apply Hkeep. discriminate.
Qed.

(** X13. In every reachable state, while the flag [silentTransition] is
    set the timer that clears it is pending and due within 50 ms: the
    animations that a silent transition suppresses are always switched
    back on. *)
Theorem silent_flag_is_cleared :
  forall vp w,
    reachable config (fun _ => True) vp w ->
    silentTransition (appState w) = true ->
    exists r, (r <= 50)%nat /\ In (r, SilentOff) (timers w).
Proof. intros vp w. apply silent_pending. Qed.
End SilentFlag.

(** X13 (witness): the world after entering "layer-2". *)
Lemma silent_flag_is_cleared_witness :
  let w := perform DEFAULT_CONFIG (waterCycleZoom 600)
             (initialWorld DEFAULT_CONFIG (Viewport.mk 1920 1080)) in
  exists r, (r <= 50)%nat /\ In (r, SilentOff) (timers w).
Proof.
  apply (silent_flag_is_cleared DEFAULT_CONFIG (Viewport.mk 1920 1080)).
  - apply reachable_step; [apply reachable_init | exact I].
  - unfold perform, waterCycleZoom, initialWorld.
    rewrite initialState_rootZooming.
    rewrite root_step_cross by lra. reflexivity.
Defined.

(** ** Zooming out *)

Section ZoomingOut.
Variable config : Config.t.

(** X14. A wheel event on the canvas never zooms in: it leaves the layer
    and the history as they are, requests no silent transition and never
    raises the zoom progress; on the root layer, or with a delta that is
    not negative, it does nothing at all. *)
Theorem canvas_wheel_only_zooms_out :
  forall c deltaY,
    let result := handleWheel config c deltaY c in
    silentRequests (snd result) = 0%nat
    /\ currentLayerIndex (fst result) = currentLayerIndex c
    /\ history (fst result) = history c
    /\ zoomProgress (fst result) <= zoomProgress c
    /\ (currentLayerIndex c = 0%nat \/ 0 <= deltaY -> result = (c, [])).
Proof.
  intros c deltaY result. subst result. unfold handleWheel.
  destruct (Rltb deltaY 0) eqn:Hd;
    [apply Rltb_true in Hd | apply Rltb_false in Hd].
  2:{ cbn. repeat split; auto; lra. }
  destruct (0 <? currentLayerIndex c)%nat eqn:Hl;
    [apply Nat.ltb_lt in Hl | apply Nat.ltb_ge in Hl].
  2:{ cbn. repeat split; auto; lra. }
  destruct (isZooming c) eqn:Hz.
  { cbn. repeat split; auto; lra. }
  cbn [negb andb].
  assert (Hactive : currentLayerIndex c = 0%nat \/ 0 <= deltaY -> False).
  { intros [H0 | Hpos]; [lia | lra]. }
  destruct (Rltb 0 (zoomProgress c)) eqn:Hp;
    [apply Rltb_true in Hp | apply Rltb_false in Hp].
  - destruct (currentLayer config c) as [layer|] eqn:Hlayer.
    + rewrite (handleZoomProgress_update config c (zoomingNode c) deltaY
                 layer Hz).
      2:{ rewrite (proj2 (Rltb_false _ _)) by lra. reflexivity. }
      2:{ rewrite (proj2 (Reqb_false _ _)) by lra. now rewrite andb_false_r. }
      2:{ assumption. }
      cbv zeta.
      set (np := Rmin (progressBound c layer)
                   (Rmax 0 (zoomProgress c + deltaY * 0.15))).
      assert (Hnp : np < zoomProgress c).
      { unfold np. eapply Rle_lt_trans; [apply Rmin_r|].
        unfold Rmax. destruct (Rle_dec 0 _); lra. }
      assert (Hforward : Rleb (transitionThreshold c) np
                         && Rltb (zoomProgress c) (transitionThreshold c)
                         = false).
      { destruct (Rltb (zoomProgress c) (transitionThreshold c)) eqn:Hlow;
          [|apply andb_false_r].
        apply Rltb_true in Hlow.
        rewrite (proj2 (Rleb_false _ _)) by lra. reflexivity. }
      rewrite Hforward. cbn [andb List.app fst snd].
      destruct (Reqb np 0 && Rltb 0 (zoomProgress c)
                && (0 <? currentLayerIndex c)%nat);
        cbn [zoomProgress currentLayerIndex history];
        repeat split; try lra; try (intros H; now apply Hactive in H).
    + destruct (handleZoomProgress_no_layer config c (zoomingNode c) deltaY)
        as (He & Hprog & Hh & _ & Hli & _); try assumption.
      { rewrite (proj2 (Rltb_false _ _)) by lra. reflexivity. }
      { rewrite (proj2 (Reqb_false _ _)) by lra. now rewrite andb_false_r. }
      rewrite He, Hprog, Hh, Hli.
      repeat split; try lra; try (intros H; now apply Hactive in H).
  - destruct (handleReverseLayerTransition_cases c c)
      as [Hskip | (ph & _ & _ & _ & Hrun)].
    + rewrite Hskip. cbn.
      repeat split; try lra; try (intros H; now apply Hactive in H).
    + rewrite Hrun. cbn.
      repeat split; try lra; try (intros H; now apply Hactive in H).
Qed.

(** X15. On a layer below the root, outside a transition, a zoom-out that
    takes a positive progress down to 0 clears the zooming node and starts
    the animated reverse transition towards the previous history entry:
    [isZooming] is set, the background takes the colour of that entry, the
    swap is scheduled after 50 ms and the release after 750 ms. *)
Theorem zoom_out_to_zero_starts_reverse :
  forall c node deltaY layer,
    isZooming c = false ->
    currentLayerIndex c <> 0%nat ->
    currentLayer config c = Some layer ->
    (2 <= List.length (history c))%nat ->
    0 < zoomProgress c <= maxProgress (viewport c) (Layer.nodes layer) ->
    zoomProgress c + deltaY * 0.15 <= 0 ->
    exists prevHistory,
      nth_error (history c) (List.length (history c) - 2) = Some prevHistory
      /\ outcome config c (ZoomProgress node deltaY)
         = (mkAppState (currentLayerIndex c) (-1)%Z
              (HistoryEntry.color prevHistory) (history c)
              (scale c) (panX c) (panY c) true 0 None
              (silentTransition c) (viewport c) (clickZoomIntervalRef c),
            [(50%nat, ReverseSwap prevHistory); (750%nat, ZoomingOff)]).
Proof.
  intros c node deltaY layer Hz Hl Hlayer Hlen [Hpos Hmax] Hzero.
  assert (Hd : deltaY < 0) by lra.
  assert (Hbelow : (0 <? currentLayerIndex c)%nat = true).
  { apply Nat.ltb_lt. lia. }
  unfold outcome. cbn [handle].
  rewrite (handleZoomProgress_update config c node deltaY layer Hz).
  2:{ rewrite (proj2 (Rltb_false _ _)) by lra. reflexivity. }
  2:{ rewrite (proj2 (Reqb_false _ _)) by lra. now rewrite andb_false_r. }
  2:{ assumption. }
  cbv zeta. unfold progressBound. rewrite Hbelow.
  rewrite (Rmax_left 0 (zoomProgress c + deltaY * 0.15)) by lra.
  rewrite (Rmin_right _ 0) by lra.
  assert (Hthr : 0 < transitionThreshold c).
  { unfold transitionThreshold. destruct (_ =? _)%nat; lra. }
  rewrite (proj2 (Rleb_false _ _)) by lra.
  rewrite (proj2 (Reqb_true 0 0)) by reflexivity.
  rewrite (proj2 (Rltb_true 0 (zoomProgress c))) by assumption.
  cbn [andb List.app settle runFrame].
  match goal with
  | |- context [handleReverseLayerTransition c ?s] =>
      destruct (handleReverseLayerTransition_fires c s Hl Hlen)
        as (ph & Hp & Hrun)
  end.
  exists ph. split; [assumption|]. rewrite Hrun. reflexivity.
Qed.

Lemma handleSilentLayerTransition_runs c node s target nodeColor :
  truthy (Node.children node) = true ->
  layerIndexOf config (Node.children node) = Some target ->
  nodeColorOf config c node = Some nodeColor ->
  handleSilentLayerTransition config c node s
  = (entered config target nodeColor node s, [SetTimeout SilentOff 50]).
Proof.
  intros Hch Ht Hcolor. unfold handleSilentLayerTransition.
  rewrite Hch, Ht, Hcolor. reflexivity.
Qed.

(** X16. Zooming into a node until its layer is entered and then scrolling
    back on the canvas is a round trip for the navigation: when the reverse
    transition has run, the history is the one before the zoom, the layer
    is the one its last entry designates, with the colour of that entry as
    background, the progress is 0, no node is being zoomed and [isZooming]
    is released. *)
Theorem zoom_in_then_out_round_trip :
  forall c node layer target top deltaIn deltaOut,
    isZooming c = false ->
    currentLayer config c = Some layer ->
    truthy (Node.children node) = true ->
    layerIndexOf config (Node.children node) = Some target ->
    target <> 0%nat ->
    currentHistoryItem c = Some top ->
    HistoryEntry.layerIndex top <> target ->
    zoomProgress c < transitionThreshold c
      <= Rmin (progressBound c layer)
           (Rmax 0 (zoomProgress c + deltaIn * 0.15)) ->
    deltaOut < 0 ->
    let w := run config (thereAndBack node deltaIn deltaOut) (mkWorld c []) in
    enabledAlong config (fun _ => True) (thereAndBack node deltaIn deltaOut)
      (mkWorld c [])
    /\ timers w = []
    /\ history (appState w) = history c
    /\ currentLayerIndex (appState w) = HistoryEntry.layerIndex top
    /\ backgroundColor (appState w) = HistoryEntry.color top
    /\ zoomProgress (appState w) = 0
    /\ zoomingNode (appState w) = None
    /\ isZooming (appState w) = false
    /\ silentTransition (appState w) = false.
Proof.
  intros c node layer target top deltaIn deltaOut
    Hz Hlayer Hch Ht Htarget Htop Hnew [Hlow Hhigh] Hout w.
  assert (Hterm : Rltb 0 deltaIn && negb (truthy (childrenOf (Some node)))
                  = false).
  { cbn [childrenOf]. rewrite Hch. apply andb_false_r. }
  destruct (crossing_has_children c (Some node) deltaIn layer Hterm
              (conj Hlow Hhigh)) as [_ Hin].
  assert (Hthr : 0 < transitionThreshold c).
  { unfold transitionThreshold. destruct (_ =? _)%nat; lra. }
  destruct (nodeColorOf config c node) as [nodeColor|] eqn:Hcolor.
  2:{ unfold nodeColorOf in Hcolor. rewrite Hlayer in Hcolor.
      destruct (truthy (Node.color node)) eqn:Hc; [|discriminate].
      rewrite Hcolor in Hc. discriminate. }
  (* the zoom enters the layer [target] *)
  assert (Hin1 : exists s1,
             history s1 = history c /\ isZooming s1 = false
             /\ dispatch config (ZoomProgress (Some node) deltaIn)
                  (mkWorld c [])
                = mkWorld (entered config target nodeColor node s1)
                    [(50%nat, SilentOff)]).
  { unfold dispatch. cbn [appState timers handle].
    rewrite (handleZoomProgress_update config c (Some node) deltaIn layer
               Hz Hterm).
    2:{ rewrite (proj2 (Rltb_false _ _)) by lra. reflexivity. }
    2:{ assumption. }
    cbv zeta. cbn [childrenOf]. rewrite Hch.
    rewrite (proj2 (Rleb_true _ _) Hhigh).
    rewrite (proj2 (Rltb_true _ _) Hlow).
    rewrite (proj2 (Reqb_false _ 0)) by lra.
    cbn [andb List.app settle runFrame].
    rewrite (handleSilentLayerTransition_runs c node _
               target nodeColor Hch Ht Hcolor).
    cbn [timeouts List.app fst snd].
    eexists. split; [|split]; [| |reflexivity]; reflexivity. }
  destruct Hin1 as (s1 & Hh1 & Hz1 & Hstep1).
  (* the history grew by the entry of the node *)
  assert (Hpush : history (entered config target nodeColor node s1)
                  = history c
                    ++ [forwardEntry config target nodeColor node]).
  { cbn [entered history]. rewrite Hh1. unfold pushUnlessOnTop.
    unfold currentHistoryItem in Htop. rewrite Htop.
    rewrite (proj2 (Nat.eqb_neq _ _) Hnew). now rewrite andb_false_r. }
  assert (Hne : (1 <= List.length (history c))%nat).
  { unfold currentHistoryItem in Htop.
    assert (List.length (history c) - 1 < List.length (history c))%nat;
      [apply nth_error_Some; congruence | lia]. }
  (* the wheel on the canvas starts the reverse transition *)
  set (e := entered config target nodeColor node s1) in *.
  assert (Hback : handleWheel config e deltaOut e
                  = (reversing top e,
                     [SetTimeout (ReverseSwap top) 50;
                      SetTimeout ZoomingOff 750])).
  { unfold handleWheel.
    rewrite (proj2 (Rltb_true _ _) Hout).
    replace (currentLayerIndex e) with target by reflexivity.
    rewrite (proj2 (Nat.ltb_lt 0 target)) by lia.
    replace (isZooming e) with (isZooming s1) by reflexivity.
    rewrite Hz1. cbn [negb andb].
    replace (zoomProgress e) with 0 by reflexivity.
    rewrite (proj2 (Rltb_false 0 0)) by lra.
    destruct (handleReverseLayerTransition_fires e e) as (ph & Hp & Hrun).
    - exact Htarget.
    - rewrite Hpush, length_app. cbn [List.length]. lia.
    - rewrite Hrun. rewrite Hpush, length_app in Hp. cbn [List.length] in Hp.
      replace (List.length (history c) + 1 - 2)%nat
        with (List.length (history c) - 1)%nat in Hp by lia.
      rewrite nth_error_app1 in Hp by lia.
      unfold currentHistoryItem in Htop. congruence. }
  subst w. unfold thereAndBack, run.
  cbn [fold_left enabledAlong perform enabled].
  rewrite Hstep1.
  assert (Hstep2 : dispatch config (CanvasWheel deltaOut)
                     (mkWorld e [(50%nat, SilentOff)])
                   = mkWorld (reversing top e)
                       [(50%nat, SilentOff); (50%nat, ReverseSwap top);
                        (750%nat, ZoomingOff)]).
  { unfold dispatch. cbn [appState timers handle]. rewrite Hback.
    reflexivity. }
  rewrite Hstep2.
  cbn -[removelast e].
  rewrite Hpush, removelast_last.
  repeat split;
    first [ reflexivity | repeat constructor; cbn; lia | eauto ].
Qed.
End ZoomingOut.

(** X15 (witness): "layer-2" with progress 45 on "what is it ?" and a wheel
    event of delta -600. *)
Lemma zoom_out_to_zero_starts_reverse_witness :
  let c := layer2Zooming (Viewport.mk 1000 1000) 45 (Some node_2_1) in
  exists prevHistory,
    nth_error (history c) (List.length (history c) - 2) = Some prevHistory
    /\ outcome DEFAULT_CONFIG c (ZoomProgress (Some node_2_1) (-600))
       = (mkAppState (currentLayerIndex c) (-1)%Z
            (HistoryEntry.color prevHistory) (history c)
            (scale c) (panX c) (panY c) true 0 None
            (silentTransition c) (viewport c) (clickZoomIntervalRef c),
          [(50%nat, ReverseSwap prevHistory); (750%nat, ZoomingOff)]).
Proof.
  apply (zoom_out_to_zero_starts_reverse DEFAULT_CONFIG
           (layer2Zooming (Viewport.mk 1000 1000) 45 (Some node_2_1))
           (Some node_2_1) (-600) layer_2).
  - reflexivity.
  - cbn. lia.
  - reflexivity.
  - cbn. lia.
  - cbn [layer2Zooming zoomProgress viewport].
    rewrite maxProgress_layer_2_1000x1000. lra.
  - cbn. lra.
Defined.

(** X16 (witness): from the root, into "layer-2" through "water cycle" and
    back. *)
Lemma zoom_in_then_out_round_trip_witness :
  let c := rootZooming (Viewport.mk 1920 1080) 0 None in
  let w := run DEFAULT_CONFIG (thereAndBack node_1 600 (-100))
             (mkWorld c []) in
  timers w = []
  /\ history (appState w) = history c
  /\ currentLayerIndex (appState w) = 0%nat
  /\ backgroundColor (appState w) = "#0a0e27"%string
  /\ zoomProgress (appState w) = 0
  /\ zoomingNode (appState w) = None
  /\ isZooming (appState w) = false
  /\ silentTransition (appState w) = false.
Proof.
  apply (zoom_in_then_out_round_trip DEFAULT_CONFIG
           (rootZooming (Viewport.mk 1920 1080) 0 None) node_1 layer_1
           1%nat (rootEntry DEFAULT_CONFIG "#0a0e27") 600 (-100)).
  - reflexivity.
  - reflexivity.
  - reflexivity.
  - reflexivity.
  - lia.
  - reflexivity.
  - cbn. lia.
  - unfold progressBound, transitionThreshold.
    cbn [rootZooming currentLayerIndex zoomProgress Nat.ltb Nat.leb Nat.eqb].
    rewrite Rmax_right by lra. rewrite Rmin_right by lra. lra.
  - lra.
Defined.

(** ** The navigation bubbles *)

Lemma In_mapWithIndex {A : Type} (l : list A) :
  forall k i item,
    In (i, item)
      (mapWithIndex
         (fun item index => let actualIndex := (index + 1)%nat in
                            (actualIndex, item)) l k)
    <-> exists j, nth_error l j = Some item /\ i = (k + j + 1)%nat.
Proof.
  induction l as [|a l IH]; intros k i item; cbn [mapWithIndex In].
  - split; [contradiction|]. intros (j & Hj & _). destruct j; discriminate.
  - rewrite IH. split.
    + intros [Heq | (j & Hj & ->)].
      * injection Heq as <- <-. exists 0%nat. split; [reflexivity | lia].
      * exists (S j). split; [assumption | lia].
    + intros ([|j] & Hj & ->).
      * left. cbn in Hj. injection Hj as <-. f_equal. lia.
      * right. exists j. split; [assumption | lia].
Qed.

Lemma In_NavigationBubbles history i item :
  In (i, item) (NavigationBubbles history)
  <-> (1 <= i)%nat /\ nth_error history i = Some item.
Proof.
  unfold NavigationBubbles. cbv zeta. rewrite In_mapWithIndex. split.
  - intros (j & Hj & ->). split; [lia|].
    replace (0 + j + 1)%nat with (S j) by lia.
    destruct history; [destruct j; discriminate | exact Hj].
  - intros [Hi Hn]. destruct i as [|j]; [lia|].
    exists j. split; [|lia].
    destruct history; [discriminate | exact Hn].
Qed.

(** X17. [NavigationBubbles] shows one bubble for every history entry but
    the first, and the index a bubble passes to [handleNavigate] is the
    position of the entry whose colour it shows.  Outside a transition a
    click on the bubble of the last entry does nothing, and a click on any
    other bubble starts the backward transition towards its entry: the
    index is never outside the history. *)
Theorem bubbles_navigate_within_history :
  forall c,
    (forall actualIndex item,
        In (actualIndex, item) (NavigationBubbles (history c))
        <-> (1 <= actualIndex)%nat
            /\ nth_error (history c) actualIndex = Some item)
    /\ (forall actualIndex item,
           In (actualIndex, item) (NavigationBubbles (history c)) ->
           isZooming c = false ->
           handleNavigate c actualIndex c
           = if (S actualIndex =? List.length (history c))%nat
             then (c, [])
             else
               (mkAppState (currentLayerIndex c) (-1)%Z
                  (HistoryEntry.color item) (history c)
                  (scale c) (panX c) (panY c) true
                  (zoomProgress c) (zoomingNode c)
                  (silentTransition c) (viewport c)
                  (clickZoomIntervalRef c),
                [SetTimeout (NavigateSwap item actualIndex) 50;
                 SetTimeout ZoomingOff 750])).
Proof.
  intros c. split; [intros; apply In_NavigationBubbles|].
  intros actualIndex item Hin Hz.
  apply In_NavigationBubbles in Hin. destruct Hin as [_ Hn].
  assert (Hlt : (actualIndex < List.length (history c))%nat).
  { apply nth_error_Some. congruence. }
  unfold handleNavigate. rewrite Hz, orb_false_r.
  destruct (S actualIndex =? List.length (history c))%nat eqn:Hlast;
    [reflexivity|].
  apply Nat.eqb_neq in Hlast.
  rewrite (proj2 (Nat.ltb_lt _ _)) by lia.
  rewrite Hn. reflexivity.
Qed.

(** X17 (witness): on "layer-2" the only bubble is the one of the current
    entry; it has index 1. *)
Lemma bubbles_navigate_within_history_witness :
  let c := enteredLayer2 (Viewport.mk 1920 1080) in
  In (1%nat, forwardEntry DEFAULT_CONFIG 1 "#2563eb" node_1)
    (NavigationBubbles (history c))
  <-> (1 <= 1)%nat
      /\ nth_error (history c) 1
         = Some (forwardEntry DEFAULT_CONFIG 1 "#2563eb" node_1).
Proof.
  apply (bubbles_navigate_within_history
           (enteredLayer2 (Viewport.mk 1920 1080))).
Defined.

(** ** Leaving a layer *)

Section Leaving.
Variable config : Config.t.

(** X18. On a layer below the root, a right click on a node that is not
    the node being zoomed asks for the reverse transition whatever the
    zoom progress is, because [Layer] shows the progress to the zooming
    node only; the transition then starts with the progress and the
    zooming node left as they are. *)
Theorem right_click_on_other_node_leaves_layer :
  forall c layer node,
    isZooming c = false ->
    currentLayerIndex c <> 0%nat ->
    (2 <= List.length (history c))%nat ->
    isZoomingNode (zoomingNode c) node = false ->
    exists prevHistory,
      nth_error (history c) (List.length (history c) - 2) = Some prevHistory
      /\ NodeView.forwards (nodeProps c layer node) RightClick
         = Some TriggerReverse
      /\ outcome config c (eventOf TriggerReverse)
         = (reversing prevHistory c,
            [(50%nat, ReverseSwap prevHistory); (750%nat, ZoomingOff)])
      /\ zoomProgress (reversing prevHistory c) = zoomProgress c
      /\ zoomingNode (reversing prevHistory c) = zoomingNode c.
Proof.
  intros c layer node Hz Hl Hlen Hother.
  destruct (handleReverseLayerTransition_fires c c Hl Hlen)
    as (ph & Hp & Hrun).
  exists ph. split; [assumption|]. split; [|split; [|split; reflexivity]].
  - unfold NodeView.forwards, NodeView.handleNodeRightClick, nodeProps.
    cbn [NodeProps.isZooming NodeProps.isFirstLayer NodeProps.zoomProgress
         NodeProps.onZoomProgress].
    rewrite Hz, Hother, (proj2 (Nat.eqb_neq _ _) Hl).
    rewrite (proj2 (Rltb_false 0 0)) by lra. reflexivity.
  - unfold outcome. cbn [eventOf handle]. unfold handleReverseTransition.
    rewrite Hz. rewrite (proj2 (Nat.ltb_lt 0 _)) by lia.
    cbn [negb andb]. rewrite Hrun. reflexivity.
Qed.

(** X19. The four ways to ask for the previous layer agree: the window
    events ['nodeGoBack'] and ['triggerReverseTransition'] have the same
    effect in every state, and so have a wheel-up on the canvas and a
    zoom-out on a node whenever the zoom progress is 0. *)
Theorem reverse_requests_agree :
  forall w,
    dispatch config NodeGoBack w = dispatch config TriggerReverseTransition w
    /\ (zoomProgress (appState w) = 0 ->
        forall node deltaY,
          deltaY < 0 ->
          dispatch config (CanvasWheel deltaY) w
          = dispatch config TriggerReverseTransition w
          /\ dispatch config (ZoomProgress node deltaY) w
             = dispatch config TriggerReverseTransition w).
Proof.
  intros [c ts].
  assert (Hreverse : handleReverseTransition c c
                     = if negb (isZooming c) && (0 <? currentLayerIndex c)%nat
                       then handleReverseLayerTransition c c else (c, []))
    by (unfold handleReverseTransition;
        destruct (negb (isZooming c) && (0 <? currentLayerIndex c)%nat);
        reflexivity).
  split.
  - unfold dispatch. cbn [appState timers handle].
    rewrite Hreverse. unfold handleGoBack, handleReverseLayerTransition.
    destruct (isZooming c); cbn [negb andb];
      [rewrite andb_false_r; reflexivity|].
    rewrite andb_true_r.
    destruct (currentLayerIndex c) as [|l]; cbn [Nat.eqb Nat.ltb Nat.leb negb];
      [rewrite andb_false_r; reflexivity|].
    rewrite andb_true_r. cbn [orb].
    destruct (List.length (history c)) as [|[|n]] eqn:Hlen;
      cbn [Nat.ltb Nat.leb]; reflexivity.
  - intros Hzero node deltaY Hd. unfold dispatch.
    cbn [appState timers handle] in *. rewrite Hreverse.
    unfold handleWheel, handleZoomProgress.
    rewrite Hzero.
    rewrite (proj2 (Rltb_true _ _) Hd).
    rewrite (proj2 (Rltb_false 0 deltaY)) by lra.
    rewrite (proj2 (Rltb_false 0 0)) by lra.
    rewrite (proj2 (Reqb_true 0 0)) by reflexivity.
    destruct (isZooming c) eqn:Hz; cbn [negb andb];
      [rewrite andb_false_r; split; reflexivity|].
    rewrite andb_true_r.
    destruct (0 <? currentLayerIndex c)%nat eqn:Hl; [split; reflexivity|].
    split; [reflexivity|].
    (* on the root layer the update leaves the progress at 0 *)
    unfold setZoomProgressWith, zoomProgressUpdater, andThen at 1.
    cbn [skip fst snd]. rewrite Hzero, Hl.
    destruct (currentLayer config c) as [layer|];
      [|hsimpl; destruct c as [? ? ? ? ? ? ? ? zp ? ? ? ?];
       simpl in Hzero; subst zp; reflexivity].
    assert (Hnew : Rmin 200 (Rmax 0 (0 + deltaY * 0.15)) = 0).
    { rewrite Rmax_left by lra. apply Rmin_right. lra. }
    rewrite Hnew.
    assert (Hthr : 0 < transitionThreshold c).
    { unfold transitionThreshold. destruct (_ =? _)%nat; lra. }
    rewrite (proj2 (Rleb_false _ _)) by lra.
    rewrite (proj2 (Rltb_false 0 0)) by lra.
    rewrite andb_false_r.
    cbn [andb]. hsimpl.
    destruct c as [? ? ? ? ? ? ? ? zp ? ? ? ?].
    simpl in Hzero. subst zp. reflexivity.
Qed.
End Leaving.

(** X18 (witness): "layer-2" with progress 45 on "what is it ?", right
    click on "4 layers". *)
Lemma right_click_on_other_node_leaves_layer_witness :
  let c := layer2Zooming (Viewport.mk 1000 1000) 45 (Some node_2_1) in
  exists prevHistory,
    nth_error (history c) (List.length (history c) - 2) = Some prevHistory
    /\ NodeView.forwards (nodeProps c layer_2 node_2_2) RightClick
       = Some TriggerReverse
    /\ outcome DEFAULT_CONFIG c (eventOf TriggerReverse)
       = (reversing prevHistory c,
          [(50%nat, ReverseSwap prevHistory); (750%nat, ZoomingOff)])
    /\ zoomProgress (reversing prevHistory c) = zoomProgress c
    /\ zoomingNode (reversing prevHistory c) = zoomingNode c.
Proof.
  apply (right_click_on_other_node_leaves_layer DEFAULT_CONFIG
           (layer2Zooming (Viewport.mk 1000 1000) 45 (Some node_2_1))
           layer_2 node_2_2).
  - reflexivity.
  - cbn. lia.
  - cbn. lia.
  - reflexivity.
Defined.

(** X19 (witness): a wheel-up on the canvas of "layer-2" just entered. *)
Lemma reverse_requests_agree_witness :
  let w := mkWorld (enteredLayer2 (Viewport.mk 1920 1080)) [] in
  dispatch DEFAULT_CONFIG (CanvasWheel (-100)) w
  = dispatch DEFAULT_CONFIG TriggerReverseTransition w.
Proof.
  destruct (reverse_requests_agree DEFAULT_CONFIG
              (mkWorld (enteredLayer2 (Viewport.mk 1920 1080)) []))
    as [_ Hwheel].
  apply (Hwheel eq_refl None (-100)). lra.
Defined.

(** ** Edge cases of the layout and of the threshold *)

(** X20. On a viewport of width 0 or of height 0, two nodes or more with a
    positive base size get the smallest scale, 0.3. *)
Theorem scale_on_flat_viewport :
  forall vp allNodes baseSize,
    Viewport.width vp = 0 \/ Viewport.height vp = 0 ->
    (2 <= List.length allNodes)%nat ->
    0 < baseSize ->
    calculateResponsiveScale (Some vp) (Some allNodes) baseSize = 0.3.
Proof.
  intros vp allNodes baseSize Hflat Hlen Hb. unfold calculateResponsiveScale.
  rewrite (proj2 (Nat.leb_gt _ _)) by lia.
  destruct allNodes as [|node rest]; [cbn in Hlen; lia|].
  pose proof (unclampedScale_flat (Viewport.width vp) (Viewport.height vp)
                baseSize node rest Hflat Hb) as Hle.
  rewrite Rmin_right by lra. apply Rmax_left. lra.
Qed.

(** X20 (witness): the nodes of "layer-2" in a window of height 0. *)
Lemma scale_on_flat_viewport_witness :
  calculateResponsiveScale (Some (Viewport.mk 1920 0))
    (Some (Layer.nodes layer_2)) 165 = 0.3.
Proof.
  apply scale_on_flat_viewport.
  - right. reflexivity.
  - cbn. lia.
  - lra.
Defined.

(** X21. On a layer below the root whose bound [maxProgress] is below the
    threshold 90, [handleZoomProgress] never asks for the silent transition:
    the next layer cannot be entered by zooming. *)
Theorem threshold_out_of_reach :
  forall config c layer node deltaY,
    currentLayerIndex c <> 0%nat ->
    currentLayer config c = Some layer ->
    maxProgress (viewport c) (Layer.nodes layer) < 90 ->
    silentRequests (snd (handleZoomProgress config c node deltaY c)) = 0%nat.
Proof.
  intros config c layer node deltaY Hl Hlayer Hmax.
  destruct (isZooming c) eqn:Hz.
  { now rewrite handleZoomProgress_locked. }
  destruct (Rltb 0 deltaY && negb (truthy (childrenOf node))) eqn:Hterm.
  { apply andb_true_iff in Hterm. destruct Hterm as [Hd Hc].
    apply Rltb_true in Hd. apply negb_true_iff in Hc.
    now rewrite handleZoomProgress_terminal. }
  destruct (Rltb deltaY 0 && Reqb (zoomProgress c) 0
            && (0 <? currentLayerIndex c)%nat) eqn:Hrev.
  { unfold handleZoomProgress. rewrite Hz, Hterm, Hrev.
    destruct (handleReverseLayerTransition_cases c c)
      as [Hskip | (ph & _ & _ & _ & Hrun)];
      [rewrite Hskip | rewrite Hrun]; reflexivity. }
  rewrite (handleZoomProgress_update config c node deltaY layer
             Hz Hterm Hrev Hlayer).
  cbv zeta. unfold progressBound, transitionThreshold.
  rewrite (proj2 (Nat.ltb_lt 0 _)) by lia.
  rewrite (proj2 (Nat.eqb_neq _ _) Hl).
  assert (Hnp : Rmin (maxProgress (viewport c) (Layer.nodes layer))
                  (Rmax 0 (zoomProgress c + deltaY * 0.15)) < 90).
  { eapply Rle_lt_trans; [apply Rmin_l | assumption]. }
  rewrite (proj2 (Rleb_false _ _) Hnp). cbn [andb List.app snd].
  match goal with
  | |- context [if ?b then [RequestAnimationFrame _] else []] => destruct b
  end; reflexivity.
Qed.

Lemma unclampedScale_layer_2_1366x768 :
  unclampedScale 1366 768 (Layer.nodes layer_2) 165 = 4781 / 4950.
Proof.
  unfold unclampedScale. rewrite overlapLoop_layer_2 by lra.
  simpl. unfold boundaryStep. simpl. decide_Rltb. lra.
Qed.

Lemma maxProgress_layer_2_1366x768 :
  maxProgress (Viewport.mk 1366 768) (Layer.nodes layer_2) < 90.
Proof.
  unfold maxProgress, calculateResponsiveScale.
  simpl List.length. simpl Nat.leb. cbv iota.
  cbn [Viewport.width Viewport.height].
  rewrite unclampedScale_layer_2_1366x768.
  rewrite clamp_mid by lra. rewrite Rmin_right by lra. lra.
Qed.

(** X21 (witness): on a 1366 x 768 viewport the bound of "layer-2" is
    about 87.6, so no wheel event on "what is it ?" leads to "layer-3". *)
Lemma threshold_out_of_reach_witness :
  let c := layer2Zooming (Viewport.mk 1366 768) 80 (Some node_2_1) in
  silentRequests
    (snd (handleZoomProgress DEFAULT_CONFIG c (Some node_2_1) 600 c))
  = 0%nat.
Proof.
  apply (threshold_out_of_reach DEFAULT_CONFIG
           (layer2Zooming (Viewport.mk 1366 768) 80 (Some node_2_1))
           layer_2 (Some node_2_1) 600).
  - cbn. lia.
  - reflexivity.
  - apply maxProgress_layer_2_1366x768.
Defined.

(** ** The zoom that a click starts *)

Section ClickZoom.
Variable config : Config.t.
Variable c : AppState.
Variable node : Node.t.
Variable layer : Layer.t.

Hypothesis Hz : isZooming c = false.
Hypothesis Hzero : zoomProgress c = 0.
Hypothesis Hlayer : currentLayer config c = Some layer.
Hypothesis Hch : truthy (Node.children node) = true.
Hypothesis Hbound : transitionThreshold c <= progressBound c layer.

Lemma clickZoomTick_run zn p :
  0 <= p ->
  let newProgress := Rmin (progressBound c layer) (p + 0.75) in
  handleZoomProgress config c (Some node) 5 (zoomingOn c zn p)
  = (zoomingOn c (Some node) newProgress,
     if Rleb (transitionThreshold c) newProgress
        && Rltb p (transitionThreshold c)
     then [RequestAnimationFrame (SilentLayerTransition c node)]
     else []).
Proof.
  intros Hp newProgress.
  unfold handleZoomProgress. rewrite Hz, Hzero.
  cbn [childrenOf]. rewrite Hch.
  rewrite (proj2 (Rltb_true 0 5)) by lra.
  rewrite (proj2 (Rltb_false 5 0)) by lra.
  rewrite (proj2 (Reqb_true 0 0)) by reflexivity.
  cbn [negb andb].
  unfold setZoomProgressWith, zoomProgressUpdater, andThen at 1.
  cbn [setZoomingNode update fst snd zoomingOn zoomProgress].
  rewrite Hlayer. cbn [childrenOf]. rewrite Hch.
  assert (Hnew : (if (0 <? currentLayerIndex c)%nat
                  then Rmin (maxProgress (viewport c) (Layer.nodes layer))
                         (Rmax 0 (p + 5 * 0.15))
                  else Rmin 200 (Rmax 0 (p + 5 * 0.15)))
                 = newProgress).
  { unfold newProgress, progressBound.
    rewrite Rmax_right by lra.
    replace (p + 5 * 0.15) with (p + 0.75) by lra.
    destruct (0 <? currentLayerIndex c)%nat; reflexivity. }
  rewrite Hnew.
  assert (Hthr : 0 < transitionThreshold c).
  { unfold transitionThreshold. destruct (_ =? _)%nat; lra. }
  assert (Hpos : 0 < newProgress).
  { unfold newProgress. apply Rmin_glb_lt; lra. }
  rewrite (proj2 (Reqb_false newProgress 0)) by lra.
  cbn [andb]. rewrite andb_true_r.
  destruct (Rleb (transitionThreshold c) newProgress
            && Rltb p (transitionThreshold c)); reflexivity.
Qed.

Lemma clickZoomTick_below zn p :
  0 <= p -> p + 0.75 < transitionThreshold c ->
  clickZoomTick config c node (zoomingOn c zn p)
  = (zoomingOn c (Some node) (p + 0.75), []).
Proof.
  intros Hp Hlow. unfold clickZoomTick.
  rewrite clickZoomTick_run by assumption. cbv zeta.
  rewrite Rmin_right by lra.
  rewrite (proj2 (Rleb_false _ _) Hlow). reflexivity.
Qed.

Lemma clickZoomTicks_below k :
  forall zn p,
    0 <= p -> p + 0.75 * INR k < transitionThreshold c ->
    clickZoomTicks config c node k (zoomingOn c zn p)
    = zoomingOn c (match k with O => zn | S _ => Some node end)
        (p + 0.75 * INR k).
Proof.
  induction k as [|k IH]; intros zn p Hp Hlow.
  - cbn [clickZoomTicks INR]. f_equal. lra.
  - rewrite S_INR in Hlow. pose proof (pos_INR k) as Hk.
    cbn [clickZoomTicks].
    rewrite clickZoomTick_below by lra. cbn [fst].
    rewrite IH by lra.
    rewrite S_INR. f_equal; [destruct k; reflexivity | lra].
Qed.

Lemma clickZoomTicks_last k s :
  clickZoomTicks config c node (S k) s
  = fst (clickZoomTick config c node (clickZoomTicks config c node k s)).
Proof.
  revert s. induction k as [|k IH]; intros s; [reflexivity|].
  cbn [clickZoomTicks] in *. now rewrite <- IH.
Qed.

End ClickZoom.

Lemma zoomingOn_self c :
  zoomProgress c = 0 -> zoomingOn c (zoomingNode c) 0 = c.
Proof.
  intros Hzero. unfold zoomingOn. rewrite <- Hzero. destruct c; reflexivity.
Qed.

Lemma ticksToThreshold_spec c :
  0.75 * INR (ticksToThreshold c - 1) < transitionThreshold c
  /\ 0.75 * INR (ticksToThreshold c) = transitionThreshold c.
Proof.
  unfold ticksToThreshold, transitionThreshold.
  destruct (currentLayerIndex c =? 0)%nat;
    rewrite !INR_IZR_INZ; cbn [Nat.sub Z.of_nat Pos.of_succ_nat Pos.succ];
    lra.
Qed.

(** X22. A click on a node with children carries the zoom to the
    threshold: starting from progress 0 outside a transition, the calls
    [onZoomProgress(node, 5)] of the interval add 0.75 each, stay on the
    layer for the first 111 ticks on the root layer (119 below), and the
    112th (120th) tick enters the layer of the node with the progress back
    at 0 and the interval cleared; these ticks fit in the 2000 ms (2500 ms)
    the interval lasts.  Below the root this needs a bound [maxProgress] of
    at least 90. *)
Theorem click_zoom_reaches_threshold :
  forall config c node layer target nodeColor,
    isZooming c = false ->
    zoomProgress c = 0 ->
    currentLayer config c = Some layer ->
    truthy (Node.children node) = true ->
    layerIndexOf config (Node.children node) = Some target ->
    nodeColorOf config c node = Some nodeColor ->
    transitionThreshold c <= progressBound c layer ->
    let n := ticksToThreshold c in
    (n * clickZoomPeriod
     <= clickZoomDuration (currentLayerIndex c =? 0)%nat)%nat
    /\ (forall k,
           (k < n)%nat ->
           clickZoomTicks config c node k c
           = zoomingOn c
               (match k with O => zoomingNode c | S _ => Some node end)
               (0.75 * INR k))
    /\ clickZoomTicks config c node n c
       = entered config target nodeColor node
           (zoomingOn c (Some node) (transitionThreshold c))
    /\ clickZoomIntervalRef (clickZoomTicks config c node n c) = false.
Proof.
  intros config c node layer target nodeColor
    Hz Hzero Hlayer Hch Ht Hcolor Hbound n.
  destruct (ticksToThreshold_spec c) as [Hbefore Hat].
  assert (Hn : (1 <= n)%nat).
  { unfold n, ticksToThreshold. destruct (_ =? _)%nat; lia. }
  assert (Hbelow : forall k,
             (k < n)%nat ->
             clickZoomTicks config c node k c
             = zoomingOn c
                 (match k with O => zoomingNode c | S _ => Some node end)
                 (0.75 * INR k)).
  { intros k Hk.
    rewrite <- (zoomingOn_self c Hzero) at 2.
    rewrite (clickZoomTicks_below config c node layer Hz Hzero Hlayer Hch
               Hbound); [f_equal; lra | lra |].
    assert (Hle : INR k <= INR (n - 1)) by (apply le_INR; lia).
    fold n in Hbefore. lra. }
  assert (Hlast : clickZoomTicks config c node n c
                  = entered config target nodeColor node
                      (zoomingOn c (Some node) (transitionThreshold c))).
  { replace n with (S (n - 1)) at 1 by lia.
    rewrite clickZoomTicks_last, Hbelow by lia.
    assert (Hsum : 0.75 * INR (n - 1) + 0.75 = transitionThreshold c).
    { rewrite <- Hat. fold n. replace n with (S (n - 1)) at 2 by lia.
      rewrite S_INR. lra. }
    pose proof (pos_INR (n - 1)) as Hpos.
    unfold clickZoomTick.
    rewrite (clickZoomTick_run config c node layer Hz Hzero Hlayer Hch)
      by lra.
    cbv zeta. rewrite Hsum. rewrite Rmin_right by lra.
    rewrite (proj2 (Rleb_true _ _)) by lra.
    fold n in Hbefore.
    rewrite (proj2 (Rltb_true _ _) Hbefore).
    cbn [andb settle runFrame].
    rewrite (handleSilentLayerTransition_runs config c node _
               target nodeColor Hch Ht Hcolor).
    reflexivity. }
  split; [|split; [exact Hbelow | split; [exact Hlast|]]].
  - unfold n, ticksToThreshold, clickZoomDuration, clickZoomPeriod.
    destruct (currentLayerIndex c =? 0)%nat; cbn; lia.
  - rewrite Hlast. reflexivity.
Qed.

(** X22 (witness): a click on "water cycle" on the root layer; the 112th
    tick enters "layer-2". *)
Lemma click_zoom_reaches_threshold_witness :
  let c := rootZooming (Viewport.mk 1920 1080) 0 None in
  clickZoomTicks DEFAULT_CONFIG c node_1 (ticksToThreshold c) c
  = entered DEFAULT_CONFIG 1 "#2563eb" node_1
      (zoomingOn c (Some node_1) (transitionThreshold c)).
Proof.
  apply (click_zoom_reaches_threshold DEFAULT_CONFIG
           (rootZooming (Viewport.mk 1920 1080) 0 None) node_1 layer_1
           1%nat "#2563eb"); try reflexivity.
  unfold transitionThreshold, progressBound.
  cbn [rootZooming currentLayerIndex Nat.eqb Nat.ltb Nat.leb]. lra.
Defined.
